(** * Modeling/modeling_functions.py: outlier trimming, fold evaluation and grid search

    A shallow embedding of [removeOutliers], [customCV] and
    [customGridSearchCV].  pandas objects are records, Python dictionaries whose
    iteration order matters are association lists in insertion order, the
    parameter grid is a finite map, floating point numbers are an abstract type
    with the operations the code applies to them, and scalers, resamplers,
    reducers and classifiers are opaque collaborators acting on a world. *)

From Stdlib Require Import ZArith QArith Lia.
From stdpp Require Import base option list sets gmap strings pretty sorting.

Close Scope Q_scope.
Open Scope string_scope.
Open Scope list_scope.
Open Scope nat_scope.

(** ** Python results and a state-and-exception monad *)

Inductive PyExc :=
| KeyError
| IndexError
| ValueError
| TypeError
| NameError (name : string)
| UnboundLocalError (name : string).

Inductive Res (A : Type) :=
| Ok (a : A)
| Raise (e : PyExc).
Arguments Ok {A} a.
Arguments Raise {A} e.

Definition M (St A : Type) : Type := St → Res A * St.

Definition ret {St A} (a : A) : M St A := fun st => (Ok a, st).

Definition bind {St A B} (m : M St A) (k : A → M St B) : M St B :=
  fun st => match m st with
            | (Ok a, st') => k a st'
            | (Raise e, st') => (Raise e, st')
            end.

Definition raise {St A} (e : PyExc) : M St A := fun st => (Raise e, st).
Definition get {St} : M St St := fun st => (Ok st, st).
Definition modify {St} (f : St → St) : M St unit := fun st => (Ok tt, f st).

#[global] Instance M_ret {St} : MRet (M St) := @ret St.
#[global] Instance M_bind {St} : MBind (M St) := fun A B k m => bind m k.

(** [for x in xs: body x] *)
Fixpoint for_ {St A} (xs : list A) (body : A → M St unit) : M St unit :=
  match xs with
  | [] => ret tt
  | x :: xs' => body x ;; for_ xs' body
  end.

(** ** Floating point numbers

    The code only compares, adds, subtracts and multiplies floats and hands
    lists of them to pandas and numpy reductions.  None of the results below
    depends on more than that, so the type is abstract (NaN included: no order
    law is assumed). *)

Class FloatOps (F : Type) := {
  flt : F → F → bool;            (* a < b *)
  fgt : F → F → bool;            (* a > b *)
  feq : F → F → bool;            (* a == b *)
  fadd : F → F → F;
  fsub : F → F → F;
  fmul : F → F → F;
  f_of_Z : Z → F;                (* an int operand promoted to float *)
  lit_0_5 : F;                   (* the literal 0.5 *)
  lit_0_2 : F;                   (* the literal 0.2 *)
  pd_mean : list F → F;          (* pandas Series.mean() *)
  pd_std : list F → F;           (* pandas Series.std(), ddof = 1 *)
  np_mean : list F → F;          (* numpy.mean of a list *)
  round4 : F → F                 (* round(x, 4) *)
}.

(** Arguments of a [print] call, one list per call. *)
Inductive PyArg (F : Type) :=
| AStr (s : string)
| AInt (n : Z)
| AFloat (x : F).
Arguments AStr {F} s.
Arguments AInt {F} n.
Arguments AFloat {F} x.

(** ["\n"] *)
Definition newline : string := String (Ascii.ascii_of_nat 10) "".

(** ["!"*40] *)
Fixpoint str_repeat (s : string) (n : nat) : string :=
  match n with
  | O => ""
  | S n' => s +:+ str_repeat s n'
  end.

(** ** pandas objects *)

(** Boolean indexing: the entries of [xs] at the positions where [mask] holds. *)
Fixpoint mask_select {A} (mask : list bool) (xs : list A) : list A :=
  match mask, xs with
  | b :: mask', x :: xs' =>
      if b then x :: mask_select mask' xs' else mask_select mask' xs'
  | _, _ => []
  end.

Section Pandas.
Context {F : Type} `{FloatOps F}.

(** A DataFrame: row labels and named columns, each column as long as the
    index.  Column labels are unique, so that [df[col]] is one column, and the
    loop over [df.columns] visits the columns themselves. *)
Record DataFrame := {
  df_index : list Z;
  df_columns : list (string * list F)
}.

(** A Series of class labels. *)
Record Series := {
  s_index : list Z;
  s_name : string;
  s_values : list Z
}.

(** [len(df)], [len(s)] *)
Definition df_len (X : DataFrame) : nat := length (df_index X).
Definition s_len (y : Series) : nat := length (s_index y).

(** [df[mask]]: the rows where the mask holds. *)
Definition df_select (mask : list bool) (X : DataFrame) : DataFrame :=
  {| df_index := mask_select mask (df_index X);
     df_columns := map (fun c => (fst c, mask_select mask (snd c))) (df_columns X) |}.

Definition s_select (mask : list bool) (y : Series) : Series :=
  {| s_index := mask_select mask (s_index y);
     s_name := s_name y;
     s_values := mask_select mask (s_values y) |}.

(** [obj.drop(labels, axis=0)]: every row whose label is listed goes; a
    listed label that the index does not have is a KeyError. *)
Definition keep_mask (labels index : list Z) : list bool :=
  map (fun l => negb (bool_decide (l ∈ labels))) index.

Definition labels_found (labels index : list Z) : bool :=
  forallb (fun l => bool_decide (l ∈ index)) labels.

Definition df_drop (labels : list Z) (X : DataFrame) : Res DataFrame :=
  if labels_found labels (df_index X)
  then Ok (df_select (keep_mask labels (df_index X)) X)
  else Raise KeyError.

Definition s_drop (labels : list Z) (y : Series) : Res Series :=
  if labels_found labels (s_index y)
  then Ok (s_select (keep_mask labels (s_index y)) y)
  else Raise KeyError.

(** ** removeOutliers *)

(** [(col < mean_ - 4*std_) | (col > mean_ + 4*std_)] on one value *)
Definition is_outlier (mean_ std_ v : F) : bool :=
  flt v (fsub mean_ (fmul (f_of_Z 4) std_))
  || fgt v (fadd mean_ (fmul (f_of_Z 4) std_)).

(** The boolean mask of a column, with the column's own mean and std. *)
Definition outlier_mask (vals : list F) : list bool :=
  let mean_ := pd_mean vals in
  let std_ := pd_std vals in
  map (is_outlier mean_ std_) vals.

(** [new_X_train[mask].index], the mask being that of one column:
    [new_X_train[col]] is a column when the name [col] occurs once among the
    column names. *)
Definition outlier_index (X : DataFrame) (vals : list F) : list Z :=
  mask_select (outlier_mask vals) (df_index X).

(** [for list_ in col_indices: for item in list_: indices.append(item)] *)
Definition extend_indices (indices : list Z) (col_indices : list (list Z)) : list Z :=
  foldl (fun acc list_ => foldl (fun acc' item => acc' ++ [item]) acc list_)
        indices col_indices.

(** One pass of the loop over the columns, on the two local lists. *)
Definition column_step (X : DataFrame)
    (st : list (list Z) * list Z) (col : string * list F) : list (list Z) * list Z :=
  let '(col_indices, indices) := st in
  let col_indices := col_indices ++ [outlier_index X (snd col)] in
  (col_indices, extend_indices indices col_indices).

(** The list [indices] when the loop over the columns ends. *)
Definition collect_indices (X : DataFrame) : list Z :=
  snd (foldl (column_step X) ([], []) (df_columns X)).

(** [list(set(indices))] *)
Definition unique_indices (indices : list Z) : list Z :=
  elements (list_to_set indices : gset Z).

(** The objects of a call live on a heap; arguments and results are
    references into it. *)
Inductive PyObj :=
| ODataFrame (d : DataFrame)
| OSeries (s : Series).

Record PyState := {
  heap : list PyObj;
  stdout : list (list (PyArg F))
}.

(** The state with one more object, and with more lines printed. *)
Definition push (o : PyObj) (st : PyState) : PyState :=
  {| heap := heap st ++ [o]; stdout := stdout st |}.

Definition emit (outs : list (list (PyArg F))) (st : PyState) : PyState :=
  {| heap := heap st; stdout := stdout st ++ outs |}.

Definition alloc (o : PyObj) : M PyState nat :=
  fun st => (Ok (length (heap st)), push o st).

Definition print (args : list (PyArg F)) : M PyState unit :=
  modify (emit [args]).

Definition load_frame (r : nat) : M PyState DataFrame :=
  fun st => match heap st !! r with
            | Some (ODataFrame d) => (Ok d, st)
            | _ => (Raise TypeError, st)
            end.

Definition load_series (r : nat) : M PyState Series :=
  fun st => match heap st !! r with
            | Some (OSeries s) => (Ok s, st)
            | _ => (Raise TypeError, st)
            end.

Definition lift_res {A} (r : Res A) : M PyState A := fun st => (r, st).

(** [X.copy()], [y.copy()]: a new object with the same content. *)
Definition frame_copy (r : nat) : M PyState nat :=
  d ← load_frame r ; alloc (ODataFrame d).
Definition series_copy (r : nat) : M PyState nat :=
  s ← load_series r ; alloc (OSeries s).

(** [X.drop(indices, axis=0)] without [inplace]: a new object. *)
Definition frame_drop (r : nat) (labels : list Z) : M PyState nat :=
  d ← load_frame r ; d' ← lift_res (df_drop labels d) ; alloc (ODataFrame d').
Definition series_drop (r : nat) (labels : list Z) : M PyState nat :=
  s ← load_series r ; s' ← lift_res (s_drop labels s) ; alloc (OSeries s').

Definition removeOutliers (X_train y_train : nat) : M PyState (nat * nat) :=
  (* Copy data *)
  new_X_train ← frame_copy X_train;
  new_y_train ← series_copy y_train;
  (* the loop over new_X_train.columns *)
  d ← load_frame new_X_train;
  let indices := collect_indices d in
  (* Set indices equal to its unique values *)
  let indices := unique_indices indices in
  (* Drop all rows with outliers *)
  new_X_train ← frame_drop new_X_train indices;
  new_y_train ← series_drop new_y_train indices;
  dx ← load_frame new_X_train;
  sy ← load_series new_y_train;
  (* Raise an error if the lengths do not match *)
  (if bool_decide (df_len dx ≠ s_len sy)
   then print [AStr (str_repeat "!" 40)] ;;
        print [AStr "Error"] ;;
        print [AStr (str_repeat "!" 40)]
   else ret tt) ;;
  ret (new_X_train, new_y_train).

(** The same call on values: the arguments are put on a fresh heap and the
    results read back, together with what was printed. *)
Definition removeOutliers_val (X : DataFrame) (y : Series)
    : Res (DataFrame * Series) * list (list (PyArg F)) :=
  let st0 := {| heap := [ODataFrame X; OSeries y]; stdout := [] |} in
  match removeOutliers 0 1 st0 with
  | (Ok (rx, ry), st) =>
      match heap st !! rx, heap st !! ry with
      | Some (ODataFrame X'), Some (OSeries y') => (Ok (X', y'), stdout st)
      | _, _ => (Raise TypeError, stdout st)
      end
  | (Raise e, st) => (Raise e, stdout st)
  end.

(** ** Notions the statements about removeOutliers use *)

(** The three lines of the length-mismatch diagnostic. *)
Definition banner : list (list (PyArg F)) :=
  [[AStr (str_repeat "!" 40)]; [AStr "Error"]; [AStr (str_repeat "!" 40)]].

(** The union, over the columns, of each column's set of outlier labels:
    what one pass that adds every column once would give. *)
Definition plain_union (X : DataFrame) : gset Z :=
  ⋃ (map (fun c => list_to_set (outlier_index X (snd c))) (df_columns X)).

(** Row [i] is an outlier in at least one column. *)
Definition row_outlier (X : DataFrame) (i : nat) : bool :=
  existsb (fun c => default false (outlier_mask (snd c) !! i)) (df_columns X).

(** The rows that are outliers in at least one column, by position. *)
Definition outlier_rows (X : DataFrame) : list bool :=
  map (row_outlier X) (seq 0 (df_len X)).

(** Label [l] is the label of some row that is an outlier in at least one
    column. *)
Definition label_flagged (X : DataFrame) (l : Z) : bool :=
  existsb (fun i => bool_decide (df_index X !! i = Some l) && row_outlier X i)
          (seq 0 (df_len X)).

(** Every column is as long as the index; the values of a series are as many
    as its labels. *)
Definition frame_shaped (X : DataFrame) : Prop :=
  Forall (fun c => length (snd c) = length (df_index X)) (df_columns X).

Definition series_shaped (y : Series) : Prop :=
  length (s_values y) = length (s_index y).

End Pandas.
Arguments DataFrame F : clear implicits.
Arguments PyObj F : clear implicits.
Arguments PyState F : clear implicits.
Arguments Series : clear implicits.

(** ** Python dictionaries that are iterated: association lists in insertion order *)

Section Dict.
Context {V : Type}.

(** [d[k] = v]: an existing key keeps its place, a new key goes last. *)
Fixpoint dict_set (k : string) (v : V) (d : list (string * V)) : list (string * V) :=
  match d with
  | [] => [(k, v)]
  | (k', v') :: d' =>
      if bool_decide (k' = k) then (k, v) :: d' else (k', v') :: dict_set k v d'
  end.

(** [d[k]] *)
Fixpoint dict_get (k : string) (d : list (string * V)) : option V :=
  match d with
  | [] => None
  | (k', v') :: d' => if bool_decide (k' = k) then Some v' else dict_get k d'
  end.

Definition dict_keys (d : list (string * V)) : list string := map fst d.
Definition dict_values (d : list (string * V)) : list V := map snd d.
End Dict.

(** [sorted(strings)] *)
Definition py_sorted (l : list string) : list string := merge_sort String.le l.

(** [", ".join(parts)] *)
Fixpoint str_join (sep : string) (parts : list string) : string :=
  match parts with
  | [] => ""
  | [p] => p
  | p :: rest => p +:+ sep +:+ str_join sep rest
  end.

(** [repr] of a str made of printable ASCII without quotes or backslashes, as
    hyperparameter names are: the text between single quotes. *)
Definition py_repr_name (s : string) : string := "'" +:+ s +:+ "'".

(** [str(d)] of a dict with str keys, given the [repr] of its values: the
    items [key: value] between braces, a comma and a space between them. *)
Definition dict_item {V} (repr : V → string) (kv : string * V) : string :=
  py_repr_name (fst kv) +:+ ": " +:+ repr (snd kv).

Definition py_str_dict {V} (repr : V → string) (d : list (string * V)) : string :=
  "{" +:+ str_join ", " (map (dict_item repr) d) +:+ "}".

(** Whether a string has a comma in it. *)
Definition comma : Ascii.ascii := Ascii.ascii_of_nat 44.

Fixpoint has_comma (s : string) : bool :=
  match s with
  | EmptyString => false
  | String c s' => bool_decide (c = comma) || has_comma s'
  end.

(** The keys of a dictionary after one more key is set. *)
Definition add_key (ks : list string) (k : string) : list string :=
  if bool_decide (k ∈ ks) then ks else ks ++ [k].

(** ** customCV *)

(** A numpy array with a row count and its columns. *)
Record ndarray (F : Type) := {
  nd_rows : nat;
  nd_columns : list (list F)
}.
Arguments nd_rows {F} _.
Arguments nd_columns {F} _.

(** What the final estimator is fitted on: a DataFrame, or the array a reducer
    returned. *)
Inductive Features (F : Type) :=
| FFrame (d : DataFrame F)
| FArray (a : ndarray F).
Arguments FFrame {F} d.
Arguments FArray {F} a.

(** The external collaborators.  Their objects are handles; what a call changes
    (fitted statistics, random state) is in the world.  Calls return; what they
    return is not constrained.  A call that raises (a split that cannot be
    made, a report without an entry for the label 1) is outside the model, and
    so is a resampler that returns pandas objects instead of arrays. *)
Class Collaborators (F : Type) := {
  World : Type;
  HyperValue : Type;                       (* a candidate value of a hyperparameter *)
  py_repr : HyperValue → string;           (* its repr() *)
  ClfClass : Type;
  Clf : Type;
  ScalerObj : Type;
  ResamplerObj : Type;
  PcaObj : Type;
  ScalerParams : Type;
  (* sklearn.model_selection.StratifiedKFold().split(X, y) *)
  skf_split : DataFrame F → Series → list (list nat * list nat);
  scaler_fit_transform : ScalerObj → DataFrame F → World → ndarray F * World;
  scaler_transform : ScalerObj → DataFrame F → World → ndarray F * World;
  scaler_params : ScalerObj → World → ScalerParams;
  resampler_fit_resample :
    ResamplerObj → DataFrame F → Series → World → (ndarray F * list Z) * World;
  pca_fit_transform : PcaObj → DataFrame F → World → ndarray F * World;
  pca_transform : PcaObj → DataFrame F → World → ndarray F * World;
  clf_new : ClfClass → list (string * HyperValue) → World → Clf * World;
  clf_fit : Clf → Features F → Series → World → Clf * World;
  clf_predict : Clf → Features F → World → list Z * World;
  (* classification_report(y_test, y_pred, output_dict=True)['1'][...] *)
  report_recall : Series → list Z → F;
  report_precision : Series → list Z → F;
  report_f1 : Series → list Z → F
}.

Section CustomCV.
Context {F : Type} `{FloatOps F} `{Collaborators F}.

(** The interpreter state of a call: the collaborators' world and what was
    printed.  Two ghost fields record, for the statements below, the scaler
    as fitted in each fold with the scaled training rows, and the keyword
    arguments of each instantiation of the model class. *)
Record CVState := {
  world : World;
  cv_stdout : list (list (PyArg F));
  fold_obs : list (ScalerParams * ndarray F);
  clf_calls : list (list (string * HyperValue))
}.

Definition with_world {A} (f : World → A * World) : M CVState A :=
  fun st => let '(a, w) := f (world st) in
            (Ok a, {| world := w; cv_stdout := cv_stdout st;
                      fold_obs := fold_obs st; clf_calls := clf_calls st |}).

Definition cv_print (args : list (PyArg F)) : M CVState unit :=
  modify (fun st => {| world := world st; cv_stdout := cv_stdout st ++ [args];
                       fold_obs := fold_obs st; clf_calls := clf_calls st |}).

Definition cv_emit (outs : list (list (PyArg F))) : M CVState unit :=
  modify (fun st => {| world := world st; cv_stdout := cv_stdout st ++ outs;
                       fold_obs := fold_obs st; clf_calls := clf_calls st |}).

Definition observe_scaler (scaler : ScalerObj) (a : ndarray F) : M CVState unit :=
  modify (fun st => {| world := world st; cv_stdout := cv_stdout st;
                       fold_obs := fold_obs st ++ [(scaler_params scaler (world st), a)];
                       clf_calls := clf_calls st |}).

Definition observe_clf_call (kwargs : list (string * HyperValue)) : M CVState unit :=
  modify (fun st => {| world := world st; cv_stdout := cv_stdout st;
                       fold_obs := fold_obs st;
                       clf_calls := clf_calls st ++ [kwargs] |}).

Definition lift {St A} (r : Res A) : M St A := fun st => (r, st).

Definition of_option {St A} (e : PyExc) (o : option A) : M St A :=
  match o with Some a => ret a | None => raise e end.

(** Positional selection: [xs[pos]] for every listed position. *)
Definition select_pos {A} (pos : list nat) (xs : list A) : option (list A) :=
  mapM (fun p => xs !! p) pos.

(** [X.iloc[positions]]; a position past the end is an IndexError. *)
Definition df_iloc (pos : list nat) (X : DataFrame F) : Res (DataFrame F) :=
  match select_pos pos (df_index X),
        mapM (fun c => vs ← select_pos pos (snd c); Some (fst c, vs)) (df_columns X) with
  | Some idx, Some cols => Ok {| df_index := idx; df_columns := cols |}
  | _, _ => Raise IndexError
  end.

Definition s_iloc (pos : list nat) (y : Series) : Res Series :=
  match select_pos pos (s_index y), select_pos pos (s_values y) with
  | Some idx, Some vals => Ok {| s_index := idx; s_name := s_name y; s_values := vals |}
  | _, _ => Raise IndexError
  end.

(** A fresh RangeIndex. *)
Definition range_index (n : nat) : list Z := map Z.of_nat (seq 0 n).

(** [pd.DataFrame(array, columns=names)]; as many names as columns, or a
    ValueError. *)
Definition frame_of_array (a : ndarray F) (names : list string) : Res (DataFrame F) :=
  if bool_decide (length (nd_columns a) = length names)
  then Ok {| df_index := range_index (nd_rows a);
             df_columns := zip names (nd_columns a) |}
  else Raise ValueError.

(** [pd.Series(array, name=...)] *)
Definition series_of_array (vals : list Z) (name : string) : Series :=
  {| s_index := range_index (length vals); s_name := name; s_values := vals |}.

Definition df_names (X : DataFrame F) : list string := map fst (df_columns X).

(** A loop that appends to a local list. *)
Fixpoint for_acc {St A B} (xs : list A) (acc : B) (body : B → A → M St B) : M St B :=
  match xs with
  | [] => ret acc
  | x :: xs' => acc' ← body acc x; for_acc xs' acc' body
  end.

Definition Score : Type := F * F * F.
Definition recall_of (s : Score) : F := s.1.1.       (* s[0] *)
Definition precision_of (s : Score) : F := s.1.2.    (* s[1] *)
Definition f1_of (s : Score) : F := s.2.             (* s[2] *)

(** The body of the loop over the folds. *)
Definition cv_fold (clf : Clf) (X : DataFrame F) (y : Series)
    (scaler : ScalerObj) (resampler : ResamplerObj)
    (outlier_removal : bool) (pca : option PcaObj)
    (scores : list Score) (split : list nat * list nat) : M CVState (list Score) :=
  let '(train_index, test_index) := split in
  X_train ← lift (df_iloc train_index X);
  X_test ← lift (df_iloc test_index X);
  y_train ← lift (s_iloc train_index y);
  y_test ← lift (s_iloc test_index y);
  (* Scale data *)
  X_train_s ← with_world (scaler_fit_transform scaler X_train);
  observe_scaler scaler X_train_s ;;
  X_test_s ← with_world (scaler_transform scaler X_test);
  X_train_s ← lift (frame_of_array X_train_s (df_names X));
  X_test_s ← lift (frame_of_array X_test_s (df_names X));
  (* Resample *)
  '(X_train_s_r, y_train_r) ← with_world (resampler_fit_resample resampler X_train_s y_train);
  X_train_s_r ← lift (frame_of_array X_train_s_r (df_names X_train_s));
  let y_train_r := series_of_array y_train_r "Class" in
  (* Remove outliers *)
  '(X_train_s_r_o, y_train_final) ←
    (if outlier_removal
     then let '(r, out) := removeOutliers_val X_train_s_r y_train_r in
          cv_emit out ;; lift r
     else ret (X_train_s_r, y_train_r));
  (* PCA *)
  '(X_train_final, X_test_final) ←
    match pca with
    | Some p =>
        a ← with_world (pca_fit_transform p X_train_s_r_o);
        b ← with_world (pca_transform p X_test_s);
        ret (FArray a, FArray b)
    | None => ret (FFrame X_train_s_r_o, FFrame X_test_s)
    end;
  (* Fit and Predict *)
  fit_clf ← with_world (clf_fit clf X_train_final y_train_final);
  y_pred ← with_world (clf_predict fit_clf X_test_final);
  (* Append results to the list "scores" *)
  ret (scores ++ [(report_recall y_test y_pred,
                   report_precision y_test y_pred,
                   report_f1 y_test y_pred)]).

(** [for i, n in zip(scores, range(1, 6))]: the per-split report. *)
Definition print_split (sn : Score * Z) : M CVState unit :=
  let '(i, n) := sn in
  cv_print [AStr "split"; AInt n] ;;
  cv_print [AStr "recall:"; AFloat (round4 (recall_of i))] ;;
  cv_print [AStr "precision:"; AFloat (round4 (precision_of i))] ;;
  cv_print [AStr "f1:"; AFloat (round4 (f1_of i))].

Definition customCV (clf : Clf) (X : DataFrame F) (y : Series)
    (scaler : ScalerObj) (resampler : ResamplerObj)
    (outlier_removal : bool) (pca : option PcaObj) (print_splits : bool)
    : M CVState Score :=
  scores ← for_acc (skf_split X y) []
              (cv_fold clf X y scaler resampler outlier_removal pca);
  (* Print results for each split *)
  (if print_splits
   then for_ (zip scores [1; 2; 3; 4; 5]%Z) print_split
   else ret tt) ;;
  (* Find mean of all the split's scores *)
  let recall := np_mean (map recall_of scores) in
  let precision := np_mean (map precision_of scores) in
  let f1 := np_mean (map f1_of scores) in
  (* Print mean results *)
  (if print_splits
   then cv_print [AStr "Mean Scores:"] ;;
        cv_print [AStr "Mean recall:"; AFloat (round4 recall)] ;;
        cv_print [AStr "Mean precision:"; AFloat (round4 precision)] ;;
        cv_print [AStr "Mean f1:"; AFloat (round4 f1); AStr newline]
   else ret tt) ;;
  ret (recall, precision, f1).

(** ** Notions the statements about customCV use *)

(** The state with more lines printed. *)
Definition cv_printed (outs : list (list (PyArg F))) (cv : CVState) : CVState :=
  {| world := world cv; cv_stdout := cv_stdout cv ++ outs;
     fold_obs := fold_obs cv; clf_calls := clf_calls cv |}.

(** Fitting forgets what the scaler was fitted on before: the transformed
    rows and the fitted parameters are those of the rows passed, in whatever
    world the call starts.  sklearn's scalers reset in [fit]. *)
Definition fit_forgets (scaler : ScalerObj) : Prop :=
  ∀ X_train w1 w2,
    fst (scaler_fit_transform scaler X_train w1) =
    fst (scaler_fit_transform scaler X_train w2) ∧
    scaler_params scaler (snd (scaler_fit_transform scaler X_train w1)) =
    scaler_params scaler (snd (scaler_fit_transform scaler X_train w2)).

(** What a fold records for a scaler fitted on [X_train] in world [w]. *)
Definition fitted_on (scaler : ScalerObj) (X_train : DataFrame F) (w : World)
    : ScalerParams * ndarray F :=
  (scaler_params scaler (snd (scaler_fit_transform scaler X_train w)),
   fst (scaler_fit_transform scaler X_train w)).

(** A computation that records no fitted scaler. *)
Definition silent {A} (m : M CVState A) : Prop :=
  ∀ st, fold_obs (snd (m st)) = fold_obs st.

(** A computation that leaves the log of instantiations alone and, when it
    returns, has recorded [c] fitted scalers. *)
Definition counts {A} (m : M CVState A) (c : nat) : Prop :=
  ∀ st, match m st with
        | (Ok _, st') =>
            clf_calls st' = clf_calls st ∧
            length (fold_obs st') = length (fold_obs st) + c
        | (Raise _, st') => clf_calls st' = clf_calls st
        end.

(** A fold's score is computed from its test rows alone: the labels at the
    test positions, and predictions for the rows at the test positions as
    transformed by the scaler fitted on the fold's training rows and, if a
    reducer is given, by the reducer. *)
Definition scored_on_test_rows (X : DataFrame F) (y : Series)
    (scaler : ScalerObj) (pca : option PcaObj)
    (split : list nat * list nat) (s : Score) : Prop :=
  ∃ X_train X_test y_test X_test_s w0 w2 fit_clf w3,
    df_iloc (fst split) X = Ok X_train ∧
    df_iloc (snd split) X = Ok X_test ∧
    s_iloc (snd split) y = Ok y_test ∧
    frame_of_array
      (fst (scaler_transform scaler X_test (snd (scaler_fit_transform scaler X_train w0))))
      (df_names X) = Ok X_test_s ∧
    let X_test_final := match pca with
                        | Some p => FArray (fst (pca_transform p X_test_s w2))
                        | None => FFrame X_test_s
                        end in
    let y_pred := fst (clf_predict fit_clf X_test_final w3) in
    s = (report_recall y_test y_pred,
         report_precision y_test y_pred,
         report_f1 y_test y_pred).

End CustomCV.
Arguments Score F : clear implicits.

(** ** customGridSearchCV *)

(** The names bound at module level: the three functions, nothing else. *)
Definition module_globals : list string :=
  ["removeOutliers"; "customCV"; "customGridSearchCV"].

(** Python's [max] of a list: the running best is replaced by an item that
    compares greater; an empty list is a ValueError. *)
Definition py_max {F} `{FloatOps F} (l : list F) : Res F :=
  match l with
  | [] => Raise ValueError
  | x :: rest => Ok (foldl (fun best item => if fgt item best then item else best) x rest)
  end.

(** A loop whose body may [return]: [Some r] leaves the loop (and the
    function) with [r]. *)
Fixpoint for_return {St A R} (xs : list A) (body : A → M St (option R)) : M St (option R) :=
  match xs with
  | [] => ret None
  | x :: xs' =>
      r ← body x;
      match r with
      | Some v => ret (Some v)
      | None => for_return xs' body
      end
  end.

Section GridSearch.
Context {F : Type} `{FloatOps F} `{Collaborators F}.

(** What the function returns. *)
Inductive GSResult :=
| RNone
| RScores (scores : list (string * Score F))
| RBest (key : string) (score : Score F) (scaler_str : string)
        (resampler : ResamplerObj) (outlier_removal : bool) (pca : option PcaObj).

(** The interpreter state with the two local dictionaries. *)
Record GSState := {
  gs_cv : CVState;
  current_params : list (string * HyperValue);
  scores : list (string * Score F)
}.

Definition with_cv {A} (m : M CVState A) : M GSState A :=
  fun st => let '(r, cv) := m (gs_cv st) in
            (r, {| gs_cv := cv; current_params := current_params st;
                   scores := scores st |}).

(** [current_params[k] = v] *)
Definition set_current (k : string) (v : HyperValue) : M GSState unit :=
  modify (fun st => {| gs_cv := gs_cv st;
                       current_params := dict_set k v (current_params st);
                       scores := scores st |}).

(** [scores[k] = s] *)
Definition set_score (k : string) (s : Score F) : M GSState unit :=
  modify (fun st => {| gs_cv := gs_cv st; current_params := current_params st;
                       scores := dict_set k s (scores st) |}).

(** Reading a global name, and a local one that may not be bound yet. *)
Definition load_global {St} (name : string) : M St string :=
  if bool_decide (name ∈ module_globals) then ret name else raise (NameError name).

Definition load_local {St A} (name : string) (v : option A) : M St A :=
  of_option (UnboundLocalError name) v.

(** The key a printed line of scores is for: its second argument. *)
Definition line_key (line : list (PyArg F)) : option string :=
  match line with
  | _ :: AStr key :: _ => Some key
  | _ => None
  end.

Section Call.
Variables (clf : ClfClass) (param_grid : gmap string (list HyperValue))
          (X : DataFrame F) (y : Series) (scoring : string)
          (scaler : ScalerObj) (resampler : ResamplerObj)
          (outlier_removal : bool) (pca : option PcaObj).

(** [sorted(param_grid.keys())] *)
Definition param_keys : list string := py_sorted (map fst (map_to_list param_grid)).
Definition len_ : nat := length param_keys.

(** [param_keys[i]] and [param_grid[k]] *)
Definition key_at (i : nat) : M GSState string :=
  of_option IndexError (param_keys !! i).
Definition candidates (k : string) : M GSState (list HyperValue) :=
  of_option KeyError (param_grid !! k).

(** The two lines under every [if len_ == n]:
    the model class is called with [current_params] unpacked as keyword
    arguments, and [scores[str(current_params)]] is set to what [customCV]
    returns for that instance. *)
Definition evaluate (kwargs : list (string * HyperValue)) : M CVState (Score F) :=
  observe_clf_call kwargs ;;
  clf_obj ← with_world (clf_new clf kwargs);
  customCV clf_obj X y scaler resampler outlier_removal pca false.

Definition evaluate_current : M GSState unit :=
  st ← get;
  score ← with_cv (evaluate (current_params st));
  st ← get;
  set_score (py_str_dict py_repr (current_params st)) score.

(** Iterate through all combinations of parameters: five loops, one inside
    the other, the fifth without an [else]. *)
Definition enumerate_grid : M GSState unit :=
  k0 ← key_at 0; values ← candidates k0;
  for_ values (fun value =>
    set_current k0 value ;;
    if bool_decide (len_ = 1) then evaluate_current
    else
      k1 ← key_at 1; values2 ← candidates k1;
      for_ values2 (fun value2 =>
        set_current k1 value2 ;;
        if bool_decide (len_ = 2) then evaluate_current
        else
          k2 ← key_at 2; values3 ← candidates k2;
          for_ values3 (fun value3 =>
            set_current k2 value3 ;;
            if bool_decide (len_ = 3) then evaluate_current
            else
              k3 ← key_at 3; values4 ← candidates k3;
              for_ values4 (fun value4 =>
                set_current k3 value4 ;;
                if bool_decide (len_ = 4) then evaluate_current
                else
                  k4 ← key_at 4; values5 ← candidates k4;
                  for_ values5 (fun value5 =>
                    set_current k4 value5 ;;
                    if bool_decide (len_ = 5) then evaluate_current
                    else ret tt))))).

(** The arguments of the [print] of a combination's scores. *)
Definition scores_line (head : list (PyArg F)) (recall_label : string) (s : Score F)
    : list (PyArg F) :=
  head ++
  [AStr (newline +:+ recall_label); AFloat (recall_of s);
   AStr (newline +:+ " precision:"); AFloat (precision_of s);
   AStr (newline +:+ " f1-score:"); AFloat (f1_of s);
   AStr newline].

Definition print_scores (head : list (PyArg F)) (recall_label : string) (s : Score F)
    : M GSState unit :=
  with_cv (cv_print (scores_line head recall_label s)).

(** [(scores[key][0] > 0.5) & (scores[key][1] > 0.2)] *)
Definition passes_thresholds (s : Score F) : bool :=
  fgt (recall_of s) lit_0_5 && fgt (precision_of s) lit_0_2.

(** [scores[key]] *)
Definition score_at (sc : list (string * Score F)) (key : string) : M GSState (Score F) :=
  of_option KeyError (dict_get key sc).

(** The three branches that pick a best combination share their loop; they
    differ in the component compared. *)
Definition return_best (sc : list (string * Score F)) (component : Score F → F)
    (max_score : F) : M GSState (option GSResult) :=
  for_return (dict_keys sc) (fun key =>
    s ← score_at sc key;
    if feq (component s) max_score
    then
      scaler_str ← load_global "scaler_str";
      print_scores [AStr scaler_str] " recall:" s ;;
      ret (Some (RBest key s scaler_str resampler outlier_removal pca))
    else ret None).

(** Find the best params based on scoring parameter. *)
Definition select_result : M GSState GSResult :=
  st ← get;
  let sc := scores st in
  (* the local max_score: assigned nowhere yet *)
  let max_score : option F := None in
  r_all ←
    (if bool_decide (scoring = "all")
     then for_return (py_sorted (dict_keys sc)) (fun key =>
            s ← score_at sc key;
            print_scores [AStr newline; AStr key] " recall" s ;;
            ret (Some (RScores sc)))
     else ret None);
  match r_all with
  | Some r => ret r
  | None =>
    if bool_decide (scoring = "custom")
    then
      for_ (py_sorted (dict_keys sc)) (fun key =>
        s ← score_at sc key;
        if passes_thresholds s
        then print_scores [AStr newline; AStr key] " recall" s
        else ret tt) ;;
      ret (RScores sc)
    else if bool_decide (scoring = "recall")
    then
      max_score ← lift (py_max (map recall_of (dict_values sc)));
      r ← return_best sc recall_of max_score;
      ret (default RNone r)
    else if bool_decide (scoring = "precision")
    then
      (* max_score == max([i[1] for i in scores.values()]) *)
      unbound ← load_local "max_score" max_score;
      m ← lift (py_max (map precision_of (dict_values sc)));
      let _ := feq unbound m in
      r ← return_best sc precision_of unbound;
      ret (default RNone r)
    else if bool_decide (scoring = "f1")
    then
      max_score ← lift (py_max (map f1_of (dict_values sc)));
      r ← return_best sc f1_of max_score;
      ret (default RNone r)
    else ret RNone
  end.

(** The function: the locals start empty and are dropped at the end. *)
Definition customGridSearchCV : M CVState GSResult :=
  fun cv =>
    let st0 := {| gs_cv := cv; current_params := []; scores := [] |} in
    let '(r, st) := (enumerate_grid ;; select_result) st0 in
    (r, gs_cv st).

(** The scores dictionary as the enumeration leaves it. *)
Definition grid_scores (cv : CVState) : Res (list (string * Score F)) * CVState :=
  let st0 := {| gs_cv := cv; current_params := []; scores := [] |} in
  let '(r, st) := enumerate_grid st0 in
  (match r with Ok _ => Ok (scores st) | Raise e => Raise e end, gs_cv st).

(** ** Notions the statements about the enumeration use *)

(** The loops by recursion on the number of loops left: [nest 5 0] unfolds
    to the five written out. *)
Fixpoint nest (loops level : nat) : M GSState unit :=
  match loops with
  | O => ret tt
  | S loops' =>
      k ← key_at level; values ← candidates k;
      for_ values (fun value =>
        set_current k value ;;
        if bool_decide (len_ = S level) then evaluate_current
        else nest loops' (S level))
  end.

(** The Cartesian product of lists of candidates, the first list varying
    slowest. *)
Fixpoint cartesian (lists : list (list HyperValue)) : list (list HyperValue) :=
  match lists with
  | [] => [[]]
  | values :: rest =>
      concat (map (fun v => map (cons v) (cartesian rest)) values)
  end.

(** The candidate lists in the order of the sorted names, and every
    combination as the dictionary the loops build for it. *)
Definition candidate_lists : list (list HyperValue) :=
  map (fun k => default [] (param_grid !! k)) param_keys.

Definition combinations : list (list (string * HyperValue)) :=
  map (zip param_keys) (cartesian candidate_lists).

(** The product of the candidate counts. *)
Definition candidate_product : nat :=
  foldr Nat.mul 1 (map length candidate_lists).

(** Evaluating a list of combinations one after the other, each score
    stored under the combination's string. *)
Fixpoint evaluate_all (combos : list (list (string * HyperValue)))
    (sc : list (string * Score F)) : M CVState (list (string * Score F)) :=
  match combos with
  | [] => ret sc
  | kwargs :: rest =>
      score ← evaluate kwargs;
      evaluate_all rest (dict_set (py_str_dict py_repr kwargs) score sc)
  end.

(** The line the "custom" branch prints for a key, if it prints one, and the
    lines it prints for a scores dictionary. *)
Definition custom_line (sc : list (string * Score F)) (key : string)
    : option (list (PyArg F)) :=
  s ← dict_get key sc;
  if passes_thresholds s
  then Some (scores_line [AStr newline; AStr key] " recall" s)
  else None.

Definition custom_lines (sc : list (string * Score F)) : list (list (PyArg F)) :=
  omap (custom_line sc) (py_sorted (dict_keys sc)).

Definition gs_printed (outs : list (list (PyArg F))) (st : GSState) : GSState :=
  {| gs_cv := cv_printed outs (gs_cv st); current_params := current_params st;
     scores := scores st |}.

(** The string forms of a name's candidates are distinct; none has a comma. *)
Definition distinct_forms (l : list HyperValue) : bool :=
  bool_decide (NoDup (map py_repr l)).

Definition comma_free_forms (l : list HyperValue) : bool :=
  forallb (fun v => negb (has_comma (py_repr v))) l.

(** The combinations that extend the values [chosen] for the first [level]
    names, and the shape of [current_params] while those are chosen: the
    sorted names zipped with the chosen values and values left by earlier
    iterations of the inner loops. *)
Definition combos_from (level : nat) (chosen : list HyperValue)
    : list (list (string * HyperValue)) :=
  map (fun rest => zip param_keys (chosen ++ rest))
      (cartesian (drop level candidate_lists)).

Definition current_ok (chosen : list HyperValue)
    (cp : list (string * HyperValue)) : Prop :=
  ∃ tail, cp = zip param_keys (chosen ++ tail) ∧ length (chosen ++ tail) ≤ len_.

(** The loops and the flat evaluation of a list of combinations end alike:
    same result, same interpreter state, same scores. *)
Definition agrees (P : list (string * HyperValue) → Prop)
    (out : Res unit * GSState) (flat : Res (list (string * Score F)) * CVState) : Prop :=
  match flat with
  | (Ok sc', cv') =>
      ∃ cp', out = (Ok tt, {| gs_cv := cv'; current_params := cp'; scores := sc' |}) ∧ P cp'
  | (Raise e, cv') => ∃ st', out = (Raise e, st') ∧ gs_cv st' = cv'
  end.

(** [customCV] returns for every instance of the model class. *)
Definition cv_returns : Prop :=
  ∀ clf_obj cv, ∃ score cv',
    customCV clf_obj X y scaler resampler outlier_removal pca false cv = (Ok score, cv').

(** The scores of a list of combinations as the fold evaluator returns them:
    one combination after the other is passed to the model class as keyword
    arguments and [customCV] is run on the instance, each run in the state
    the one before left. *)
Fixpoint fold_evaluator_scores (combos : list (list (string * HyperValue)))
    (cv : CVState) : list (list (string * HyperValue) * Score F) :=
  match combos with
  | [] => []
  | kwargs :: rest =>
      let '(clf_obj, w) := clf_new clf kwargs (world cv) in
      match customCV clf_obj X y scaler resampler outlier_removal pca false
              {| world := w; cv_stdout := cv_stdout cv; fold_obs := fold_obs cv;
                 clf_calls := clf_calls cv ++ [kwargs] |} with
      | (Ok score, cv') => (kwargs, score) :: fold_evaluator_scores rest cv'
      | (Raise _, _) => []
      end
  end.

(** No mean recall and no mean f1 that [customCV] returns is a NaN: each
    compares equal to itself. *)
Definition scores_are_numbers : Prop :=
  ∀ clf_obj cv score cv',
    customCV clf_obj X y scaler resampler outlier_removal pca false cv = (Ok score, cv') →
    feq (recall_of score) (recall_of score) = true ∧
    feq (f1_of score) (f1_of score) = true.

End Call.
End GridSearch.

(** ** An executable instance

    Floats as exact rationals: every operation is the exact one, which is what
    binary64 computes wherever the operands and the result are representable;
    the square root is exact on squares of rationals.  Where pandas and numpy
    answer NaN (mean of nothing, std of fewer than two values) the instance
    answers 0, which flags the same rows since nothing compares below or above
    either. *)

Module Exact.

Definition qlt (a b : Q) : bool :=
  match Qcompare a b with Lt => true | _ => false end.

Definition qsum (l : list Q) : Q := foldl (fun a x => Qred (Qplus a x)) (0 # 1)%Q l.

Definition qmean (l : list Q) : Q :=
  match l with
  | [] => (0 # 1)%Q
  | _ => Qred (Qdiv (qsum l) (inject_Z (Z.of_nat (length l))))
  end.

Definition qsqrt (q : Q) : Q :=
  let q := Qred q in (Z.sqrt (Qnum q) # Pos.sqrt (Qden q))%Q.

Definition qstd (l : list Q) : Q :=
  match l with
  | [] | [_] => (0 # 1)%Q
  | _ =>
      let m := qmean l in
      let sq := map (fun x => Qmult (Qminus m x) (Qminus m x)) l in
      qsqrt (Qdiv (qsum sq) (inject_Z (Z.of_nat (length l) - 1)))
  end.

(** round to four decimals, ties to even *)
Definition qround4 (x : Q) : Q :=
  let q := Qred (Qmult x (10000 # 1)%Q) in
  let d := Z.div (Qnum q) (Zpos (Qden q)) in
  let r := Z.modulo (Qnum q) (Zpos (Qden q)) in
  let n := match Z.compare (2 * r) (Zpos (Qden q)) with
           | Lt => d
           | Gt => (d + 1)%Z
           | Eq => if Z.even d then d else (d + 1)%Z
           end in
  Qred (n # 10000)%Q.

#[export] Instance float_ops : FloatOps Q := {|
  flt a b := qlt a b;
  fgt a b := qlt b a;
  feq a b := Qeq_bool a b;
  fadd a b := Qred (Qplus a b);
  fsub a b := Qred (Qminus a b);
  fmul a b := Qred (Qmult a b);
  f_of_Z z := inject_Z z;
  lit_0_5 := (1 # 2)%Q;
  (* the binary64 number the literal 0.2 denotes *)
  lit_0_2 := (3602879701896397 # 18014398509481984)%Q;
  pd_mean := qmean;
  pd_std := qstd;
  np_mean := qmean;
  round4 := qround4
|}.

(** Collaborators for running the code: five folds by position modulo five, a
    scaler that centres each column on the mean it was fitted on, a resampler
    that changes nothing, a reducer that keeps the first column, and a
    classifier that answers 1 when the first feature exceeds a threshold
    [threshold kwargs] taken from its keyword arguments. *)

Definition array_of_frame (X : DataFrame Q) : ndarray Q :=
  {| nd_rows := length (df_index X); nd_columns := map snd (df_columns X) |}.

Definition fold_positions (n k : nat) : list nat * list nat :=
  (filter (fun i => i mod 5 ≠ k) (seq 0 n), filter (fun i => i mod 5 = k) (seq 0 n)).

Definition centre (means : list Q) (X : DataFrame Q) : ndarray Q :=
  {| nd_rows := length (df_index X);
     nd_columns := zip_with (fun m c => map (fun v => Qred (Qminus v m)) (snd c))
                            means (df_columns X) |}.

Definition first_column (f : Features Q) : list Q :=
  match f with
  | FFrame d => default [] (snd <$> head (df_columns d))
  | FArray a => default [] (head (nd_columns a))
  end.

Definition count_pairs (t p : Z) (y_true y_pred : list Z) : Z :=
  Z.of_nat (length (filter (fun tp => tp.1 = t ∧ tp.2 = p) (zip y_true y_pred))).

Definition ratio (a b : Z) : Q :=
  if bool_decide (b = 0%Z) then (0 # 1)%Q else Qred (Qdiv (inject_Z a) (inject_Z b)).

Definition recall (y_test : Series) (y_pred : list Z) : Q :=
  let tp := count_pairs 1 1 (s_values y_test) y_pred in
  let fn := count_pairs 1 0 (s_values y_test) y_pred in
  ratio tp (tp + fn).

Definition precision (y_test : Series) (y_pred : list Z) : Q :=
  let tp := count_pairs 1 1 (s_values y_test) y_pred in
  let fp := count_pairs 0 1 (s_values y_test) y_pred in
  ratio tp (tp + fp).

Definition f1 (y_test : Series) (y_pred : list Z) : Q :=
  let p := precision y_test y_pred in
  let r := recall y_test y_pred in
  if Qeq_bool (Qplus p r) (0 # 1)%Q then (0 # 1)%Q
  else Qred (Qdiv (Qmult (2 # 1)%Q (Qmult p r)) (Qplus p r)).

Definition collaborators (V : Type) (repr : V → string)
    (threshold : list (string * V) → Q) : Collaborators Q := {|
  World := list Q;
  HyperValue := V;
  py_repr := repr;
  ClfClass := unit;
  Clf := Q;
  ScalerObj := unit;
  ResamplerObj := unit;
  PcaObj := unit;
  ScalerParams := list Q;
  skf_split X y := map (fold_positions (length (df_index X))) (seq 0 5);
  scaler_fit_transform _ X w :=
    let means := map (fun c => qmean (snd c)) (df_columns X) in
    (centre means X, means);
  scaler_transform _ X w := (centre w X, w);
  scaler_params _ w := w;
  resampler_fit_resample _ X y w := ((array_of_frame X, s_values y), w);
  pca_fit_transform _ X w :=
    ({| nd_rows := length (df_index X);
        nd_columns := take 1 (map snd (df_columns X)) |}, w);
  pca_transform _ X w :=
    ({| nd_rows := length (df_index X);
        nd_columns := take 1 (map snd (df_columns X)) |}, w);
  clf_new _ kwargs w := (threshold kwargs, w);
  clf_fit c _ _ w := (c, w);
  clf_predict c feats w :=
    (map (fun v => if qlt c v then 1%Z else 0%Z) (first_column feats), w);
  report_recall := recall;
  report_precision := precision;
  report_f1 := f1
|}.

(** Integer hyperparameters; the threshold is the value of ["t"], if given. *)
Definition int_threshold (kwargs : list (string * Z)) : Q :=
  match dict_get "t" kwargs with
  | Some z => inject_Z z
  | None => (0 # 1)%Q
  end.

Definition int_collaborators : Collaborators Q :=
  collaborators Z pretty int_threshold.

(** Objects whose repr() is a given text; the classifier ignores them. *)
Definition text_collaborators : Collaborators Q :=
  collaborators string (fun s => s) (fun _ => (0 # 1)%Q).

(** Objects whose repr() is a given text, with a classifier that looks at
    ["a"]: threshold -1 when it is the object written [1], and a threshold no
    feature reaches otherwise. *)
Definition picky_threshold (kwargs : list (string * string)) : Q :=
  if bool_decide (dict_get "a" kwargs = Some "1") then inject_Z (-1) else inject_Z 100.

Definition picky_collaborators : Collaborators Q :=
  collaborators string (fun s => s) picky_threshold.

Definition start (C : Collaborators Q) (w : World) : CVState :=
  {| world := w; cv_stdout := []; fold_obs := []; clf_calls := [] |}.

(** Ten rows, one feature, labels 1 for the larger half. *)
Definition X10 : DataFrame Q :=
  {| df_index := map Z.of_nat (seq 0 10);
     df_columns := [("f", map (fun n => inject_Z (Z.of_nat n)) (seq 0 10))] |}.

Definition y10 : Series :=
  {| s_index := map Z.of_nat (seq 0 10); s_name := "Class";
     s_values := [0; 0; 0; 0; 0; 1; 1; 1; 1; 1]%Z |}.

(** The same rows with other values in rows 0 and 5, the test rows of the
    first fold. *)
Definition X10' : DataFrame Q :=
  {| df_index := map Z.of_nat (seq 0 10);
     df_columns := [("f", map inject_Z [100; 1; 2; 3; 4; -7; 6; 7; 8; 9]%Z)] |}.

(** Twenty-five rows and two columns: row 0 is far above the rest in
    ["amount"] (mean 1, std 5), row 3 far below the rest in ["v1"] (mean -1,
    std 5). *)
Definition amount25 : list Q := inject_Z 25 :: repeat (0 # 1)%Q 24.
Definition v25 : list Q :=
  repeat (0 # 1)%Q 3 ++ inject_Z (-25) :: repeat (0 # 1)%Q 21.

Definition X25 : DataFrame Q :=
  {| df_index := map Z.of_nat (seq 0 25);
     df_columns := [("amount", amount25); ("v1", v25)] |}.

Definition y25 : Series :=
  {| s_index := map Z.of_nat (seq 0 25); s_name := "Class";
     s_values := 1%Z :: repeat 0%Z 24 |}.

(** The same table with the label 0 on rows 0 and 1, as a concatenation of
    two frames leaves it. *)
Definition X25dup : DataFrame Q :=
  {| df_index := 0%Z :: 0%Z :: map Z.of_nat (seq 2 23);
     df_columns := [("amount", amount25); ("v1", v25)] |}.

Definition y25dup : Series :=
  {| s_index := 0%Z :: 0%Z :: map Z.of_nat (seq 2 23); s_name := "Class";
     s_values := 1%Z :: repeat 0%Z 24 |}.

Definition heap25 : PyState Q :=
  {| heap := [ODataFrame X25; OSeries y25]; stdout := [] |}.

(** Parameter grids. *)
Definition grid_t : gmap string (list Z) := {[ "t" := [-3; 0; 3]%Z ]}.

Definition grid_tu : gmap string (list Z) :=
  {[ "t" := [-3; 0; 3]%Z; "u" := [1; 2]%Z ]}.

(** Two names whose candidates have distinct string forms, some with commas
    in them. *)
Definition grid_text : gmap string (list string) :=
  {[ "a" := ["1"; "1, 'b': 2"]; "b" := ["2, 'b': 3"; "3"] ]}.

(** What is left of [X25dup] and [y25dup]: rows 0, 1 and 3 are gone. *)
Definition kept25 : list Z := 2%Z :: map Z.of_nat (seq 4 21).

Definition X25dup_kept : DataFrame Q :=
  {| df_index := kept25;
     df_columns := [("amount", repeat (0 # 1)%Q 22); ("v1", repeat (0 # 1)%Q 22)] |}.

Definition y25dup_kept : Series :=
  {| s_index := kept25; s_name := "Class"; s_values := repeat 0%Z 22 |}.

(** Reading a result and the printed lines: the keys of a returned scores
    dictionary, and the key each printed line is for. *)
Definition returned_keys {C : Collaborators Q} (r : Res GSResult) : list string :=
  match r with
  | Ok (RScores sc) => dict_keys sc
  | _ => []
  end.

Definition printed_keys (out : list (list (PyArg Q))) : list string :=
  omap (fun line => match line with
                    | _ :: AStr key :: _ => Some key
                    | _ => None
                    end) out.

Definition is_ok {A} (r : Res A) : bool :=
  match r with Ok _ => true | Raise _ => false end.

(** Label series for [X25] that do not have its index: one without the label
    0, one with a 26th label. *)
Definition y24 : Series :=
  {| s_index := map Z.of_nat (seq 1 24); s_name := "Class";
     s_values := repeat 0%Z 24 |}.

Definition y26 : Series :=
  {| s_index := map Z.of_nat (seq 0 26); s_name := "Class";
     s_values := 1%Z :: repeat 0%Z 25 |}.

(** Three rows of the same value: no outlier. *)
Definition X3 : DataFrame Q :=
  {| df_index := [0; 1; 2]%Z;
     df_columns := [("amount", [inject_Z 1; inject_Z 1; inject_Z 1])] |}.

Definition y3 : Series :=
  {| s_index := [0; 1; 2]%Z; s_name := "Class"; s_values := [0; 1; 0]%Z |}.

Definition heap24 : PyState Q :=
  {| heap := [ODataFrame X25; OSeries y24]; stdout := [] |}.

Definition heap26 : PyState Q :=
  {| heap := [ODataFrame X25; OSeries y26]; stdout := [] |}.

Definition heap3 : PyState Q :=
  {| heap := [ODataFrame X3; OSeries y3]; stdout := [] |}.

(** Six names, and a name without candidates. *)
Definition grid6 : gmap string (list Z) :=
  {[ "a" := [1]%Z; "b" := [1]%Z; "c" := [1]%Z;
     "d" := [1]%Z; "e" := [1]%Z; "f" := [1]%Z ]}.

Definition grid_none : gmap string (list Z) :=
  {[ "t" := [-3; 0; 3]%Z; "u" := [] ]}.

End Exact.

(** * Properties *)

(** ** Running the monad *)

Lemma bind_ok {St A B} (m : M St A) (k : A → M St B) st a st' :
  m st = (Ok a, st') → (m ≫= k) st = k a st'.
Proof. unfold mbind, M_bind, bind. by intros ->. Qed.

Lemma bind_raise {St A B} (m : M St A) (k : A → M St B) st e st' :
  m st = (Raise e, st') → (m ≫= k) st = (Raise e, st').
Proof. unfold mbind, M_bind, bind. by intros ->. Qed.

Lemma bind_inv {St A B} (m : M St A) (k : A → M St B) st b st'' :
  (m ≫= k) st = (Ok b, st'') →
  ∃ a st', m st = (Ok a, st') ∧ k a st' = (Ok b, st'').
Proof.
  unfold mbind, M_bind, bind. destruct (m st) as [[a|e] st']; [eauto | done].
Qed.

(** ** Lists and strings *)

Lemma mask_select_elem {A} (mask : list bool) (xs : list A) (x : A) :
  x ∈ mask_select mask xs ↔ ∃ i, mask !! i = Some true ∧ xs !! i = Some x.
Proof.
  revert xs. induction mask as [|b mask IH]; intros [|x0 xs]; simpl.
  - split; [by intros ?%elem_of_nil | by intros (i & ? & ?)].
  - split; [by intros ?%elem_of_nil | by intros (i & ? & ?)].
  - split; [by intros ?%elem_of_nil | by intros (i & ? & ?)].
  - destruct b.
    + rewrite elem_of_cons, IH. split.
      * intros [-> | (i & ? & ?)]; [by exists 0 | by exists (S i)].
      * intros ([|i] & Hm & Hx); simpl in *; [left; congruence | right; eauto].
    + rewrite IH. split.
      * intros (i & ? & ?). by exists (S i).
      * intros ([|i] & Hm & Hx); simpl in *; [congruence | eauto].
Qed.

Lemma foldl_snoc {A} (acc l : list A) :
  foldl (fun acc' item => acc' ++ [item]) acc l = acc ++ l.
Proof.
  revert acc. induction l as [|x l IH]; intros acc; simpl.
  - by rewrite app_nil_r.
  - rewrite IH. by rewrite <- app_assoc.
Qed.

Lemma elem_of_concat {A} (x : A) (ls : list (list A)) :
  x ∈ concat ls ↔ ∃ l, l ∈ ls ∧ x ∈ l.
Proof.
  induction ls as [|l ls IH]; simpl.
  - split; [by intros ?%elem_of_nil | by intros (l & ?%elem_of_nil & _)].
  - rewrite elem_of_app, IH. split.
    + intros [? | (l' & ? & ?)]; [exists l | exists l']; split; auto; by constructor.
    + intros (l' & [-> | ?]%elem_of_cons & ?); eauto.
Qed.

Lemma omap_cons {A B} (f : A → option B) x l :
  omap f (x :: l) = match f x with Some y => y :: omap f l | None => omap f l end.
Proof. reflexivity. Qed.

Lemma string_app_nil (b : string) : "" +:+ b = b.
Proof. reflexivity. Qed.

Lemma string_app_cons (x : Ascii.ascii) (a b : string) :
  String x a +:+ b = String x (a +:+ b).
Proof. reflexivity. Qed.

Lemma string_app_assoc (a b c : string) : (a +:+ b) +:+ c = a +:+ b +:+ c.
Proof.
  induction a as [|x a IH]; [done|].
  by rewrite !string_app_cons, IH.
Qed.

Lemma string_app_length (a b : string) :
  String.length (a +:+ b) = String.length a + String.length b.
Proof.
  induction a as [|x a IH]; [done|].
  rewrite string_app_cons. simpl. by rewrite IH.
Qed.

Lemma string_app_inv_tail (a b t : string) : a +:+ t = b +:+ t → a = b.
Proof.
  revert b. induction a as [|x a IH]; intros [|y b] Heq.
  - done.
  - apply (f_equal String.length) in Heq.
    rewrite string_app_nil, string_app_cons in Heq. simpl in Heq.
    rewrite string_app_length in Heq. lia.
  - apply (f_equal String.length) in Heq.
    rewrite string_app_nil, string_app_cons in Heq. simpl in Heq.
    rewrite string_app_length in Heq. lia.
  - rewrite !string_app_cons in Heq. injection Heq as -> Heq. f_equal. by apply IH.
Qed.

(** Two comma-free strings followed by a comma: the first comma ends both. *)
Lemma split_at_comma (a b x z : string) :
  has_comma a = false → has_comma b = false →
  a +:+ String comma x = b +:+ String comma z → a = b ∧ x = z.
Proof.
  revert b. induction a as [|c a IH]; intros [|d b] Ha Hb Heq;
    rewrite ?string_app_nil, ?string_app_cons in Heq; simpl in Ha, Hb.
  - by injection Heq.
  - injection Heq as <- _. by rewrite bool_decide_eq_true_2 in Hb.
  - injection Heq as -> _. by rewrite bool_decide_eq_true_2 in Ha.
  - injection Heq as -> Heq.
    apply orb_false_iff in Ha as [_ Ha]. apply orb_false_iff in Hb as [_ Hb].
    destruct (IH b Ha Hb Heq) as [-> ->]. done.
Qed.

(** ** removeOutliers *)

Section OutlierFacts.
Context {F : Type} `{FloatOps F}.

Lemma extend_indices_concat (indices : list Z) (col_indices : list (list Z)) :
  extend_indices indices col_indices = indices ++ concat col_indices.
Proof.
  unfold extend_indices. revert indices.
  induction col_indices as [|l ls IH]; intros indices; simpl.
  - by rewrite app_nil_r.
  - rewrite foldl_snoc, IH. by rewrite <- app_assoc.
Qed.

(** The loop in closed form: after column [k] the index lists of columns
    [1..k] are all appended again. *)
Lemma columns_loop_closed (X : DataFrame F) cols col_indices indices :
  foldl (column_step X) (col_indices, indices) cols =
  (col_indices ++ map (fun c => outlier_index X (snd c)) cols,
   indices ++
   concat (map (fun k => concat (col_indices ++
                                 take k (map (fun c => outlier_index X (snd c)) cols)))
               (seq 1 (length cols)))).
Proof.
  revert col_indices indices.
  induction cols as [|c cols IH]; intros ci ind; simpl.
  - by rewrite !app_nil_r.
  - rewrite IH, extend_indices_concat. f_equal.
    + by rewrite <- app_assoc.
    + rewrite <- app_assoc. f_equal. f_equal. f_equal.
      rewrite <- (seq_shift (length cols) 1), map_map.
      apply map_ext. intros k. simpl. by rewrite <- app_assoc.
Qed.

Lemma columns_loop_set (X : DataFrame F) cols col_indices indices :
  (∀ l, l ∈ col_indices → ∀ x, x ∈ l → x ∈ indices) →
  ∀ x, x ∈ snd (foldl (column_step X) (col_indices, indices) cols) ↔
       x ∈ indices ∨ ∃ c, c ∈ cols ∧ x ∈ outlier_index X (snd c).
Proof.
  revert col_indices indices.
  induction cols as [|c cols IH]; intros ci ind Hinv x; simpl.
  - split; [auto | intros [? | (c & ?%elem_of_nil & _)]; done].
  - rewrite IH.
    + rewrite extend_indices_concat, concat_app, !elem_of_app. simpl.
      rewrite app_nil_r. rewrite elem_of_concat.
      split.
      * intros [[? | [(l & ? & ?) | ?]] | (c' & ? & ?)]; eauto.
        -- right. exists c. split; [left | done].
        -- right. exists c'. split; [by right | done].
      * intros [? | (c' & [-> | ?]%elem_of_cons & ?)]; eauto 6.
    + intros l Hl x' Hx'. rewrite extend_indices_concat.
      rewrite elem_of_app. right. rewrite elem_of_concat. eauto.
Qed.

Lemma collect_indices_elem (X : DataFrame F) (x : Z) :
  x ∈ collect_indices X ↔ ∃ c, c ∈ df_columns X ∧ x ∈ outlier_index X (snd c).
Proof.
  unfold collect_indices. rewrite columns_loop_set.
  - split; [intros [?%elem_of_nil | ?]; done | auto].
  - by intros l ?%elem_of_nil.
Qed.

Lemma plain_union_elem (X : DataFrame F) (x : Z) :
  x ∈ plain_union X ↔ ∃ c, c ∈ df_columns X ∧ x ∈ outlier_index X (snd c).
Proof.
  unfold plain_union. rewrite elem_of_union_list. split.
  - intros (s & (c & -> & Hc)%list_elem_of_fmap & Hx).
    exists c. split; [done | by apply elem_of_list_to_set in Hx].
  - intros (c & Hc & Hx). exists (list_to_set (outlier_index X c.2)).
    split; [apply list_elem_of_fmap; eauto | by apply elem_of_list_to_set].
Qed.

Lemma collect_indices_set (X : DataFrame F) :
  list_to_set (collect_indices X) = plain_union X.
Proof.
  apply set_eq. intros x.
  by rewrite elem_of_list_to_set, collect_indices_elem, plain_union_elem.
Qed.


Lemma outlier_index_in_index (X : DataFrame F) vals x :
  x ∈ outlier_index X vals → x ∈ df_index X.
Proof.
  unfold outlier_index. rewrite mask_select_elem.
  intros (i & _ & Hi). by eapply list_elem_of_lookup_2.
Qed.

Lemma labels_found_spec (labels index : list Z) :
  labels_found labels index = true ↔ ∀ l, l ∈ labels → l ∈ index.
Proof.
  unfold labels_found. rewrite forallb_forall. split.
  - intros Hf l Hl. apply list_elem_of_In, Hf in Hl. by apply bool_decide_eq_true in Hl.
  - intros Hf l Hl. apply bool_decide_eq_true, Hf. by apply list_elem_of_In.
Qed.

Lemma unique_indices_elem (indices : list Z) x :
  x ∈ unique_indices indices ↔ x ∈ indices.
Proof. unfold unique_indices. by rewrite elem_of_elements, elem_of_list_to_set. Qed.

Lemma dropped_labels_in_index (X : DataFrame F) l :
  l ∈ unique_indices (collect_indices X) → l ∈ df_index X.
Proof.
  rewrite unique_indices_elem, collect_indices_elem.
  intros (c & _ & Hl). by eapply outlier_index_in_index.
Qed.

Lemma labels_found_collect (X : DataFrame F) :
  labels_found (unique_indices (collect_indices X)) (df_index X) = true.
Proof. apply labels_found_spec. intros l. apply dropped_labels_in_index. Qed.

Lemma s_drop_found labels (y : Series) :
  (∀ l, l ∈ labels → l ∈ s_index y) →
  s_drop labels y = Ok (s_select (keep_mask labels (s_index y)) y).
Proof. intros Hl. unfold s_drop. by rewrite (proj2 (labels_found_spec _ _) Hl). Qed.

(** The heap after an allocation. *)
Lemma heap_push_new (o : PyObj F) st : heap (push o st) !! length (heap st) = Some o.
Proof. simpl. by rewrite lookup_app_r, Nat.sub_diag. Qed.

Lemma heap_push_old (o o' : PyObj F) st r :
  heap st !! r = Some o' → heap (push o st) !! r = Some o'.
Proof. intros Hr. simpl. by apply lookup_app_l_Some. Qed.

Lemma heap_push_length (o : PyObj F) st : length (heap (push o st)) = S (length (heap st)).
Proof. simpl. rewrite length_app. simpl. lia. Qed.

(** The steps of the function on a heap whose content is known. *)
Lemma load_frame_run (st : PyState F) r d :
  heap st !! r = Some (ODataFrame d) → load_frame r st = (Ok d, st).
Proof. unfold load_frame. by intros ->. Qed.

Lemma load_series_run (st : PyState F) r s :
  heap st !! r = Some (OSeries s) → load_series r st = (Ok s, st).
Proof. unfold load_series. by intros ->. Qed.

Lemma frame_copy_run (st : PyState F) r d :
  heap st !! r = Some (ODataFrame d) →
  frame_copy r st = (Ok (length (heap st)), push (ODataFrame d) st).
Proof.
  intros Hr. unfold frame_copy.
  by rewrite (bind_ok _ _ _ _ _ (load_frame_run _ _ _ Hr)).
Qed.

Lemma series_copy_run (st : PyState F) r s :
  heap st !! r = Some (OSeries s) →
  series_copy r st = (Ok (length (heap st)), push (OSeries s) st).
Proof.
  intros Hr. unfold series_copy.
  by rewrite (bind_ok _ _ _ _ _ (load_series_run _ _ _ Hr)).
Qed.

Lemma frame_drop_run (st : PyState F) r d labels :
  heap st !! r = Some (ODataFrame d) →
  frame_drop r labels st =
    match df_drop labels d with
    | Ok d' => (Ok (length (heap st)), push (ODataFrame d') st)
    | Raise e => (Raise e, st)
    end.
Proof.
  intros Hr. unfold frame_drop.
  rewrite (bind_ok _ _ _ _ _ (load_frame_run _ _ _ Hr)).
  unfold mbind, M_bind, bind, lift_res. by destruct (df_drop labels d).
Qed.

Lemma series_drop_run (st : PyState F) r s labels :
  heap st !! r = Some (OSeries s) →
  series_drop r labels st =
    match s_drop labels s with
    | Ok s' => (Ok (length (heap st)), push (OSeries s') st)
    | Raise e => (Raise e, st)
    end.
Proof.
  intros Hr. unfold series_drop.
  rewrite (bind_ok _ _ _ _ _ (load_series_run _ _ _ Hr)).
  unfold mbind, M_bind, bind, lift_res. by destruct (s_drop labels s).
Qed.

Lemma diagnostic_run (st : PyState F) (b : bool) :
  (if b
   then print [AStr (str_repeat "!" 40)] ;;
        print [AStr "Error"] ;;
        print [AStr (str_repeat "!" 40)]
   else ret tt) st = (Ok tt, emit (if b then banner else []) st).
Proof.
  destruct b.
  - unfold mbind, M_bind, bind, print, modify, emit, banner. simpl stdout. simpl heap.
    by rewrite <- !app_assoc.
  - unfold ret, emit. rewrite app_nil_r. by destruct st.
Qed.

(** What a call does when its arguments are a DataFrame and a Series: four
    objects are allocated, or three when the label series lacks a label. *)
Lemma removeOutliers_run (st : PyState F) xr yr X y :
  heap st !! xr = Some (ODataFrame X) →
  heap st !! yr = Some (OSeries y) →
  removeOutliers xr yr st =
    let labels := unique_indices (collect_indices X) in
    let X' := df_select (keep_mask labels (df_index X)) X in
    let n := length (heap st) in
    let st3 := push (ODataFrame X') (push (OSeries y) (push (ODataFrame X) st)) in
    match s_drop labels y with
    | Ok y' =>
        (Ok (n + 2, n + 3),
         emit (if bool_decide (df_len X' ≠ s_len y') then banner else [])
              (push (OSeries y') st3))
    | Raise e => (Raise e, st3)
    end.
Proof.
  intros Hx Hy. unfold removeOutliers.
  rewrite (bind_ok _ _ _ _ _ (frame_copy_run _ _ _ Hx)).
  rewrite (bind_ok _ _ _ _ _ (series_copy_run _ _ _ (heap_push_old _ _ _ _ Hy))).
  set (st1 := push (ODataFrame X) st). set (st2 := push (OSeries y) st1).
  assert (H1 : heap st2 !! length (heap st) = Some (ODataFrame X)).
  { apply heap_push_old, heap_push_new. }
  assert (H2 : heap st2 !! length (heap st1) = Some (OSeries y)).
  { apply heap_push_new. }
  rewrite (bind_ok _ _ _ _ _ (load_frame_run _ _ _ H1)).
  cbv zeta.
  set (labels := unique_indices (collect_indices X)).
  rewrite (bind_ok _ _ _ (length (heap st2))
             (push (ODataFrame (df_select (keep_mask labels (df_index X)) X)) st2)).
  2:{ rewrite (frame_drop_run _ _ _ _ H1). unfold df_drop.
      unfold labels. by rewrite labels_found_collect. }
  set (X' := df_select (keep_mask labels (df_index X)) X).
  set (st3 := push (ODataFrame X') st2).
  assert (H3 : heap st3 !! length (heap st1) = Some (OSeries y)).
  { by apply heap_push_old. }
  destruct (s_drop labels y) as [y'|e] eqn:Hd.
  - rewrite (bind_ok _ _ _ (length (heap st3)) (push (OSeries y') st3)).
    2:{ rewrite (series_drop_run _ _ _ _ H3). by rewrite Hd. }
    set (st4 := push (OSeries y') st3).
    assert (H4 : heap st4 !! length (heap st2) = Some (ODataFrame X')).
    { apply heap_push_old, heap_push_new. }
    assert (H5 : heap st4 !! length (heap st3) = Some (OSeries y')).
    { apply heap_push_new. }
    rewrite (bind_ok _ _ _ _ _ (load_frame_run _ _ _ H4)).
    rewrite (bind_ok _ _ _ _ _ (load_series_run _ _ _ H5)).
    rewrite (bind_ok _ _ _ _ _ (diagnostic_run _ _)).
    unfold mret, M_ret, ret. f_equal. f_equal. f_equal.
    + unfold st2, st1. rewrite !heap_push_length. lia.
    + unfold st3, st2, st1. rewrite !heap_push_length. lia.
  - rewrite (bind_raise _ _ _ e st3); [done|].
    rewrite (series_drop_run _ _ _ _ H3). by rewrite Hd.
Qed.

(** The references a successful call returns. *)
Lemma returned_frame (st : PyState F) (a b c d : PyObj F) outs :
  heap (emit outs (push d (push c (push b (push a st))))) !! (length (heap st) + 2)
  = Some c.
Proof.
  simpl. rewrite <- !app_assoc. simpl. rewrite lookup_app_r by lia.
  by replace (length (heap st) + 2 - length (heap st)) with 2 by lia.
Qed.

Lemma returned_series (st : PyState F) (a b c d : PyObj F) outs :
  heap (emit outs (push d (push c (push b (push a st))))) !! (length (heap st) + 3)
  = Some d.
Proof.
  simpl. rewrite <- !app_assoc. simpl. rewrite lookup_app_r by lia.
  by replace (length (heap st) + 3 - length (heap st)) with 3 by lia.
Qed.

(** C6. When the features table and the label series carry the same row
    index, the call returns a table and a series that went through the same
    row mask: same labels, same length, and the length-mismatch diagnostic
    prints nothing. *)
Theorem removeOutliers_aligned (st : PyState F) xr yr X y :
  heap st !! xr = Some (ODataFrame X) →
  heap st !! yr = Some (OSeries y) →
  s_index y = df_index X →
  ∃ rx ry st' X' y' mask,
    removeOutliers xr yr st = (Ok (rx, ry), st') ∧
    heap st' !! rx = Some (ODataFrame X') ∧
    heap st' !! ry = Some (OSeries y') ∧
    X' = df_select mask X ∧ y' = s_select mask y ∧
    df_index X' = s_index y' ∧
    df_len X' = s_len y' ∧
    stdout st' = stdout st.
Proof.
  intros Hx Hy Hidx.
  pose proof (removeOutliers_run st xr yr X y Hx Hy) as Hrun. cbv zeta in Hrun.
  set (labels := unique_indices (collect_indices X)) in *.
  rewrite s_drop_found in Hrun.
  2:{ intros l Hl. rewrite Hidx. by apply dropped_labels_in_index. }
  rewrite Hidx in Hrun.
  set (mask := keep_mask labels (df_index X)) in *.
  assert (Hsame : df_index (df_select mask X) = s_index (s_select mask y)).
  { simpl. by rewrite Hidx. }
  assert (Hlen : df_len (df_select mask X) = s_len (s_select mask y)).
  { unfold df_len, s_len. by rewrite Hsame. }
  rewrite bool_decide_eq_false_2 in Hrun by (by intros Hne).
  eexists _, _, _, (df_select mask X), (s_select mask y), mask.
  split; [exact Hrun|].
  split; [apply returned_frame|]. split; [apply returned_series|].
  repeat split; try done.
  simpl. by rewrite app_nil_r.
Qed.

(** The heap a call leaves: the heap it found, then the objects it made. *)
Lemma removeOutliers_heap_grows (st : PyState F) xr yr :
  ∃ new,
    heap (snd (removeOutliers xr yr st)) = heap st ++ new ∧
    match fst (removeOutliers xr yr st) with
    | Ok (rx, ry) =>
        heap st !! rx = None ∧ heap st !! ry = None ∧
        is_Some (new !! (rx - length (heap st))) ∧
        is_Some (new !! (ry - length (heap st)))
    | Raise _ => True
    end.
Proof.
  destruct (heap st !! xr) as [[X|?]|] eqn:Hx.
  2,3: (exists []; unfold removeOutliers, frame_copy, load_frame;
        unfold mbind, M_bind, bind; rewrite Hx; simpl; by rewrite app_nil_r).
  destruct (heap (push (ODataFrame X) st) !! yr) as [[?|y]|] eqn:Hy.
  1,3: (exists [ODataFrame X]; unfold removeOutliers;
        rewrite (bind_ok _ _ _ _ _ (frame_copy_run _ _ _ Hx));
        unfold series_copy, load_series, mbind, M_bind, bind;
        by rewrite Hy).
  assert (Hy' : heap st !! yr = Some (OSeries y)).
  { simpl in Hy. apply lookup_app_Some in Hy as [Hy | [_ Hy]]; [done|].
    by destruct (yr - length (heap st)) as [|[|?]]. }
  rewrite (removeOutliers_run st xr yr X y Hx Hy'). cbv zeta.
  destruct (s_drop _ y) as [y'|e]; simpl.
  - eexists [_; _; _; _]. rewrite <- !app_assoc. simpl. split; [done|].
    rewrite !lookup_ge_None_2 by lia.
    replace (length (heap st) + 2 - length (heap st)) with 2 by lia.
    replace (length (heap st) + 3 - length (heap st)) with 3 by lia.
    simpl. eauto.
  - eexists [_; _; _]. rewrite <- !app_assoc. by simpl.
Qed.

(** C9. A call only allocates: the heap it leaves is the heap it found
    followed by new objects, so every object the caller can reach, the two
    arguments included, is as it was; the references returned are to objects
    among the new ones. *)
Theorem removeOutliers_only_allocates (st : PyState F) xr yr :
  ∃ new,
    heap (snd (removeOutliers xr yr st)) = heap st ++ new ∧
    (∀ r o, heap st !! r = Some o →
            heap (snd (removeOutliers xr yr st)) !! r = Some o) ∧
    match fst (removeOutliers xr yr st) with
    | Ok (rx, ry) =>
        heap st !! rx = None ∧ heap st !! ry = None ∧
        is_Some (new !! (rx - length (heap st))) ∧
        is_Some (new !! (ry - length (heap st)))
    | Raise _ => True
    end.
Proof.
  destruct (removeOutliers_heap_grows st xr yr) as (new & Hheap & Hres).
  exists new. split; [done|]. split; [|done].
  intros r o Hr. rewrite Hheap. by apply lookup_app_l_Some.
Qed.

(** Which rows go. *)
Lemma outlier_mask_lookup (vals : list F) i :
  outlier_mask vals !! i = is_outlier (pd_mean vals) (pd_std vals) <$> vals !! i.
Proof. unfold outlier_mask. by rewrite list_lookup_fmap. Qed.

Lemma row_outlier_true (X : DataFrame F) i :
  row_outlier X i = true ↔
  ∃ c, c ∈ df_columns X ∧ outlier_mask (snd c) !! i = Some true.
Proof.
  unfold row_outlier. rewrite existsb_exists. split.
  - intros (c & Hc%list_elem_of_In & Hm). exists c. split; [done|].
    destruct (outlier_mask c.2 !! i) as [[]|]; simpl in Hm; congruence.
  - intros (c & Hc & Hm). exists c. split; [by apply list_elem_of_In|].
    by rewrite Hm.
Qed.

Lemma label_flagged_true (X : DataFrame F) l :
  label_flagged X l = true ↔
  ∃ i, df_index X !! i = Some l ∧ row_outlier X i = true.
Proof.
  unfold label_flagged. rewrite existsb_exists. split.
  - intros (i & _ & (Hi%bool_decide_eq_true & Hr)%andb_true_iff). eauto.
  - intros (i & Hi & Hr). exists i. split.
    + apply in_seq. apply lookup_lt_Some in Hi. unfold df_len. lia.
    + apply andb_true_iff. split; [by apply bool_decide_eq_true | done].
Qed.

Lemma dropped_label_flagged (X : DataFrame F) l :
  l ∈ unique_indices (collect_indices X) ↔ label_flagged X l = true.
Proof.
  rewrite unique_indices_elem, collect_indices_elem, label_flagged_true.
  unfold outlier_index. split.
  - intros (c & Hc & (i & Hm & Hi)%mask_select_elem).
    exists i. split; [done|]. apply row_outlier_true. eauto.
  - intros (i & Hi & (c & Hc & Hm)%row_outlier_true).
    exists c. split; [done|]. apply mask_select_elem. eauto.
Qed.

Lemma keep_mask_flagged (X : DataFrame F) :
  keep_mask (unique_indices (collect_indices X)) (df_index X) =
  map (fun l => negb (label_flagged X l)) (df_index X).
Proof.
  unfold keep_mask. apply map_ext. intros l. f_equal.
  destruct (label_flagged X l) eqn:Hf.
  - by apply bool_decide_eq_true, dropped_label_flagged.
  - apply bool_decide_eq_false. rewrite dropped_label_flagged. congruence.
Qed.

Lemma flagged_unique_label (X : DataFrame F) i l :
  NoDup (df_index X) → df_index X !! i = Some l →
  label_flagged X l = row_outlier X i.
Proof.
  intros Hnd Hi. destruct (row_outlier X i) eqn:Hr.
  - apply label_flagged_true. eauto.
  - destruct (label_flagged X l) eqn:Hf; [|done].
    apply label_flagged_true in Hf as (j & Hj & Hrj).
    assert (i = j) as -> by (eapply NoDup_lookup; eauto). congruence.
Qed.

Lemma keep_mask_unique_labels (X : DataFrame F) :
  NoDup (df_index X) →
  map (fun l => negb (label_flagged X l)) (df_index X) = map negb (outlier_rows X).
Proof.
  intros Hnd. apply list_eq. intros i. unfold outlier_rows, df_len.
  rewrite !list_lookup_fmap.
  destruct (df_index X !! i) as [l|] eqn:Hi; simpl.
  - rewrite lookup_seq_lt by (by apply lookup_lt_Some in Hi). simpl.
    by rewrite (flagged_unique_label X i l).
  - rewrite lookup_seq_ge; [done|]. by apply lookup_ge_None.
Qed.

Lemma kept_values_inside (X : DataFrame F) (c : string * list F) v :
  c ∈ df_columns X →
  v ∈ mask_select (keep_mask (unique_indices (collect_indices X)) (df_index X)) (snd c) →
  is_outlier (pd_mean (snd c)) (pd_std (snd c)) v = false.
Proof.
  intros Hc (i & Hk & Hv)%mask_select_elem.
  unfold keep_mask in Hk. rewrite list_lookup_fmap in Hk.
  destruct (df_index X !! i) as [l|] eqn:Hi; simpl in Hk; [|done].
  destruct (is_outlier _ _ v) eqn:Ho; [|done].
  assert (l ∈ unique_indices (collect_indices X)) as Hl.
  { rewrite unique_indices_elem, collect_indices_elem. exists c. split; [done|].
    apply mask_select_elem. exists i. split; [|done].
    rewrite outlier_mask_lookup, Hv. simpl. by rewrite Ho. }
  rewrite bool_decide_eq_true_2 in Hk by done. by simpl in Hk.
Qed.

(** C7, amended. Called on a table whose column names are distinct, with a
    label series that has every row label of the table, the function returns
    the table without the rows whose label is the label of a row that is an
    outlier in at least one column (a value below mean - 4*std or above
    mean + 4*std of the column over all rows); with unique row labels these
    are the outlier rows themselves; and in every column every value kept is
    not outside the column's bounds.  (A column name that occurs twice makes
    [new_X_train[col]] a table instead of a column, and the loop is another
    computation.) *)
Theorem removeOutliers_drops_flagged_labels (st : PyState F) xr yr X y :
  heap st !! xr = Some (ODataFrame X) →
  heap st !! yr = Some (OSeries y) →
  NoDup (df_names X) →
  (∀ l, l ∈ df_index X → l ∈ s_index y) →
  ∃ rx ry st' X',
    removeOutliers xr yr st = (Ok (rx, ry), st') ∧
    heap st' !! rx = Some (ODataFrame X') ∧
    X' = df_select (map (fun l => negb (label_flagged X l)) (df_index X)) X ∧
    (NoDup (df_index X) → X' = df_select (map negb (outlier_rows X)) X) ∧
    Forall2 (fun c c' =>
               fst c' = fst c ∧
               Forall (fun v => is_outlier (pd_mean (snd c)) (pd_std (snd c)) v = false)
                      (snd c'))
            (df_columns X) (df_columns X').
Proof.
  intros Hx Hy _ Hsub.
  pose proof (removeOutliers_run st xr yr X y Hx Hy) as Hrun. cbv zeta in Hrun.
  rewrite s_drop_found in Hrun.
  2:{ intros l Hl. by apply Hsub, dropped_labels_in_index. }
  eexists _, _, _, _. split; [exact Hrun|].
  split; [apply returned_frame|].
  split. { by rewrite keep_mask_flagged. }
  split. { intros Hnd. by rewrite keep_mask_flagged, keep_mask_unique_labels. }
  simpl. apply Forall2_fmap_r, Forall_Forall2_diag, Forall_forall.
  intros c Hc. split; [done|]. simpl. apply Forall_forall. intros v Hv.
  by eapply kept_values_inside.
Qed.

End OutlierFacts.

(** ** Dictionaries and the enumeration of the grid *)

Section Render.
Context {V : Type} (repr : V → string).

(** The string of a dictionary determines the string forms of its values,
    when none of them has a comma. *)
Lemma joined_items_inj (ks : list string) (vs1 vs2 : list V) :
  length vs1 = length ks → length vs2 = length ks →
  Forall (fun v => has_comma (repr v) = false) vs1 →
  Forall (fun v => has_comma (repr v) = false) vs2 →
  str_join ", " (map (dict_item repr) (zip ks vs1)) +:+ "}" =
  str_join ", " (map (dict_item repr) (zip ks vs2)) +:+ "}" →
  map repr vs1 = map repr vs2.
Proof.
  revert vs1 vs2. induction ks as [|k ks IH]; intros vs1 vs2 Hl1 Hl2 Hc1 Hc2 Heq.
  - by destruct vs1, vs2.
  - destruct vs1 as [|v1 vs1], vs2 as [|v2 vs2]; simpl in Hl1, Hl2; try lia.
    apply Forall_cons in Hc1 as [Hv1 Hc1]. apply Forall_cons in Hc2 as [Hv2 Hc2].
    destruct ks as [|k' ks].
    + destruct vs1, vs2; simpl in Hl1, Hl2; try lia. simpl in Heq.
      unfold dict_item in Heq. simpl in Heq. rewrite !string_app_assoc in Heq.
      apply (inj (String.app _)) in Heq.
      apply (inj (String.app _)) in Heq.
      apply string_app_inv_tail in Heq. simpl. by rewrite Heq.
    + destruct vs1 as [|v1' vs1], vs2 as [|v2' vs2]; simpl in Hl1, Hl2; try lia.
      change (str_join ", " (map (dict_item repr) (zip (k :: k' :: ks) (v1 :: v1' :: vs1))))
        with (dict_item repr (k, v1) +:+ ", " +:+
              str_join ", " (map (dict_item repr) (zip (k' :: ks) (v1' :: vs1)))) in Heq.
      change (str_join ", " (map (dict_item repr) (zip (k :: k' :: ks) (v2 :: v2' :: vs2))))
        with (dict_item repr (k, v2) +:+ ", " +:+
              str_join ", " (map (dict_item repr) (zip (k' :: ks) (v2' :: vs2)))) in Heq.
      unfold dict_item at 1 3 in Heq. simpl fst in Heq. simpl snd in Heq.
      rewrite !string_app_assoc in Heq.
      apply (inj (String.app _)) in Heq.
      apply (inj (String.app _)) in Heq.
      change (", " +:+ ?s) with (String comma (" " +:+ s)) in Heq.
      apply split_at_comma in Heq as [Hr Heq]; [|done..].
      apply (inj (String.app _)) in Heq.
      simpl. rewrite Hr. f_equal.
      apply (IH (v1' :: vs1) (v2' :: vs2)); simpl; try done; lia.
Qed.

Lemma py_str_dict_inj (ks : list string) (vs1 vs2 : list V) :
  length vs1 = length ks → length vs2 = length ks →
  Forall (fun v => has_comma (repr v) = false) vs1 →
  Forall (fun v => has_comma (repr v) = false) vs2 →
  py_str_dict repr (zip ks vs1) = py_str_dict repr (zip ks vs2) →
  map repr vs1 = map repr vs2.
Proof.
  intros Hl1 Hl2 Hc1 Hc2 Heq. unfold py_str_dict in Heq.
  apply (inj (String.app _)) in Heq.
  by apply (joined_items_inj ks).
Qed.
End Render.

Section DictFacts.
Context {V : Type}.

Lemma dict_set_zip (keys : list string) (vals : list V) level k v :
  NoDup keys → keys !! level = Some k → level ≤ length vals →
  dict_set k v (zip keys vals) =
  zip keys (take level vals ++ v :: drop (S level) vals).
Proof.
  intros Hnd. revert vals level.
  induction Hnd as [|k0 ks Hk0 Hnd IH]; intros vals level Hk Hlen;
    [by rewrite lookup_nil in Hk|].
  destruct level as [|level]; simpl in Hk.
  - injection Hk as ->. destruct vals as [|v0 vs]; simpl; [by destruct ks|].
    rewrite bool_decide_eq_true_2 by done. by rewrite drop_0.
  - destruct vals as [|v0 vs]; simpl in Hlen; [lia|]. simpl.
    rewrite bool_decide_eq_false_2.
    + f_equal. apply IH; [done | lia].
    + intros ->. apply Hk0. by eapply list_elem_of_lookup_2.
Qed.

Lemma dict_keys_set (k : string) (v : V) (d : list (string * V)) :
  dict_keys (dict_set k v d) =
  if bool_decide (k ∈ dict_keys d) then dict_keys d else dict_keys d ++ [k].
Proof.
  induction d as [|[k' v'] d IH]; simpl; [done|].
  destruct (bool_decide (k' = k)) eqn:Hk.
  - apply bool_decide_eq_true in Hk as ->. simpl.
    rewrite bool_decide_eq_true_2; [done | by left].
  - apply bool_decide_eq_false in Hk. simpl. rewrite IH.
    destruct (bool_decide (k ∈ dict_keys d)) eqn:Hin.
    + apply bool_decide_eq_true in Hin.
      rewrite bool_decide_eq_true_2; [done | by right].
    + apply bool_decide_eq_false in Hin.
      rewrite bool_decide_eq_false_2; [done|].
      intros [?|?]%elem_of_cons; congruence.
Qed.

Lemma dict_get_set_eq (k : string) (v : V) d : dict_get k (dict_set k v d) = Some v.
Proof.
  induction d as [|[k' v'] d IH]; simpl.
  - by rewrite bool_decide_eq_true_2.
  - destruct (bool_decide (k' = k)) eqn:Hk; simpl.
    + by rewrite bool_decide_eq_true_2.
    + by rewrite Hk.
Qed.

Lemma dict_get_set_ne (k k0 : string) (v : V) d :
  k ≠ k0 → dict_get k0 (dict_set k v d) = dict_get k0 d.
Proof.
  intros Hne. induction d as [|[k' v'] d IH]; simpl.
  - by rewrite bool_decide_eq_false_2.
  - destruct (bool_decide (k' = k)) eqn:Hk; simpl.
    + apply bool_decide_eq_true in Hk as ->.
      by rewrite !bool_decide_eq_false_2.
    + by rewrite IH.
Qed.

Lemma dict_get_is_Some (k : string) (d : list (string * V)) :
  is_Some (dict_get k d) ↔ k ∈ dict_keys d.
Proof.
  induction d as [|[k' v'] d IH]; simpl.
  - split; [by intros [? ?] | by intros ?%elem_of_nil].
  - destruct (bool_decide (k' = k)) eqn:Hk.
    + apply bool_decide_eq_true in Hk as ->. split; [by left | eauto].
    + apply bool_decide_eq_false in Hk. rewrite IH. split; [by right|].
      intros [?|?]%elem_of_cons; congruence.
Qed.
End DictFacts.

Section Grid.
Context {F : Type} `{FloatOps F} `{Collaborators F}.
Variables (clf : ClfClass) (param_grid : gmap string (list HyperValue))
          (X : DataFrame F) (y : Series)
          (scaler : ScalerObj) (resampler : ResamplerObj)
          (outlier_removal : bool) (pca : option PcaObj).

Local Abbreviation keys := (param_keys param_grid).
Local Abbreviation n := (len_ param_grid).
Local Abbreviation nest_ := (nest clf param_grid X y scaler resampler outlier_removal pca).
Local Abbreviation evaluate_ := (evaluate clf X y scaler resampler outlier_removal pca).
Local Abbreviation evaluate_current_ :=
  (evaluate_current clf X y scaler resampler outlier_removal pca).
Local Abbreviation evaluate_all_ := (evaluate_all clf X y scaler resampler outlier_removal pca).
Local Abbreviation lists := (candidate_lists param_grid).

Lemma enumerate_grid_nest :
  enumerate_grid clf param_grid X y scaler resampler outlier_removal pca = nest_ 5 0.
Proof. reflexivity. Qed.

Lemma param_keys_NoDup : NoDup keys.
Proof.
  unfold param_keys, py_sorted.
  rewrite merge_sort_Permutation. apply NoDup_fst_map_to_list.
Qed.

Lemma param_keys_elem k : k ∈ keys ↔ is_Some (param_grid !! k).
Proof.
  unfold param_keys, py_sorted. rewrite merge_sort_Permutation.
  rewrite list_elem_of_fmap. split.
  - intros ([k' v] & -> & Hkv%elem_of_map_to_list). eauto.
  - intros [v Hv]. exists (k, v). split; [done | by apply elem_of_map_to_list].
Qed.

Lemma len_size : n = size param_grid.
Proof.
  unfold len_, param_keys, py_sorted.
  rewrite merge_sort_Permutation, length_fmap. by rewrite length_map_to_list.
Qed.

Lemma candidate_lists_length : length lists = n.
Proof. unfold candidate_lists. by rewrite length_map. Qed.

Lemma agrees_weaken (P Q : list (string * HyperValue) → Prop) out flat :
  (∀ cp, P cp → Q cp) → agrees P out flat → agrees Q out flat.
Proof.
  intros HPQ. unfold agrees. destruct flat as [[sc'|e] cv']; [|done].
  intros (cp' & ? & ?). eauto.
Qed.

Lemma evaluate_all_app l1 l2 sc cv :
  evaluate_all_ (l1 ++ l2) sc cv =
  match evaluate_all_ l1 sc cv with
  | (Ok sc1, cv1) => evaluate_all_ l2 sc1 cv1
  | (Raise e, cv1) => (Raise e, cv1)
  end.
Proof.
  revert sc cv. induction l1 as [|kw l1 IH]; intros sc cv; simpl; [done|].
  unfold mbind, M_bind, bind.
  destruct (evaluate_ kw cv) as [[s|e] cv1]; [apply IH | done].
Qed.

Lemma evaluate_current_run (st : GSState) :
  evaluate_current_ st =
  match evaluate_ (current_params st) (gs_cv st) with
  | (Ok s, cv') =>
      (Ok tt, {| gs_cv := cv'; current_params := current_params st;
                 scores := dict_set (py_str_dict py_repr (current_params st)) s
                                    (scores st) |})
  | (Raise e, cv') =>
      (Raise e, {| gs_cv := cv'; current_params := current_params st;
                   scores := scores st |})
  end.
Proof.
  unfold evaluate_current, mbind, M_bind, bind, get, with_cv, set_score, modify.
  by destruct (evaluate_ (current_params st) (gs_cv st)) as [[s|e] cv'].
Qed.

Lemma evaluate_current_agrees (st : GSState) :
  agrees (fun cp => cp = current_params st) (evaluate_current_ st)
         (evaluate_all_ [current_params st] (scores st) (gs_cv st)).
Proof.
  rewrite evaluate_current_run. simpl. unfold mbind, M_bind, bind, agrees.
  destruct (evaluate_ (current_params st) (gs_cv st)) as [[s|e] cv']; simpl; eauto.
Qed.

Lemma for_agrees {A} (values : list A) (body : A → M GSState unit)
    (L : A → list (list (string * HyperValue)))
    (I : list (string * HyperValue) → Prop) :
  (∀ v st, v ∈ values → I (current_params st) →
     agrees I (body v st) (evaluate_all_ (L v) (scores st) (gs_cv st))) →
  ∀ st, I (current_params st) →
    agrees I (for_ values body st)
           (evaluate_all_ (concat (map L values)) (scores st) (gs_cv st)).
Proof.
  induction values as [|v vs IH]; intros Hbody st HI; simpl.
  - exists (current_params st). split; [by destruct st | done].
  - rewrite evaluate_all_app.
    pose proof (Hbody v st ltac:(by left) HI) as Hv. unfold agrees in Hv.
    destruct (evaluate_all_ (L v) (scores st) (gs_cv st)) as [[sc1|e] cv1].
    + destruct Hv as (cp1 & Hrun & HI1).
      rewrite (bind_ok _ _ _ _ _ Hrun).
      apply (IH (fun v' st' Hin => Hbody v' st' ltac:(by right))
                {| gs_cv := cv1; current_params := cp1; scores := sc1 |} HI1).
    + destruct Hv as (st1 & Hrun & Hcv).
      rewrite (bind_raise _ _ _ _ _ Hrun). by exists st1.
Qed.

Lemma candidates_at level k :
  keys !! level = Some k →
  ∃ values, param_grid !! k = Some values ∧ lists !! level = Some values.
Proof.
  intros Hk.
  destruct (proj1 (param_keys_elem k) ltac:(by eapply list_elem_of_lookup_2))
    as [values Hv].
  exists values. split; [done|].
  unfold candidate_lists. rewrite list_lookup_fmap, Hk. simpl. by rewrite Hv.
Qed.

Lemma combos_from_step level chosen values :
  lists !! level = Some values →
  combos_from param_grid level chosen =
  concat (map (fun v => combos_from param_grid (S level) (chosen ++ [v])) values).
Proof.
  intros Hl. unfold combos_from.
  rewrite (drop_S _ _ _ Hl). simpl. clear Hl.
  induction values as [|v vs IH]; simpl; [done|].
  rewrite map_app, IH. f_equal.
  rewrite map_map. apply map_ext. intros rest. by rewrite <- app_assoc.
Qed.

Lemma combos_from_end chosen : combos_from param_grid n chosen = [zip keys chosen].
Proof.
  unfold combos_from. rewrite drop_ge by (by rewrite candidate_lists_length).
  simpl. by rewrite app_nil_r.
Qed.

Lemma set_current_ok level k v chosen (st : GSState) :
  keys !! level = Some k → length chosen = level →
  current_ok param_grid chosen (current_params st) →
  ∃ st1, set_current k v st = (Ok tt, st1) ∧
         gs_cv st1 = gs_cv st ∧ scores st1 = scores st ∧
         current_ok param_grid (chosen ++ [v]) (current_params st1) ∧
         (n = S level → current_params st1 = zip keys (chosen ++ [v])).
Proof.
  intros Hk Hlen (tail & Hcp & Hn).
  eexists. split; [reflexivity|]. simpl. split; [done|]. split; [done|].
  rewrite Hcp.
  rewrite (dict_set_zip keys _ level k v param_keys_NoDup Hk)
    by (rewrite length_app; lia).
  rewrite take_app_length' by done.
  rewrite drop_app_ge by lia.
  replace (S level - length chosen) with 1 by lia.
  assert (Hlevel : level < n) by (by apply lookup_lt_Some in Hk).
  replace (chosen ++ v :: drop 1 tail) with ((chosen ++ [v]) ++ drop 1 tail)
    by (by rewrite <- app_assoc).
  assert (Hl : length ((chosen ++ [v]) ++ drop 1 tail) ≤ n).
  { rewrite !length_app in *. rewrite length_drop. simpl. lia. }
  split.
  - by exists (drop 1 tail).
  - intros Hend. f_equal.
    destruct (drop 1 tail) as [|? ?] eqn:Hd; [by rewrite app_nil_r|].
    rewrite !length_app in Hl. simpl in Hl. lia.
Qed.

Lemma current_ok_shorter chosen v cp :
  current_ok param_grid (chosen ++ [v]) cp → current_ok param_grid chosen cp.
Proof.
  intros (tail & -> & Hn). exists (v :: tail).
  rewrite <- app_assoc in *. by simpl in *.
Qed.

Lemma nest_agrees loops level chosen (st : GSState) :
  loops + level = 5 → level < n → n ≤ 5 → length chosen = level →
  current_ok param_grid chosen (current_params st) →
  agrees (current_ok param_grid chosen) (nest_ loops level st)
         (evaluate_all_ (combos_from param_grid level chosen) (scores st) (gs_cv st)).
Proof.
  revert level chosen st.
  induction loops as [|loops IH]; intros level chosen st Hsum Hlt Hn Hlen Hcp; [lia|].
  destruct (lookup_lt_is_Some_2 keys level Hlt) as [k Hk].
  destruct (candidates_at level k Hk) as (values & Hgrid & Hlist).
  simpl. unfold key_at, candidates. rewrite Hk. simpl.
  rewrite (bind_ok (ret k) _ st k st eq_refl).
  rewrite Hgrid. simpl.
  rewrite (bind_ok (ret values) _ st values st eq_refl).
  rewrite (combos_from_step level chosen values Hlist).
  apply for_agrees; [|done].
  intros v st0 _ Hcp0.
  destruct (set_current_ok level k v chosen st0 Hk Hlen Hcp0)
    as (st1 & Hset & Hcv & Hsc & Hcp1 & Hleaf).
  rewrite (bind_ok _ _ _ _ _ Hset). rewrite <- Hcv, <- Hsc.
  destruct (bool_decide (n = S level)) eqn:Hend.
  - apply bool_decide_eq_true in Hend.
    rewrite <- Hend, combos_from_end, <- (Hleaf Hend).
    eapply agrees_weaken; [|apply evaluate_current_agrees].
    intros cp ->. by apply current_ok_shorter with v.
  - apply bool_decide_eq_false in Hend.
    eapply agrees_weaken; [apply current_ok_shorter|].
    apply IH; [lia | lia | done | rewrite length_app; simpl; lia | done].
Qed.

Lemma combos_from_start : combos_from param_grid 0 [] = combinations param_grid.
Proof. unfold combos_from, combinations. by rewrite drop_0. Qed.

Lemma grid_scores_flat cv :
  1 ≤ n → n ≤ 5 →
  grid_scores clf param_grid X y scaler resampler outlier_removal pca cv =
  evaluate_all_ (combinations param_grid) [] cv.
Proof.
  intros H1 H5. unfold grid_scores.
  change (enumerate_grid clf param_grid X y scaler resampler outlier_removal pca)
    with (nest_ 5 0).
  set (st0 := {| gs_cv := cv; current_params := []; scores := [] |}).
  assert (Hag : agrees (current_ok param_grid []) (nest_ 5 0 st0)
                  (evaluate_all_ (combinations param_grid) [] cv)).
  { rewrite <- combos_from_start.
    apply (nest_agrees 5 0 [] st0); try done; try lia.
    exists []. split; [by destruct keys | simpl; lia]. }
  unfold agrees in Hag.
  destruct (evaluate_all_ (combinations param_grid) [] cv) as [[sc|e] cv'].
  - by destruct Hag as (cp' & -> & _).
  - by destruct Hag as (st' & -> & <-).
Qed.

Lemma counts_bind {A B} (m : M CVState A) (k : A → M CVState B) c1 c2 :
  counts m c1 → (∀ a, counts (k a) c2) → counts (m ≫= k) (c1 + c2).
Proof.
  intros Hm Hk st. unfold mbind, M_bind, bind.
  specialize (Hm st). destruct (m st) as [[a|e] st1]; [|done].
  specialize (Hk a st1). destruct (k a st1) as [[b|e] st2].
  - destruct Hm as [Hm1 Hm2], Hk as [Hk1 Hk2]. split; [congruence | lia].
  - destruct Hm as [Hm1 _]. congruence.
Qed.

Lemma counts_ret {A} (a : A) : counts (ret a) 0.
Proof. intros st. simpl. split; [done | lia]. Qed.

Lemma counts_lift {A} (r : Res A) : counts (lift r) 0.
Proof. intros st. unfold lift. destruct r; [split; [done | lia] | done]. Qed.

Lemma counts_with_world {A} (f : World → A * World) : counts (with_world f) 0.
Proof.
  intros st. unfold with_world. destruct (f (world st)). simpl. split; [done | lia].
Qed.

Lemma counts_emit outs : counts (cv_emit outs) 0.
Proof. intros st. simpl. split; [done | lia]. Qed.

Lemma counts_print args : counts (cv_print args) 0.
Proof. intros st. simpl. split; [done | lia]. Qed.

Lemma counts_observe_scaler sc a : counts (observe_scaler sc a) 1.
Proof. intros st. simpl. split; [done | rewrite length_app; simpl; lia]. Qed.

Lemma counts_cv_fold clf_obj scores split :
  counts (cv_fold clf_obj X y scaler resampler outlier_removal pca scores split) 1.
Proof.
  unfold cv_fold. destruct split as [train_index test_index].
  apply (counts_bind _ _ 0 1); [apply counts_lift | intros X_train].
  apply (counts_bind _ _ 0 1); [apply counts_lift | intros X_test].
  apply (counts_bind _ _ 0 1); [apply counts_lift | intros y_train].
  apply (counts_bind _ _ 0 1); [apply counts_lift | intros y_test].
  apply (counts_bind _ _ 0 1); [apply counts_with_world | intros X_train_s].
  apply (counts_bind _ _ 1 0); [apply counts_observe_scaler | intros _].
  apply (counts_bind _ _ 0 0); [apply counts_with_world | intros X_test_s].
  apply (counts_bind _ _ 0 0); [apply counts_lift | intros X_train_s'].
  apply (counts_bind _ _ 0 0); [apply counts_lift | intros X_test_s'].
  apply (counts_bind _ _ 0 0); [apply counts_with_world | intros [X_train_s_r y_train_r]].
  apply (counts_bind _ _ 0 0); [apply counts_lift | intros X_train_s_r'].
  apply (counts_bind _ _ 0 0).
  { destruct outlier_removal; [|apply counts_ret].
    destruct (removeOutliers_val _ _) as [r out].
    apply (counts_bind _ _ 0 0); [apply counts_emit | intros _; apply counts_lift]. }
  intros [X_train_s_r_o y_train_final].
  apply (counts_bind _ _ 0 0).
  { destruct pca as [p|]; [|apply counts_ret].
    apply (counts_bind _ _ 0 0); [apply counts_with_world | intros a].
    apply (counts_bind _ _ 0 0); [apply counts_with_world | intros b].
    apply counts_ret. }
  intros [X_train_final X_test_final].
  apply (counts_bind _ _ 0 0); [apply counts_with_world | intros fit_clf].
  apply (counts_bind _ _ 0 0); [apply counts_with_world | intros y_pred].
  apply counts_ret.
Qed.

Lemma counts_for_acc {A B} (xs : list A) (acc : B) (body : B → A → M CVState B) c :
  (∀ acc x, counts (body acc x) c) → counts (for_acc xs acc body) (length xs * c).
Proof.
  intros Hbody. revert acc. induction xs as [|x xs IH]; intros acc; simpl.
  - apply counts_ret.
  - apply counts_bind; [apply Hbody | intros acc'; apply IH].
Qed.

Lemma counts_for {A} (xs : list A) (body : A → M CVState unit) :
  (∀ x, counts (body x) 0) → counts (for_ xs body) 0.
Proof.
  intros Hbody. induction xs as [|x xs IH]; simpl.
  - apply counts_ret.
  - apply (counts_bind _ _ 0 0); [apply Hbody | intros _; apply IH].
Qed.

Lemma counts_customCV clf_obj :
  counts (customCV clf_obj X y scaler resampler outlier_removal pca false)
         (length (skf_split X y)).
Proof.
  unfold customCV.
  replace (length (skf_split X y)) with (length (skf_split X y) * 1 + 0) by lia.
  apply counts_bind; [apply counts_for_acc; intros; apply counts_cv_fold|].
  intros scores. apply (counts_bind _ _ 0 0); [apply counts_ret|].
  intros _. apply (counts_bind _ _ 0 0); [apply counts_ret|].
  intros _. apply counts_ret.
Qed.

Lemma evaluate_all_returns combos sc cv :
  cv_returns X y scaler resampler outlier_removal pca →
  ∃ sc' cv',
    evaluate_all_ combos sc cv = (Ok sc', cv') ∧
    clf_calls cv' = clf_calls cv ++ combos ∧
    length (fold_obs cv') = length (fold_obs cv) + length combos * length (skf_split X y) ∧
    dict_keys sc' = foldl add_key (dict_keys sc) (map (py_str_dict py_repr) combos).
Proof.
  intros Hret. revert sc cv.
  induction combos as [|kw combos IH]; intros sc cv; simpl.
  - exists sc, cv. rewrite app_nil_r. repeat split; try done; lia.
  - unfold evaluate at 1.
    unfold mbind at 1 2 3, M_bind, bind, observe_clf_call, modify, with_world at 1. simpl.
    destruct (clf_new clf kw (world cv)) as [clf_obj w1].
    set (cv1 := {| world := w1; cv_stdout := cv_stdout cv; fold_obs := fold_obs cv;
                   clf_calls := clf_calls cv ++ [kw] |}).
    destruct (Hret clf_obj cv1) as (score & cv2 & Hcv).
    pose proof (counts_customCV clf_obj cv1) as Hc. rewrite Hcv in Hc.
    destruct Hc as [Hcalls Hobs]. rewrite Hcv.
    destruct (IH (dict_set (py_str_dict py_repr kw) score sc) cv2)
      as (sc' & cv' & Hrun & Hcalls' & Hobs' & Hkeys).
    exists sc', cv'. split; [done|]. split; [|split].
    + rewrite Hcalls', Hcalls. simpl. by rewrite <- app_assoc.
    + rewrite Hobs', Hobs. simpl. lia.
    + rewrite Hkeys, dict_keys_set. done.
Qed.

Lemma cartesian_length (ls : list (list HyperValue)) :
  length (cartesian ls) = foldr Nat.mul 1 (map length ls).
Proof.
  induction ls as [|values ls IH]; simpl; [done|]. rewrite <- IH.
  induction values as [|v vs IHv]; simpl; [done|].
  by rewrite length_app, length_map, IHv.
Qed.

Lemma cartesian_elem (ls : list (list HyperValue)) vs :
  vs ∈ cartesian ls ↔ Forall2 (fun v l => v ∈ l) vs ls.
Proof.
  revert vs. induction ls as [|values ls IH]; intros vs; simpl.
  - rewrite list_elem_of_singleton. split; [by intros -> | by inversion 1].
  - rewrite elem_of_concat. split.
    + intros (l & (v & -> & Hv)%list_elem_of_fmap & (r & -> & Hr)%list_elem_of_fmap).
      constructor; [done | by apply IH].
    + inversion 1 as [|v ? r ? Hv Hr]; subst.
      exists (map (cons v) (cartesian ls)). split.
      * apply list_elem_of_fmap. eauto.
      * apply list_elem_of_fmap. exists r. split; [done | by apply IH].
Qed.

Lemma cartesian_NoDup (ls : list (list HyperValue)) :
  Forall NoDup ls → NoDup (cartesian ls).
Proof.
  induction 1 as [|values ls Hv Hls IH]; simpl.
  - apply NoDup_singleton.
  - induction Hv as [|v vs Hnotin Hvs IHv]; simpl; [constructor|].
    apply NoDup_app. split; [|split].
    + apply NoDup_fmap_2; [|done]. by intros ?? [=].
    + intros x (r & -> & _)%list_elem_of_fmap
             (l & (v' & -> & Hv')%list_elem_of_fmap
                & (r' & [= -> _] & _)%list_elem_of_fmap)%elem_of_concat.
      done.
    + done.
Qed.

Lemma distinct_forms_inj l v1 v2 :
  distinct_forms l = true → v1 ∈ l → v2 ∈ l → py_repr v1 = py_repr v2 → v1 = v2.
Proof.
  intros Hd%bool_decide_eq_true. induction l as [|x l IH]; [by intros ?%elem_of_nil|].
  simpl in Hd. apply NoDup_cons in Hd as [Hx Hd].
  intros [->|H1]%elem_of_cons [->|H2]%elem_of_cons Heq; auto.
  - exfalso. apply Hx. rewrite Heq. by apply list_elem_of_fmap_2.
  - exfalso. apply Hx. rewrite <- Heq. by apply list_elem_of_fmap_2.
Qed.

Lemma distinct_forms_NoDup l : distinct_forms l = true → NoDup l.
Proof. intros Hd%bool_decide_eq_true. by eapply NoDup_fmap_1. Qed.

Lemma comma_free_forms_spec l :
  comma_free_forms l = true → Forall (fun v => has_comma (py_repr v) = false) l.
Proof.
  unfold comma_free_forms. rewrite forallb_forall, Forall_forall.
  intros Hf v Hv%list_elem_of_In. apply Hf in Hv. by apply negb_true_iff.
Qed.

Lemma forms_pointwise (ls : list (list HyperValue)) vs1 vs2 :
  forallb distinct_forms ls = true →
  Forall2 (fun v l => v ∈ l) vs1 ls → Forall2 (fun v l => v ∈ l) vs2 ls →
  map py_repr vs1 = map py_repr vs2 → vs1 = vs2.
Proof.
  intros Hd H1. revert vs2 Hd.
  induction H1 as [|v1 l vs1 ls Hv1 H1 IH]; intros vs2 Hd H2 Heq.
  - by inversion H2.
  - inversion H2 as [|v2 ? vs2' ? Hv2 H2']; subst. simpl in Hd, Heq.
    apply andb_true_iff in Hd as [Hl Hd]. injection Heq as Hv Heq.
    f_equal; [by eapply distinct_forms_inj | by apply IH].
Qed.

Lemma comma_free_pointwise (ls : list (list HyperValue)) vs :
  forallb comma_free_forms ls = true →
  Forall2 (fun v l => v ∈ l) vs ls →
  Forall (fun v => has_comma (py_repr v) = false) vs.
Proof.
  intros Hc H1. induction H1 as [|v l vs ls Hv H1 IH]; [constructor|].
  simpl in Hc. apply andb_true_iff in Hc as [Hl Hc]. constructor; [|by apply IH].
  apply comma_free_forms_spec in Hl. rewrite Forall_forall in Hl. by apply Hl.
Qed.

Lemma rendered_keys_NoDup :
  forallb distinct_forms lists = true → forallb comma_free_forms lists = true →
  NoDup (map (py_str_dict py_repr) (combinations param_grid)).
Proof.
  intros Hd Hc. unfold combinations. rewrite map_map.
  apply NoDup_fmap_2_strong.
  - intros vs1 vs2 H1%cartesian_elem H2%cartesian_elem Heq.
    apply (forms_pointwise lists); try done.
    apply (py_str_dict_inj py_repr keys); try done.
    + apply Forall2_length in H1. by rewrite H1, candidate_lists_length.
    + apply Forall2_length in H2. by rewrite H2, candidate_lists_length.
    + by apply (comma_free_pointwise lists).
    + by apply (comma_free_pointwise lists).
  - apply cartesian_NoDup. apply Forall_forall. intros l Hl.
    apply distinct_forms_NoDup.
    rewrite forallb_forall in Hd. by apply Hd, list_elem_of_In.
Qed.

Lemma add_keys_elem (acc ks : list string) k :
  k ∈ foldl add_key acc ks ↔ k ∈ acc ∨ k ∈ ks.
Proof.
  revert acc. induction ks as [|k0 ks IH]; intros acc; simpl.
  - split; [auto | intros [?|?%elem_of_nil]; done].
  - rewrite IH. unfold add_key. rewrite elem_of_cons. case_bool_decide.
    + split; [intros [?|?]; auto | intros [?|[->|?]]; auto].
    + rewrite elem_of_app, list_elem_of_singleton.
      split; [intros [[?|?]|?]; auto | intros [?|[?|?]]; auto].
Qed.

Lemma add_keys_NoDup (acc ks : list string) :
  NoDup (acc ++ ks) → foldl add_key acc ks = acc ++ ks.
Proof.
  revert acc. induction ks as [|k ks IH]; intros acc Hnd; simpl.
  - by rewrite app_nil_r.
  - unfold add_key. rewrite bool_decide_eq_false_2.
    + rewrite IH; rewrite <- app_assoc; done.
    + apply NoDup_app in Hnd as (_ & Hdis & _). intros Hin.
      apply (Hdis k Hin). by left.
Qed.


Lemma gs_printed_nil st : gs_printed [] st = st.
Proof.
  destruct st as [[w out obs calls] cp sc]. unfold gs_printed, cv_printed. simpl.
  by rewrite app_nil_r.
Qed.

Lemma gs_printed_app o1 o2 st : gs_printed o2 (gs_printed o1 st) = gs_printed (o1 ++ o2) st.
Proof. unfold gs_printed, cv_printed. simpl. by rewrite app_assoc. Qed.

Lemma custom_loop_run (sc : list (string * Score F)) (ks : list string) (st : GSState) :
  (∀ k, k ∈ ks → k ∈ dict_keys sc) →
  for_ ks (fun key =>
    s ← score_at sc key;
    if passes_thresholds s
    then print_scores [AStr newline; AStr key] " recall" s
    else ret tt) st
  = (Ok tt, gs_printed (omap (custom_line sc) ks) st).
Proof.
  revert st. induction ks as [|k ks IH]; intros st Hks.
  - simpl. by rewrite gs_printed_nil.
  - destruct (proj2 (dict_get_is_Some k sc) (Hks k ltac:(by left))) as [s Hs].
    rewrite omap_cons. unfold custom_line at 1. unfold Score in *. rewrite Hs.
    change (for_ (k :: ks) ?body) with (body k ;; for_ ks body).
    cbv beta.
    assert (Hsc : score_at sc k st = (Ok s, st)).
    { unfold score_at. unfold Score in *. by rewrite Hs. }
    rewrite (bind_ok (score_at sc k ≫= _) _ st tt
               (gs_printed (if passes_thresholds s
                            then [scores_line [AStr newline; AStr k] " recall" s]
                            else []) st)).
    + rewrite IH by (intros; apply Hks; by right).
      rewrite gs_printed_app. simpl. by destruct (passes_thresholds s).
    + rewrite (bind_ok _ _ _ _ _ Hsc).
      destruct (passes_thresholds s); [done|]. by rewrite gs_printed_nil.
Qed.

Lemma select_custom_run (st : GSState) :
  select_result "custom" resampler outlier_removal pca st =
  (Ok (RScores (scores st)), gs_printed (custom_lines (scores st)) st).
Proof.
  unfold select_result.
  rewrite (bind_ok get _ st st st eq_refl).
  change (bool_decide ("custom" = "all")) with false. cbv iota.
  rewrite (bind_ok (ret None) _ st None st eq_refl).
  change (bool_decide ("custom" = "custom")) with true. cbv iota.
  assert (Hks : ∀ k, k ∈ py_sorted (dict_keys (scores st)) → k ∈ dict_keys (scores st)).
  { intros k. unfold py_sorted. by rewrite merge_sort_Permutation. }
  by rewrite (bind_ok _ _ _ _ _ (custom_loop_run (scores st) _ st Hks)).
Qed.

Lemma custom_lines_elem (sc : list (string * Score F)) line :
  line ∈ custom_lines sc ↔
  ∃ key s, dict_get key sc = Some s ∧ passes_thresholds s = true ∧
           line = scores_line [AStr newline; AStr key] " recall" s.
Proof.
  unfold custom_lines. rewrite list_elem_of_omap. split.
  - intros (key & Hkey & Hline). unfold custom_line in Hline.
    destruct (dict_get key sc) as [s|] eqn:Hs; simpl in Hline; [|done].
    destruct (passes_thresholds s) eqn:Hp; [|done].
    injection Hline as <-. eauto.
  - intros (key & s & Hs & Hp & ->). exists key. split.
    + unfold py_sorted. rewrite merge_sort_Permutation.
      apply dict_get_is_Some. eauto.
    + unfold custom_line. rewrite Hs. simpl. by rewrite Hp.
Qed.

End Grid.

(** ** The scoring branches *)

Section Selection.
Context {F : Type} `{FloatOps F} `{Collaborators F}.
Variables (resampler : ResamplerObj) (outlier_removal : bool) (pca : option PcaObj).

Lemma score_at_run (sc : list (string * Score F)) key s (st : GSState) :
  dict_get key sc = Some s → score_at sc key st = (Ok s, st).
Proof. intros Hs. unfold score_at. unfold Score in *. by rewrite Hs. Qed.

(** The name [scaler_str] is bound nowhere. *)
Lemma scaler_str_unbound (st : GSState) :
  load_global "scaler_str" st = (Raise (NameError "scaler_str"), st).
Proof. reflexivity. Qed.

(** The loop of the three best-score branches: at the first key whose score
    equals the maximum the [print] reads [scaler_str], so the [return] below
    it is never reached. *)
Lemma return_best_run (sc : list (string * Score F)) (component : Score F → F)
    (max_score : F) (ks : list string) (st : GSState) :
  (∀ k, k ∈ ks → k ∈ dict_keys sc) →
  for_return ks (fun key =>
    s ← score_at sc key;
    if feq (component s) max_score
    then
      scaler_str ← load_global "scaler_str";
      print_scores [AStr scaler_str] " recall:" s ;;
      ret (Some (RBest key s scaler_str resampler outlier_removal pca))
    else ret None) st
  = if existsb (fun k => match dict_get k sc with
                         | Some s => feq (component s) max_score
                         | None => false
                         end) ks
    then (Raise (NameError "scaler_str"), st)
    else (Ok None, st).
Proof.
  induction ks as [|k ks IH]; intros Hks; [done|].
  destruct (proj2 (dict_get_is_Some k sc) (Hks k ltac:(by left))) as [s Hs].
  change (for_return (k :: ks) ?body) with
    (r ← body k; match r with Some v => ret (Some v) | None => for_return ks body end).
  cbv beta. simpl existsb. unfold Score in *. rewrite Hs.
  destruct (feq (component s) max_score) eqn:Heq; simpl orb.
  - apply bind_raise. rewrite (bind_ok _ _ _ _ _ (score_at_run sc k s st Hs)).
    rewrite Heq. by apply bind_raise.
  - rewrite (bind_ok _ _ st None st).
    + apply IH. intros k' Hk'. apply Hks. by right.
    + rewrite (bind_ok _ _ _ _ _ (score_at_run sc k s st Hs)). by rewrite Heq.
Qed.

(** Scoring "recall": a ValueError without scores, else a NameError as soon
    as some score has the maximal recall; never a tuple. *)
Lemma select_recall_run (st : GSState) :
  select_result "recall" resampler outlier_removal pca st =
  match py_max (map recall_of (dict_values (scores st))) with
  | Raise e => (Raise e, st)
  | Ok max_score =>
      if existsb (fun k => match dict_get k (scores st) with
                           | Some s => feq (recall_of s) max_score
                           | None => false
                           end) (dict_keys (scores st))
      then (Raise (NameError "scaler_str"), st)
      else (Ok RNone, st)
  end.
Proof.
  unfold select_result.
  rewrite (bind_ok get _ st st st eq_refl).
  change (bool_decide ("recall" = "all")) with false. cbv iota.
  rewrite (bind_ok (ret None) _ st None st eq_refl).
  change (bool_decide ("recall" = "custom")) with false.
  change (bool_decide ("recall" = "recall")) with true. cbv iota.
  match goal with
  | |- context [py_max ?l] => destruct (py_max l) as [m|e] eqn:Hmax
  end.
  - rewrite (bind_ok _ _ st m st) by done.
    unfold return_best. unfold mbind at 1, M_bind, bind.
    rewrite return_best_run by done.
    by destruct (existsb _ _).
  - by apply bind_raise.
Qed.

(** Scoring "precision": the comparison reads the local [max_score] before
    anything was assigned to it. *)
Lemma select_precision_run (st : GSState) :
  select_result "precision" resampler outlier_removal pca st =
  (Raise (UnboundLocalError "max_score"), st).
Proof. reflexivity. Qed.

(** Scoring "all": the [return] is inside the loop, so the first key in
    sorted order is printed and no other. *)
Lemma select_all_run (st : GSState) :
  select_result "all" resampler outlier_removal pca st =
  match py_sorted (dict_keys (scores st)) with
  | [] => (Ok RNone, st)
  | key :: _ =>
      match dict_get key (scores st) with
      | Some s =>
          (Ok (RScores (scores st)),
           gs_printed [scores_line [AStr newline; AStr key] " recall" s] st)
      | None => (Raise KeyError, st)
      end
  end.
Proof.
  unfold select_result.
  rewrite (bind_ok get _ st st st eq_refl).
  change (bool_decide ("all" = "all")) with true. cbv iota.
  destruct (py_sorted (dict_keys (scores st))) as [|key ks]; [done|].
  destruct (dict_get key (scores st)) as [s|] eqn:Hs.
  - match goal with
    | |- (?m ≫= ?k) st = _ =>
        assert (Hloop : m st =
                  (Ok (Some (RScores (scores st))),
                   gs_printed [scores_line [AStr newline; AStr key] " recall" s] st))
    end.
    { change (for_return (key :: ks) ?body) with
        (r ← body key; match r with Some v => ret (Some v) | None => for_return ks body end).
      cbv beta.
      rewrite (bind_ok _ _ st (Some (RScores (scores st)))
                 (gs_printed [scores_line [AStr newline; AStr key] " recall" s] st));
        [done|].
      by rewrite (bind_ok _ _ _ _ _ (score_at_run (scores st) key s st Hs)). }
    by rewrite (bind_ok _ _ _ _ _ Hloop).
  - apply bind_raise.
    change (for_return (key :: ks) ?body) with
      (r ← body key; match r with Some v => ret (Some v) | None => for_return ks body end).
    cbv beta. apply bind_raise. apply bind_raise.
    unfold score_at. unfold Score in *. by rewrite Hs.
Qed.

End Selection.

(** ** The scaler in customCV *)

Section Leak.
Context {F : Type} `{FloatOps F} `{Collaborators F}.

Lemma silent_bind {A B} (m : M CVState A) (k : A → M CVState B) :
  silent m → (∀ a, silent (k a)) → silent (m ≫= k).
Proof.
  intros Hm Hk st. unfold mbind, M_bind, bind.
  specialize (Hm st). destruct (m st) as [[a|e] st1]; [|done].
  simpl in Hm. rewrite <- Hm. apply Hk.
Qed.

Lemma silent_ret {A} (a : A) : silent (ret a).
Proof. by intros st. Qed.
Lemma silent_lift {A} (r : Res A) : silent (lift r).
Proof. by intros st. Qed.
Lemma silent_with_world {A} (f : World → A * World) : silent (with_world f).
Proof. intros st. unfold with_world. by destruct (f (world st)). Qed.
Lemma silent_emit outs : silent (cv_emit outs).
Proof. by intros st. Qed.
Lemma silent_print args : silent (cv_print args).
Proof. by intros st. Qed.

Lemma silent_for {A} (xs : list A) (body : A → M CVState unit) :
  (∀ x, silent (body x)) → silent (for_ xs body).
Proof.
  intros Hb. induction xs as [|x xs IH]; simpl; [apply silent_ret|].
  apply silent_bind; [apply Hb | intros _; apply IH].
Qed.

Ltac silent_steps :=
  repeat first
    [ apply silent_ret | apply silent_lift | apply silent_with_world
    | apply silent_emit | apply silent_print
    | apply silent_bind; [|intros ?]
    | progress cbv beta
    | match goal with
      | |- silent (match ?x with _ => _ end) => destruct x
      end ].

(** Each fold records one scaler, fitted on the rows at the training positions. *)
Lemma cv_fold_observes clf X y scaler resampler outlier_removal pca
    scores train_index test_index st scores' st' :
  cv_fold clf X y scaler resampler outlier_removal pca scores
          (train_index, test_index) st = (Ok scores', st') →
  ∃ X_train w,
    df_iloc train_index X = Ok X_train ∧
    fold_obs st' = fold_obs st ++ [fitted_on scaler X_train w].
Proof.
  unfold cv_fold. intros Hrun.
  apply bind_inv in Hrun as (X_train & st1 & H1 & Hrun).
  apply bind_inv in Hrun as (X_test & st2 & H2 & Hrun).
  apply bind_inv in Hrun as (y_train & st3 & H3 & Hrun).
  apply bind_inv in Hrun as (y_test & st4 & H4 & Hrun).
  apply bind_inv in Hrun as (X_train_s & st5 & H5 & Hrun).
  apply bind_inv in Hrun as ([] & st6 & H6 & Hrun).
  unfold lift in H1, H2, H3, H4.
  injection H1 as H1 <-. injection H2 as H2 <-.
  injection H3 as H3 <-. injection H4 as H4 <-.
  exists X_train, (world st). split; [done|].
  unfold with_world in H5.
  destruct (scaler_fit_transform scaler X_train (world st)) as [a w] eqn:Hfit.
  injection H5 as <- <-.
  unfold observe_scaler, modify in H6. injection H6 as <-.
  match type of Hrun with
  | ?m ?s = _ => assert (Hs : silent m)
  end.
  { silent_steps. }
  specialize (Hs {| world := w; cv_stdout := cv_stdout st;
                    fold_obs := fold_obs st ++ [(scaler_params scaler w, a)];
                    clf_calls := clf_calls st |}).
  rewrite Hrun in Hs. simpl in Hs. rewrite Hs.
  unfold fitted_on. by rewrite Hfit.
Qed.

Lemma folds_observe clf X y scaler resampler outlier_removal pca
    (splits : list (list nat * list nat)) scores st scores' st' :
  for_acc splits scores (cv_fold clf X y scaler resampler outlier_removal pca) st
    = (Ok scores', st') →
  ∃ new,
    fold_obs st' = fold_obs st ++ new ∧
    Forall2 (fun split o =>
               ∃ X_train w, df_iloc (fst split) X = Ok X_train ∧
                            o = fitted_on scaler X_train w)
            splits new.
Proof.
  revert scores st. induction splits as [|[tr te] splits IH]; intros scores st Hrun.
  - injection Hrun as <- <-. exists []. by rewrite app_nil_r.
  - simpl in Hrun. apply bind_inv in Hrun as (sc1 & st1 & Hfold & Hrun).
    apply cv_fold_observes in Hfold as (X_train & w & Hiloc & Hobs).
    apply IH in Hrun as (new & Hnew & Hall).
    exists (fitted_on scaler X_train w :: new). split.
    + rewrite Hnew, Hobs. by rewrite <- app_assoc.
    + constructor; [|done]. by exists X_train, w.
Qed.

Lemma customCV_observes clf X y scaler resampler outlier_removal pca print_splits
    st score st' :
  customCV clf X y scaler resampler outlier_removal pca print_splits st = (Ok score, st') →
  ∃ new,
    fold_obs st' = fold_obs st ++ new ∧
    Forall2 (fun split o =>
               ∃ X_train w, df_iloc (fst split) X = Ok X_train ∧
                            o = fitted_on scaler X_train w)
            (skf_split X y) new.
Proof.
  unfold customCV. intros Hrun.
  apply bind_inv in Hrun as (scores & st1 & Hfolds & Hrun).
  apply folds_observe in Hfolds as (new & Hnew & Hall).
  exists new. split; [|done]. rewrite <- Hnew.
  match type of Hrun with
  | ?m ?s = _ => assert (Hs : silent m)
  end.
  { silent_steps; apply silent_for; intros [? ?]; unfold print_split; silent_steps. }
  specialize (Hs st1). by rewrite Hrun in Hs.
Qed.


End Leak.

(** ** The whole call *)

Section WholeCall.
Context {F : Type} `{FloatOps F} `{Collaborators F}.
Variables (clf : ClfClass) (param_grid : gmap string (list HyperValue))
          (X : DataFrame F) (y : Series)
          (scaler : ScalerObj) (resampler : ResamplerObj)
          (outlier_removal : bool) (pca : option PcaObj).

(** The call is the enumeration followed by the scoring branch. *)
Lemma customGridSearchCV_run (scoring : string) (cv : CVState) :
  customGridSearchCV clf param_grid X y scoring scaler resampler outlier_removal pca cv =
  match enumerate_grid clf param_grid X y scaler resampler outlier_removal pca
          {| gs_cv := cv; current_params := []; scores := [] |} with
  | (Ok _, st) =>
      (fst (select_result scoring resampler outlier_removal pca st),
       gs_cv (snd (select_result scoring resampler outlier_removal pca st)))
  | (Raise e, st) => (Raise e, gs_cv st)
  end.
Proof.
  unfold customGridSearchCV, mbind, M_bind, bind.
  destruct (enumerate_grid _ _ _ _ _ _ _ _ _) as [[[]|e] st]; [|done].
  by destruct (select_result _ _ _ _ _).
Qed.

(** Scoring "recall" never returns a tuple: the call raises, or returns None
    when no score compares equal to the maximum. *)
Lemma recall_scoring_never_returns_best (cv : CVState) :
  fst (customGridSearchCV clf param_grid X y "recall" scaler resampler
         outlier_removal pca cv) = Ok RNone ∨
  ∃ e, fst (customGridSearchCV clf param_grid X y "recall" scaler resampler
              outlier_removal pca cv) = Raise e.
Proof.
  rewrite customGridSearchCV_run.
  destruct (enumerate_grid _ _ _ _ _ _ _ _ _) as [[[]|e] st]; [|right; by exists e].
  rewrite select_recall_run. simpl.
  destruct (py_max _) as [m|e]; [|right; by exists e].
  destruct (existsb _ _); [right; eauto | by left].
Qed.

(** Scoring "precision" never returns. *)
Lemma precision_scoring_always_raises (cv : CVState) :
  ∃ e, fst (customGridSearchCV clf param_grid X y "precision" scaler resampler
              outlier_removal pca cv) = Raise e.
Proof.
  rewrite customGridSearchCV_run.
  destruct (enumerate_grid _ _ _ _ _ _ _ _ _) as [[[]|e] st]; [|by exists e].
  rewrite select_precision_run. eauto.
Qed.

(** Scoring "all" prints at most one line after the enumeration. *)
Lemma all_scoring_prints_at_most_one_line (st : GSState) :
  length (cv_stdout (gs_cv (snd (select_result "all" resampler outlier_removal pca st))))
  ≤ S (length (cv_stdout (gs_cv st))).
Proof.
  rewrite select_all_run.
  destruct (py_sorted _) as [|key ks]; simpl; [lia|].
  destruct (dict_get _ _); simpl; [|lia].
  rewrite length_app. simpl. lia.
Qed.

End WholeCall.

(** ** The code on concrete inputs *)

Section Concrete.
Import Exact.
#[local] Existing Instance int_collaborators.

Lemma int_cv_ok (X : DataFrame Q) (outlier_removal : bool) (pca : option unit)
    (clf_obj : Q) (cv : @CVState Q int_collaborators) :
  X = X10 ∨ X = X10' →
  is_ok (fst (@customCV Q _ int_collaborators clf_obj X y10 tt tt
                outlier_removal pca false cv)) = true.
Proof.
  intros [-> | ->]; destruct outlier_removal, pca as [[]|]; reflexivity.
Qed.

Lemma int_customCV_returns (X : DataFrame Q) (outlier_removal : bool) (pca : option unit)
    (clf_obj : Q) (cv : @CVState Q int_collaborators) :
  X = X10 ∨ X = X10' →
  ∃ score cv',
    @customCV Q _ int_collaborators clf_obj X y10 tt tt outlier_removal pca false cv
    = (Ok score, cv').
Proof.
  intros HX. pose proof (int_cv_ok X outlier_removal pca clf_obj cv HX) as Hok.
  destruct (customCV _ _ _ _ _ _ _ _ _) as [[s|e] cv']; [eauto | done].
Qed.

Lemma int_cv_returns (outlier_removal : bool) (pca : option unit) :
  @cv_returns Q _ int_collaborators X10 y10 tt tt outlier_removal pca.
Proof. intros clf_obj cv. apply int_customCV_returns. by left. Qed.

Lemma int_fit_forgets : @fit_forgets Q int_collaborators tt.
Proof. intros X_train w1 w2. split; reflexivity. Qed.

Lemma X25_names_distinct : NoDup (df_names X25).
Proof. apply (bool_decide_unpack _). reflexivity. Qed.

(** Witness of C6: the 25-row table and its labels. *)
Lemma removeOutliers_aligned_witness :
  heap heap25 !! 0 = Some (ODataFrame X25) ∧
  heap heap25 !! 1 = Some (OSeries y25) ∧
  s_index y25 = df_index X25 ∧
  ∃ rx ry st' X' y' mask,
    removeOutliers 0 1 heap25 = (Ok (rx, ry), st') ∧
    heap st' !! rx = Some (ODataFrame X') ∧
    heap st' !! ry = Some (OSeries y') ∧
    X' = df_select mask X25 ∧ y' = s_select mask y25 ∧
    df_index X' = s_index y' ∧
    df_len X' = s_len y' ∧
    stdout st' = stdout heap25.
Proof.
  split; [reflexivity|]. split; [reflexivity|]. split; [reflexivity|].
  apply (removeOutliers_aligned heap25 0 1 X25 y25); reflexivity.
Defined.

(** Witness of C7 (amended): the same table, whose row labels are unique. *)
Lemma removeOutliers_drops_flagged_labels_witness :
  heap heap25 !! 0 = Some (ODataFrame X25) ∧
  heap heap25 !! 1 = Some (OSeries y25) ∧
  NoDup (df_names X25) ∧
  (∀ l, l ∈ df_index X25 → l ∈ s_index y25) ∧
  ∃ rx ry st' X',
    removeOutliers 0 1 heap25 = (Ok (rx, ry), st') ∧
    heap st' !! rx = Some (ODataFrame X') ∧
    X' = df_select (map (fun l => negb (label_flagged X25 l)) (df_index X25)) X25 ∧
    (NoDup (df_index X25) → X' = df_select (map negb (outlier_rows X25)) X25) ∧
    Forall2 (fun c c' =>
               fst c' = fst c ∧
               Forall (fun v => is_outlier (pd_mean (snd c)) (pd_std (snd c)) v = false)
                      (snd c'))
            (df_columns X25) (df_columns X').
Proof.
  split; [reflexivity|]. split; [reflexivity|]. split; [exact X25_names_distinct|].
  split; [exact (fun l Hl => Hl)|].
  apply (removeOutliers_drops_flagged_labels heap25 0 1 X25 y25);
    [reflexivity | reflexivity | exact X25_names_distinct | exact (fun l Hl => Hl)].
Defined.

(** Counterexample to C7 as stated: with the label 0 on rows 0 and 1, row 1 is
    an outlier in no column and is dropped all the same; two rows are
    outliers, three are gone, and what is returned is not the table without
    its outlier rows. *)
Lemma removeOutliers_drops_rows_sharing_a_label :
  removeOutliers_val X25dup y25dup = (Ok (X25dup_kept, y25dup_kept), []) ∧
  row_outlier X25dup 1 = false ∧
  length (filter (fun b => b = true) (outlier_rows X25dup)) = 2 ∧
  df_len X25dup = 25 ∧ df_len X25dup_kept = 22 ∧
  X25dup_kept ≠ df_select (map negb (outlier_rows X25dup)) X25dup.
Proof.
  split; [reflexivity|]. split; [reflexivity|]. split; [reflexivity|].
  split; [reflexivity|]. split; [reflexivity|].
  intros Heq. apply (f_equal df_len) in Heq. vm_compute in Heq. discriminate.
Qed.

(** Scoring "custom" on one name with three candidates: two of the three
    combinations are above both thresholds. *)
Example custom_scoring_on_grid_t :
  returned_keys
    (fst (@customGridSearchCV Q _ int_collaborators tt grid_t X10 y10 "custom" tt tt
            false None (start int_collaborators [])))
  = ["{'t': -3}"; "{'t': 0}"; "{'t': 3}"] ∧
  printed_keys
    (cv_stdout
       (snd (@customGridSearchCV Q _ int_collaborators tt grid_t X10 y10 "custom" tt tt
               false None (start int_collaborators []))))
  = ["{'t': -3}"; "{'t': 0}"].
Proof. split; reflexivity. Qed.


Example combinations_of_grid_tu :
  @combinations Q int_collaborators grid_tu =
  [[("t", -3); ("u", 1)]; [("t", -3); ("u", 2)];
   [("t", 0); ("u", 1)]; [("t", 0); ("u", 2)];
   [("t", 3); ("u", 1)]; [("t", 3); ("u", 2)]]%Z ∧
  @candidate_product Q int_collaborators grid_tu = 6.
Proof. split; reflexivity. Qed.



(** The fitted scaler of the first fold on the two tables: the mean of the
    training rows, 5, whatever rows 0 and 5 hold. *)
Example first_fold_scaler :
  fst <$> fold_obs (snd (customCV (0 # 1)%Q X10 y10 tt tt false None false
                           (start int_collaborators []))) !! 0
  = Some [(5 # 1)%Q] ∧
  fst <$> fold_obs (snd (customCV (0 # 1)%Q X10' y10 tt tt false None false
                           (start int_collaborators []))) !! 0
  = Some [(5 # 1)%Q].
Proof. split; reflexivity. Qed.

(** C1: the code at the failing input.  Scoring "recall" on a grid of one name
    with three candidates: the maximum is found, and the [print] under the
    first key that reaches it reads the unbound name [scaler_str]; no tuple is
    returned. *)
Theorem recall_scoring_raises_NameError :
  fst (customGridSearchCV tt grid_t X10 y10 "recall" tt tt false None
         (start int_collaborators []))
  = Raise (NameError "scaler_str").
Proof. reflexivity. Qed.

(** C2: the code at the failing input.  Scoring "precision" on the same grid:
    [max_score == max(...)] compares where it should assign, and reads the
    local [max_score] before it was bound. *)
Theorem precision_scoring_raises_UnboundLocalError :
  fst (customGridSearchCV tt grid_t X10 y10 "precision" tt tt false None
         (start int_collaborators []))
  = Raise (UnboundLocalError "max_score").
Proof. reflexivity. Qed.

(** C3: the code at the failing input.  Scoring "all" on the same grid: the
    scores dictionary returned has the three combinations, and one line was
    printed, that of the first key in sorted order. *)
Theorem all_scoring_prints_first_entry_only :
  returned_keys
    (fst (customGridSearchCV tt grid_t X10 y10 "all" tt tt false None
            (start int_collaborators [])))
  = ["{'t': -3}"; "{'t': 0}"; "{'t': 3}"] ∧
  printed_keys
    (cv_stdout
       (snd (customGridSearchCV tt grid_t X10 y10 "all" tt tt false None
               (start int_collaborators []))))
  = ["{'t': -3}"] ∧
  length (cv_stdout
            (snd (customGridSearchCV tt grid_t X10 y10 "all" tt tt false None
                    (start int_collaborators [])))) = 1.
Proof. repeat split; reflexivity. Qed.

End Concrete.

(** ** removeOutliers beyond aligned indexes *)

Lemma mask_select_map {A} (f : A → bool) (xs : list A) :
  mask_select (map f xs) xs = filter (fun x => f x = true) xs.
Proof.
  induction xs as [|x xs IH]; [done|]. simpl.
  rewrite filter_cons. destruct (f x) eqn:Hf.
  - rewrite decide_True by done. by rewrite IH.
  - rewrite decide_False by congruence. done.
Qed.

Lemma mask_select_sublist {A} (mask : list bool) (xs : list A) :
  mask_select mask xs `sublist_of` xs.
Proof.
  revert xs. induction mask as [|b mask IH]; intros [|x xs]; simpl;
    try apply sublist_nil_l.
  destruct b; [by apply sublist_skip | by apply sublist_cons].
Qed.

Lemma mask_select_all {A} (mask : list bool) (xs : list A) :
  Forall (fun b => b = true) mask → length xs ≤ length mask →
  mask_select mask xs = xs.
Proof.
  intros Hall. revert xs. induction Hall as [|b mask -> _ IH]; intros [|x xs] Hl;
    simpl in *; try done; try lia.
  f_equal. apply IH. lia.
Qed.

Section OutlierEdges.
Context {F : Type} `{FloatOps F}.

Lemma keep_mask_unflagged (X : DataFrame F) (index : list Z) :
  mask_select (keep_mask (unique_indices (collect_indices X)) index) index =
  filter (fun l => label_flagged X l = false) index.
Proof.
  unfold keep_mask. rewrite mask_select_map.
  apply list_filter_iff. intros l. rewrite negb_true_iff, bool_decide_eq_false.
  rewrite dropped_label_flagged. by destruct (label_flagged X l).
Qed.

(** What the call does when it succeeds. *)
Lemma removeOutliers_success (st : PyState F) xr yr X y :
  heap st !! xr = Some (ODataFrame X) →
  heap st !! yr = Some (OSeries y) →
  (∀ l, label_flagged X l = true → l ∈ s_index y) →
  let labels := unique_indices (collect_indices X) in
  let X' := df_select (keep_mask labels (df_index X)) X in
  let y' := s_select (keep_mask labels (s_index y)) y in
  removeOutliers xr yr st =
    (Ok (length (heap st) + 2, length (heap st) + 3),
     emit (if bool_decide (df_len X' ≠ s_len y') then banner else [])
          (push (OSeries y')
             (push (ODataFrame X') (push (OSeries y) (push (ODataFrame X) st))))).
Proof.
  intros Hx Hy Hfound. cbv zeta.
  rewrite (removeOutliers_run st xr yr X y Hx Hy). cbv zeta.
  rewrite s_drop_found; [done|].
  intros l Hl. by apply Hfound, dropped_label_flagged.
Qed.

(** X1. Rows go by label, in the table and in the series alike: called on a
    table with distinct column names and a series that has every flagged
    label, the call returns the table and the series with exactly the entries
    whose label is not flagged, each in its own order; so when the series
    carries the table's labels in another order, the two results still carry
    the same labels, are equally long, and the diagnostic prints nothing. *)
Theorem removeOutliers_keeps_unflagged_labels (st : PyState F) xr yr X y :
  heap st !! xr = Some (ODataFrame X) →
  heap st !! yr = Some (OSeries y) →
  NoDup (df_names X) →
  (∀ l, label_flagged X l = true → l ∈ s_index y) →
  ∃ rx ry st' X' y',
    removeOutliers xr yr st = (Ok (rx, ry), st') ∧
    heap st' !! rx = Some (ODataFrame X') ∧
    heap st' !! ry = Some (OSeries y') ∧
    df_index X' = filter (fun l => label_flagged X l = false) (df_index X) ∧
    s_index y' = filter (fun l => label_flagged X l = false) (s_index y) ∧
    (s_index y ≡ₚ df_index X →
       s_index y' ≡ₚ df_index X' ∧ s_len y' = df_len X' ∧ stdout st' = stdout st).
Proof.
  intros Hx Hy _ Hfound.
  pose proof (removeOutliers_success st xr yr X y Hx Hy Hfound) as Hrun.
  cbv zeta in Hrun.
  eexists _, _, _, _, _. split; [exact Hrun|].
  split; [apply returned_frame|]. split; [apply returned_series|].
  assert (HX : df_index (df_select (keep_mask (unique_indices (collect_indices X))
                                      (df_index X)) X)
               = filter (fun l => label_flagged X l = false) (df_index X)).
  { simpl. apply keep_mask_unflagged. }
  assert (HY : s_index (s_select (keep_mask (unique_indices (collect_indices X))
                                    (s_index y)) y)
               = filter (fun l => label_flagged X l = false) (s_index y)).
  { simpl. apply keep_mask_unflagged. }
  split; [done|]. split; [done|].
  intros Hperm.
  assert (Hp : s_index (s_select (keep_mask (unique_indices (collect_indices X))
                                    (s_index y)) y)
               ≡ₚ df_index (df_select (keep_mask (unique_indices (collect_indices X))
                                         (df_index X)) X)).
  { rewrite HX, HY. by rewrite Hperm. }
  split; [done|].
  assert (Hl : s_len (s_select (keep_mask (unique_indices (collect_indices X))
                                  (s_index y)) y)
             = df_len (df_select (keep_mask (unique_indices (collect_indices X))
                                    (df_index X)) X)).
  { unfold s_len, df_len. by rewrite Hp. }
  split; [done|].
  rewrite bool_decide_eq_false_2 by (intros Hne; by apply Hne).
  simpl. by rewrite app_nil_r.
Qed.

(** X2. When some flagged label is not a label of the series, the second
    [drop] raises KeyError: nothing is returned and nothing printed, and the
    two copies and the reduced table have been allocated. *)
Theorem removeOutliers_missing_label_KeyError (st : PyState F) xr yr X y l :
  heap st !! xr = Some (ODataFrame X) →
  heap st !! yr = Some (OSeries y) →
  label_flagged X l = true → l ∉ s_index y →
  fst (removeOutliers xr yr st) = Raise KeyError ∧
  stdout (snd (removeOutliers xr yr st)) = stdout st ∧
  length (heap (snd (removeOutliers xr yr st))) = length (heap st) + 3.
Proof.
  intros Hx Hy Hflag Hnot.
  rewrite (removeOutliers_run st xr yr X y Hx Hy). cbv zeta.
  unfold s_drop.
  destruct (labels_found _ _) eqn:Hfound.
  - exfalso. apply Hnot. apply (proj1 (labels_found_spec _ _) Hfound).
    by apply dropped_label_flagged.
  - simpl. repeat split; try done. rewrite !length_app. simpl. lia.
Qed.

Lemma no_outliers_no_labels (X : DataFrame F) :
  (∀ i, row_outlier X i = false) → unique_indices (collect_indices X) = [].
Proof.
  intros Hnone.
  destruct (unique_indices (collect_indices X)) as [|l ls] eqn:Hl; [done|].
  assert (Hin : l ∈ unique_indices (collect_indices X)) by (rewrite Hl; by left).
  apply dropped_label_flagged, label_flagged_true in Hin as (i & _ & Hi).
  by rewrite Hnone in Hi.
Qed.

Lemma keep_mask_nil (index : list Z) :
  Forall (fun b => b = true) (keep_mask [] index) ∧
  length (keep_mask [] index) = length index.
Proof.
  unfold keep_mask. split; [|by rewrite length_map].
  apply Forall_forall. intros b (l & -> & _)%list_elem_of_fmap.
  apply negb_true_iff, bool_decide_eq_false. by intros ?%elem_of_nil.
Qed.

Lemma df_select_all (X : DataFrame F) :
  frame_shaped X → df_select (keep_mask [] (df_index X)) X = X.
Proof.
  intros Hwf. destruct (keep_mask_nil (df_index X)) as [Hall Hlen].
  destruct X as [index cols]. unfold df_select. simpl in *. f_equal.
  - apply mask_select_all; [done | lia].
  - rewrite <- (map_id cols) at 2. apply map_ext_Forall.
    eapply Forall_impl; [exact Hwf|]. intros [name vals] Hc. simpl in *.
    f_equal. apply mask_select_all; [done | lia].
Qed.

Lemma s_select_all (y : Series) :
  series_shaped y → s_select (keep_mask [] (s_index y)) y = y.
Proof.
  intros Hwf. destruct (keep_mask_nil (s_index y)) as [Hall Hlen].
  destruct y as [index name vals]. unfold s_select, series_shaped in *. simpl in *.
  f_equal; apply mask_select_all; try done; lia.
Qed.

(** X3. On a table with distinct column names and without an outlier in any
    column the call returns new objects, not the arguments, that hold the same
    table and the same series. *)
Theorem removeOutliers_without_outliers_copies (st : PyState F) xr yr X y :
  heap st !! xr = Some (ODataFrame X) →
  heap st !! yr = Some (OSeries y) →
  NoDup (df_names X) →
  frame_shaped X → series_shaped y →
  (∀ i, row_outlier X i = false) →
  ∃ rx ry st',
    removeOutliers xr yr st = (Ok (rx, ry), st') ∧
    heap st' !! rx = Some (ODataFrame X) ∧
    heap st' !! ry = Some (OSeries y) ∧
    rx ≠ xr ∧ ry ≠ yr.
Proof.
  intros Hx Hy _ HX HY Hnone.
  assert (Hfound : ∀ l, label_flagged X l = true → l ∈ s_index y).
  { intros l (i & _ & Hi)%label_flagged_true. by rewrite Hnone in Hi. }
  pose proof (removeOutliers_success st xr yr X y Hx Hy Hfound) as Hrun.
  cbv zeta in Hrun. rewrite (no_outliers_no_labels X Hnone) in Hrun.
  rewrite (df_select_all X HX), (s_select_all y HY) in Hrun.
  eexists _, _, _. split; [exact Hrun|].
  split; [apply returned_frame|]. split; [apply returned_series|].
  apply lookup_lt_Some in Hx, Hy. lia.
Qed.

(** X4. On a table with distinct column names, what is returned is taken out
    of the arguments without reordering or changing anything: the row labels,
    every column and the values of the series are subsequences of the
    originals, the columns keep their names and their order, the series keeps
    its name. *)
Theorem removeOutliers_keeps_order_and_values (st : PyState F) xr yr X y :
  heap st !! xr = Some (ODataFrame X) →
  heap st !! yr = Some (OSeries y) →
  NoDup (df_names X) →
  (∀ l, label_flagged X l = true → l ∈ s_index y) →
  ∃ rx ry st' X' y',
    removeOutliers xr yr st = (Ok (rx, ry), st') ∧
    heap st' !! rx = Some (ODataFrame X') ∧
    heap st' !! ry = Some (OSeries y') ∧
    df_index X' `sublist_of` df_index X ∧
    Forall2 (fun c c' => fst c' = fst c ∧ snd c' `sublist_of` snd c)
            (df_columns X) (df_columns X') ∧
    s_index y' `sublist_of` s_index y ∧
    s_values y' `sublist_of` s_values y ∧
    s_name y' = s_name y.
Proof.
  intros Hx Hy _ Hfound.
  pose proof (removeOutliers_success st xr yr X y Hx Hy Hfound) as Hrun.
  cbv zeta in Hrun.
  eexists _, _, _, _, _. split; [exact Hrun|].
  split; [apply returned_frame|]. split; [apply returned_series|].
  simpl. repeat split; try apply mask_select_sublist.
  apply Forall2_fmap_r, Forall_Forall2_diag, Forall_forall.
  intros c _. split; [done | apply mask_select_sublist].
Qed.

(** X5. A length mismatch raises nothing: on a table with distinct column
    names, whenever both drops succeed the call returns, and it has printed
    the three lines of the diagnostic exactly when the table and the series
    are left with different numbers of rows, and nothing otherwise. *)
Theorem removeOutliers_mismatch_is_only_printed (st : PyState F) xr yr X y :
  heap st !! xr = Some (ODataFrame X) →
  heap st !! yr = Some (OSeries y) →
  NoDup (df_names X) →
  (∀ l, label_flagged X l = true → l ∈ s_index y) →
  ∃ rx ry st',
    removeOutliers xr yr st = (Ok (rx, ry), st') ∧
    stdout st' =
      stdout st ++
      if bool_decide (length (filter (fun l => label_flagged X l = false) (df_index X))
                      = length (filter (fun l => label_flagged X l = false) (s_index y)))
      then [] else banner.
Proof.
  intros Hx Hy _ Hfound.
  pose proof (removeOutliers_success st xr yr X y Hx Hy Hfound) as Hrun.
  cbv zeta in Hrun.
  eexists _, _, _. split; [exact Hrun|].
  simpl. f_equal. unfold df_len, s_len. simpl. rewrite !keep_mask_unflagged.
  set (a := length (filter _ (df_index X))). set (b := length (filter _ (s_index y))).
  destruct (decide (a = b)) as [Heq|Hne].
  - rewrite (bool_decide_eq_true_2 (a = b)) by done.
    by rewrite bool_decide_eq_false_2 by (intros Hn; by apply Hn).
  - rewrite (bool_decide_eq_false_2 (a = b)) by done.
    by rewrite bool_decide_eq_true_2 by done.
Qed.

End OutlierEdges.

(** ** What a run of customCV prints and scores *)

Section FoldOutput.
Context {F : Type} `{FloatOps F} `{Collaborators F}.

(** What [removeOutliers] prints: nothing, or the three lines. *)
Lemma removeOutliers_val_out (X : DataFrame F) (y : Series) r out :
  removeOutliers_val X y = (r, out) → out = [] ∨ out = banner.
Proof.
  unfold removeOutliers_val.
  rewrite (removeOutliers_run {| heap := [ODataFrame X; OSeries y]; stdout := [] |}
             0 1 X y eq_refl eq_refl). cbv zeta.
  destruct (s_drop _ y) as [y'|e]; simpl.
  - destruct (bool_decide _); intros Heq; injection Heq as _ <-; auto.
  - intros Heq. injection Heq as _ <-. auto.
Qed.

Lemma with_world_inv {A} (f : World → A * World) (st : CVState) a st' :
  with_world f st = (Ok a, st') →
  a = fst (f (world st)) ∧ world st' = snd (f (world st)) ∧
  cv_stdout st' = cv_stdout st.
Proof.
  unfold with_world. destruct (f (world st)) as [a0 w]. by intros [= <- <-].
Qed.

Lemma lift_inv {St A} (r : Res A) (st : St) a st' :
  lift r st = (Ok a, st') → r = Ok a ∧ st' = st.
Proof. unfold lift. by intros [= -> ->]. Qed.

(** A fold adds one score, and prints at most the diagnostic of the outlier
    removal. *)
Lemma cv_fold_prints clf X y scaler resampler (outlier_removal : bool) pca
    (scores : list (Score F)) split st scores' st' :
  cv_fold clf X y scaler resampler outlier_removal pca scores split st
    = (Ok scores', st') →
  length scores' = S (length scores) ∧
  ∃ k, k ≤ 1 ∧ (outlier_removal = false → k = 0) ∧
       cv_stdout st' = cv_stdout st ++ concat (replicate k banner).
Proof.
  destruct split as [train_index test_index]. unfold cv_fold. intros Hrun.
  apply bind_inv in Hrun as (X_train & st1 & [_ ->]%lift_inv & Hrun).
  apply bind_inv in Hrun as (X_test & st2 & [_ ->]%lift_inv & Hrun).
  apply bind_inv in Hrun as (y_train & st3 & [_ ->]%lift_inv & Hrun).
  apply bind_inv in Hrun as (y_test & st4 & [_ ->]%lift_inv & Hrun).
  apply bind_inv in Hrun as (a & st5 & (_ & _ & Ho5)%with_world_inv & Hrun).
  apply bind_inv in Hrun as ([] & st6 & H6 & Hrun).
  injection H6 as <-.
  apply bind_inv in Hrun as (b & st7 & (_ & _ & Ho7)%with_world_inv & Hrun).
  simpl in Ho7.
  apply bind_inv in Hrun as (X_train_s & st8 & [_ ->]%lift_inv & Hrun).
  apply bind_inv in Hrun as (X_test_s & st9 & [_ ->]%lift_inv & Hrun).
  apply bind_inv in Hrun as ([a' vals] & st10 & (_ & _ & Ho10)%with_world_inv & Hrun).
  apply bind_inv in Hrun as (X_r & st11 & [_ ->]%lift_inv & Hrun).
  apply bind_inv in Hrun as ([X_o y_o] & st12 & Hout & Hrun).
  apply bind_inv in Hrun as ([f_train f_test] & st13 & Hpca & Hrun).
  apply bind_inv in Hrun as (fit_clf & st14 & (_ & _ & Ho14)%with_world_inv & Hrun).
  apply bind_inv in Hrun as (y_pred & st15 & (_ & _ & Ho15)%with_world_inv & Hrun).
  injection Hrun as <- <-.
  split; [rewrite length_app; simpl; lia|].
  assert (Ho13 : cv_stdout st13 = cv_stdout st12).
  { destruct pca as [p|].
    - apply bind_inv in Hpca as (pa & st16 & (_ & _ & Ho16)%with_world_inv & Hpca).
      apply bind_inv in Hpca as (pb & st17 & (_ & _ & Ho17)%with_world_inv & Hpca).
      injection Hpca as _ _ <-. congruence.
    - by injection Hpca as _ _ <-. }
  assert (Ho12 : ∃ k, k ≤ 1 ∧ (outlier_removal = false → k = 0) ∧
                      cv_stdout st12 = cv_stdout st10 ++ concat (replicate k banner)).
  { destruct outlier_removal.
    - destruct (removeOutliers_val X_r (series_of_array vals "Class")) as [r out] eqn:Hval.
      apply bind_inv in Hout as ([] & st16 & Hemit & Hout).
      injection Hemit as <-. apply lift_inv in Hout as [_ ->]. simpl.
      destruct (removeOutliers_val_out _ _ _ _ Hval) as [-> | ->].
      + exists 0. split; [lia|]. split; [done|]. done.
      + exists 1. split; [lia|]. split; [done|]. simpl cv_stdout.
        change (concat (replicate 1 (@banner F))) with (@banner F ++ []).
        by rewrite app_nil_r.
    - injection Hout as _ _ <-. exists 0. split; [lia|]. split; [done|].
      simpl. by rewrite app_nil_r. }
  destruct Ho12 as (k & Hk & Hnone & Ho12).
  exists k. split; [done|]. split; [done|].
  rewrite Ho15, Ho14, Ho13, Ho12, Ho10, Ho7, Ho5. done.
Qed.

Lemma replicate_banner_app k1 k2 :
  concat (replicate k1 (@banner F)) ++ concat (replicate k2 banner)
  = concat (replicate (k1 + k2) banner).
Proof. by rewrite replicate_add, concat_app. Qed.

Lemma folds_print clf X y scaler resampler (outlier_removal : bool) pca
    (splits : list (list nat * list nat)) (scores : list (Score F)) st scores' st' :
  for_acc splits scores (cv_fold clf X y scaler resampler outlier_removal pca) st
    = (Ok scores', st') →
  length scores' = length scores + length splits ∧
  ∃ k, k ≤ length splits ∧ (outlier_removal = false → k = 0) ∧
       cv_stdout st' = cv_stdout st ++ concat (replicate k banner).
Proof.
  revert scores st. induction splits as [|split splits IH]; intros scores st Hrun.
  - injection Hrun as <- <-. split; [simpl; lia|].
    exists 0. simpl. rewrite app_nil_r. split; [lia|]. by split.
  - simpl in Hrun. apply bind_inv in Hrun as (sc1 & st1 & Hfold & Hrun).
    apply cv_fold_prints in Hfold as (Hlen1 & k1 & Hk1 & Hnone1 & Hout1).
    apply IH in Hrun as (Hlen2 & k2 & Hk2 & Hnone2 & Hout2).
    split; [simpl; lia|].
    exists (k1 + k2). split; [simpl; lia|]. split.
    + intros Hno. rewrite (Hnone1 Hno), (Hnone2 Hno). done.
    + rewrite Hout2, Hout1, <- app_assoc. by rewrite replicate_banner_app.
Qed.

Lemma print_split_run (sn : Score F * Z) st :
  ∃ l1 l2 l3 l4, print_split sn st = (Ok tt, cv_printed [l1; l2; l3; l4] st).
Proof.
  destruct sn as [i n]. eexists _, _, _, _. unfold print_split, cv_printed. simpl.
  unfold cv_print, modify, mbind, M_bind, bind. simpl.
  by rewrite <- !app_assoc.
Qed.

Lemma cv_printed_app outs1 outs2 (st : CVState) :
  cv_printed outs2 (cv_printed outs1 st) = cv_printed (outs1 ++ outs2) st.
Proof. unfold cv_printed. simpl. by rewrite app_assoc. Qed.

Lemma print_splits_run (l : list (Score F * Z)) st :
  ∃ outs, for_ l print_split st = (Ok tt, cv_printed outs st) ∧
          length outs = 4 * length l.
Proof.
  revert st. induction l as [|sn l IH]; intros st.
  - exists []. split; [|done]. unfold cv_printed. simpl. rewrite app_nil_r. by destruct st.
  - destruct (print_split_run sn st) as (l1 & l2 & l3 & l4 & Hp).
    destruct (IH (cv_printed [l1; l2; l3; l4] st)) as (outs & Hrest & Hlen).
    exists ([l1; l2; l3; l4] ++ outs). simpl.
    erewrite bind_ok; [|exact Hp]. rewrite Hrest, cv_printed_app. split; [done|].
    simpl. lia.
Qed.

(** What a returning run of [customCV] has printed. *)
Lemma customCV_output clf X y scaler resampler (outlier_removal : bool) pca
    (print_splits : bool) (st : CVState) score st' :
  customCV clf X y scaler resampler outlier_removal pca print_splits st
    = (Ok score, st') →
  ∃ k report,
    cv_stdout st' = cv_stdout st ++ concat (replicate k banner) ++ report ∧
    k ≤ length (skf_split X y) ∧
    (outlier_removal = false → k = 0) ∧
    length report = if print_splits
                    then 4 * (length (skf_split X y) `min` 5) + 4
                    else 0.
Proof.
  unfold customCV. intros Hrun.
  apply bind_inv in Hrun as (fs & st1 & Hfolds & Hrun).
  apply folds_print in Hfolds as (Hfs & k & Hk & Hnone & Hout1).
  simpl in Hfs. exists k.
  destruct print_splits.
  - destruct (print_splits_run (zip fs [1; 2; 3; 4; 5]%Z) st1) as (outs & Hp & Hlen_outs).
    rewrite (bind_ok _ _ _ _ _ Hp) in Hrun.
    apply bind_inv in Hrun as ([] & st3 & Hmeans & Hrun).
    injection Hrun as _ <-.
    unfold mbind, M_bind, bind, cv_print, modify in Hmeans. simpl in Hmeans.
    injection Hmeans as <-. simpl.
    eexists (outs ++ [_; _; _; _]). rewrite Hout1, <- !app_assoc. simpl.
    split; [reflexivity|]. split; [done|]. split; [done|].
    rewrite length_app, Hlen_outs, length_zip, Hfs. simpl. lia.
  - apply bind_inv in Hrun as ([] & st2 & Hnop & Hrun).
    injection Hnop as <-.
    apply bind_inv in Hrun as ([] & st3 & Hnop & Hrun).
    injection Hnop as <-. injection Hrun as _ <-.
    exists []. by rewrite app_nil_r.
Qed.

(** X8. Whenever [customCV] returns, what it has printed is, first, the three
    lines of the outlier diagnostic at most once per fold (never without
    [outlier_removal]), and then the report: nothing without [print_splits];
    with it, four lines for each of the first five folds followed by the four
    lines of the means. *)
Theorem customCV_prints_diagnostics_then_report
    clf X y scaler resampler (outlier_removal : bool) pca
    (print_splits : bool) (st : CVState) score st' :
  customCV clf X y scaler resampler outlier_removal pca print_splits st
    = (Ok score, st') →
  ∃ k report,
    cv_stdout st' = cv_stdout st ++ concat (replicate k banner) ++ report ∧
    k ≤ length (skf_split X y) ∧
    (outlier_removal = false → k = 0) ∧
    length report = if print_splits
                    then 4 * (length (skf_split X y) `min` 5) + 4
                    else 0.
Proof. apply customCV_output. Qed.

Lemma cv_fold_scores_test_rows clf X y scaler resampler outlier_removal pca
    scores split st scores' st' :
  cv_fold clf X y scaler resampler outlier_removal pca scores split st
    = (Ok scores', st') →
  ∃ s, scores' = scores ++ [s] ∧ scored_on_test_rows X y scaler pca split s.
Proof.
  destruct split as [train_index test_index]. unfold cv_fold. intros Hrun.
  apply bind_inv in Hrun as (X_train & st1 & [H1 ->]%lift_inv & Hrun).
  apply bind_inv in Hrun as (X_test & st2 & [H2 ->]%lift_inv & Hrun).
  apply bind_inv in Hrun as (y_train & st3 & [H3 ->]%lift_inv & Hrun).
  apply bind_inv in Hrun as (y_test & st4 & [H4 ->]%lift_inv & Hrun).
  apply bind_inv in Hrun as (a & st5 & (Ha & Hw5 & _)%with_world_inv & Hrun).
  apply bind_inv in Hrun as ([] & st6 & H6 & Hrun).
  injection H6 as <-.
  apply bind_inv in Hrun as (b & st7 & (Hb & Hw7 & _)%with_world_inv & Hrun).
  simpl in Hb. rewrite Hw5 in Hb.
  apply bind_inv in Hrun as (X_train_s & st8 & [H8 ->]%lift_inv & Hrun).
  apply bind_inv in Hrun as (X_test_s & st9 & [H9 ->]%lift_inv & Hrun).
  apply bind_inv in Hrun as ([a' vals] & st10 & _ & Hrun).
  apply bind_inv in Hrun as (X_r & st11 & _ & Hrun).
  apply bind_inv in Hrun as ([X_o y_o] & st12 & _ & Hrun).
  apply bind_inv in Hrun as ([f_train f_test] & st13 & Hpca & Hrun).
  apply bind_inv in Hrun as (fit_clf & st14 & _ & Hrun).
  apply bind_inv in Hrun as (y_pred & st15 & (Hp & _ & _)%with_world_inv & Hrun).
  injection Hrun as <- <-.
  eexists. split; [reflexivity|].
  destruct pca as [p|].
  - apply bind_inv in Hpca as (pa & st16 & _ & Hpca).
    apply bind_inv in Hpca as (pb & st17 & (Hpb & _ & _)%with_world_inv & Hpca).
    injection Hpca as <- <- <-.
    exists X_train, X_test, y_test, X_test_s, (world st), (world st16), fit_clf, (world st14).
    simpl. rewrite <- Hb, <- Hpb, <- Hp. by repeat split.
  - injection Hpca as <- <- <-.
    exists X_train, X_test, y_test, X_test_s, (world st), (world st), fit_clf, (world st14).
    simpl. rewrite <- Hb, <- Hp. by repeat split.
Qed.

Lemma folds_score_test_rows clf X y scaler resampler outlier_removal pca
    (splits : list (list nat * list nat)) scores st scores' st' :
  for_acc splits scores (cv_fold clf X y scaler resampler outlier_removal pca) st
    = (Ok scores', st') →
  ∃ new, scores' = scores ++ new ∧
         Forall2 (scored_on_test_rows X y scaler pca) splits new.
Proof.
  revert scores st. induction splits as [|split splits IH]; intros scores st Hrun.
  - injection Hrun as <- <-. exists []. by rewrite app_nil_r.
  - simpl in Hrun. apply bind_inv in Hrun as (sc1 & st1 & Hfold & Hrun).
    apply cv_fold_scores_test_rows in Hfold as (s & -> & Hs).
    apply IH in Hrun as (new & -> & Hall).
    exists (s :: new). split; [by rewrite <- app_assoc | by constructor].
Qed.

(** X9. Whenever [customCV] returns, what it returns are the means of one
    score per fold, and the score of a fold compares the labels at the fold's
    test positions, as they are in [y], with predictions for the rows at the
    test positions as transformed by the scaler fitted on the fold's training
    rows (and by the reducer, if one is given): the test rows are neither
    resampled nor filtered for outliers. *)
Theorem customCV_scores_each_fold_on_its_test_rows
    clf X y scaler resampler outlier_removal pca print_splits
    (st : CVState) score st' :
  customCV clf X y scaler resampler outlier_removal pca print_splits st
    = (Ok score, st') →
  ∃ fold_scores,
    Forall2 (scored_on_test_rows X y scaler pca) (skf_split X y) fold_scores ∧
    score = (np_mean (map recall_of fold_scores),
             np_mean (map precision_of fold_scores),
             np_mean (map f1_of fold_scores)).
Proof.
  unfold customCV. intros Hrun.
  apply bind_inv in Hrun as (fs & st1 & Hfolds & Hrun).
  apply folds_score_test_rows in Hfolds as (new & -> & Hall).
  simpl in Hrun. exists new. split; [done|].
  apply bind_inv in Hrun as ([] & st2 & _ & Hrun).
  apply bind_inv in Hrun as ([] & st3 & _ & Hrun).
  by injection Hrun as <- _.
Qed.

End FoldOutput.

(** ** Grids the loops do not cover *)

Section GridEdges.
Context {F : Type} `{FloatOps F} `{Collaborators F}.
Variables (clf : ClfClass) (param_grid : gmap string (list HyperValue))
          (X : DataFrame F) (y : Series)
          (scaler : ScalerObj) (resampler : ResamplerObj)
          (outlier_removal : bool) (pca : option PcaObj).

Local Abbreviation keys := (param_keys param_grid).
Local Abbreviation n := (len_ param_grid).
Local Abbreviation nest_ := (nest clf param_grid X y scaler resampler outlier_removal pca).
Local Abbreviation lists := (candidate_lists param_grid).
Local Abbreviation search := (customGridSearchCV clf param_grid X y).

(** What the scoring branches do with no scores at all. *)
Lemma select_f1_run (st : GSState) :
  select_result "f1" resampler outlier_removal pca st =
  match py_max (map f1_of (dict_values (scores st))) with
  | Raise e => (Raise e, st)
  | Ok max_score =>
      if existsb (fun k => match dict_get k (scores st) with
                           | Some s => feq (f1_of s) max_score
                           | None => false
                           end) (dict_keys (scores st))
      then (Raise (NameError "scaler_str"), st)
      else (Ok RNone, st)
  end.
Proof.
  unfold select_result.
  rewrite (bind_ok get _ st st st eq_refl).
  change (bool_decide ("f1" = "all")) with false. cbv iota.
  rewrite (bind_ok (ret None) _ st None st eq_refl).
  change (bool_decide ("f1" = "custom")) with false.
  change (bool_decide ("f1" = "recall")) with false.
  change (bool_decide ("f1" = "precision")) with false.
  change (bool_decide ("f1" = "f1")) with true. cbv iota.
  match goal with
  | |- context [py_max ?l] => destruct (py_max l) as [m|e] eqn:Hmax
  end.
  - rewrite (bind_ok _ _ st m st) by done.
    unfold return_best. unfold mbind at 1, M_bind, bind.
    rewrite (return_best_run resampler outlier_removal pca (scores st) f1_of m) by done.
    by destruct (existsb _ _).
  - by apply bind_raise.
Qed.

Lemma select_other_run (scoring : string) (st : GSState) :
  scoring ∉ ["all"; "custom"; "recall"; "precision"; "f1"] →
  select_result scoring resampler outlier_removal pca st = (Ok RNone, st).
Proof.
  intros Hs. unfold select_result.
  rewrite (bind_ok get _ st st st eq_refl).
  rewrite !bool_decide_eq_false_2; [done| | | | |];
    intros ->; apply Hs; rewrite !elem_of_cons; auto 10.
Qed.

Lemma select_result_empty (scoring : string) (st : GSState) :
  scores st = [] →
  select_result scoring resampler outlier_removal pca st =
  (if bool_decide (scoring = "custom") then Ok (RScores [])
   else if bool_decide (scoring ∈ ["recall"; "f1"]) then Raise ValueError
   else if bool_decide (scoring = "precision")
        then Raise (UnboundLocalError "max_score")
        else Ok RNone, st).
Proof.
  intros Hsc.
  destruct (decide (scoring = "custom")) as [->|Hc].
  { rewrite select_custom_run, Hsc. unfold custom_lines. simpl.
    by rewrite gs_printed_nil. }
  destruct (decide (scoring = "recall")) as [->|Hr].
  { rewrite select_recall_run, Hsc. done. }
  destruct (decide (scoring = "f1")) as [->|Hf].
  { rewrite select_f1_run, Hsc. done. }
  destruct (decide (scoring = "precision")) as [->|Hp].
  { by rewrite select_precision_run. }
  destruct (decide (scoring = "all")) as [->|Ha].
  { rewrite select_all_run, Hsc. done. }
  rewrite select_other_run by (rewrite !elem_of_cons, elem_of_nil; tauto).
  rewrite (bool_decide_eq_false_2 (scoring = "custom")) by done.
  rewrite (bool_decide_eq_false_2 (scoring = "precision")) by done.
  rewrite (bool_decide_eq_false_2 (scoring ∈ _))
    by (rewrite !elem_of_cons, elem_of_nil; tauto).
  done.
Qed.

(** Loops that never reach their [if len_ == ...]. *)
Lemma for_skips {A} (values : list A) (body : A → M GSState unit) :
  (∀ v st, ∃ cp', body v st =
     (Ok tt, {| gs_cv := gs_cv st; current_params := cp'; scores := scores st |})) →
  ∀ st, ∃ cp', for_ values body st =
     (Ok tt, {| gs_cv := gs_cv st; current_params := cp'; scores := scores st |}).
Proof.
  intros Hbody. induction values as [|v vs IH]; intros st.
  - exists (current_params st). by destruct st.
  - destruct (Hbody v st) as (cp1 & Hv). simpl.
    rewrite (bind_ok _ _ _ _ _ Hv).
    destruct (IH {| gs_cv := gs_cv st; current_params := cp1; scores := scores st |})
      as (cp2 & Hrest).
    by exists cp2.
Qed.

Lemma nest_skips loops level (st : GSState) :
  level + loops < n →
  ∃ cp', nest_ loops level st =
     (Ok tt, {| gs_cv := gs_cv st; current_params := cp'; scores := scores st |}).
Proof.
  revert level st. induction loops as [|loops IH]; intros level st Hlt.
  - exists (current_params st). by destruct st.
  - assert (Hlevel : level < length keys) by (unfold len_ in Hlt; lia).
    destruct (lookup_lt_is_Some_2 keys level Hlevel) as [k Hk].
    destruct (candidates_at param_grid level k Hk) as (values & Hgrid & _).
    simpl. unfold key_at, candidates. rewrite Hk. simpl.
    rewrite (bind_ok (ret k) _ st k st eq_refl).
    rewrite Hgrid. simpl.
    rewrite (bind_ok (ret values) _ st values st eq_refl).
    apply for_skips. intros v st0.
    rewrite (bind_ok (set_current k v) _ st0 tt _ eq_refl). simpl.
    rewrite bool_decide_eq_false_2 by lia.
    destruct (IH (S level)
                {| gs_cv := gs_cv st0;
                   current_params := dict_set k v (current_params st0);
                   scores := scores st0 |} ltac:(lia)) as (cp' & Hrun).
    by exists cp'.
Qed.

(** X10. With no name in the grid, [param_keys[0]] is an IndexError, whatever
    the scoring: nothing has been evaluated or printed. *)
Theorem empty_grid_raises_IndexError (scoring : string) (cv : CVState) :
  size param_grid = 0 →
  search scoring scaler resampler outlier_removal pca cv = (Raise IndexError, cv).
Proof.
  intros Hsize. apply map_size_empty_inv in Hsize. rewrite Hsize.
  by rewrite customGridSearchCV_run.
Qed.

(** X11. With more than five names the five loops never reach an evaluation:
    the model class is not instantiated, the state is as before, and the
    scoring branch runs on an empty dictionary: "custom" returns it, "recall"
    and "f1" raise ValueError on the maximum of nothing, "precision" raises
    UnboundLocalError, and anything else returns None. *)
Theorem more_than_five_names_evaluates_nothing (scoring : string) (cv : CVState) :
  5 < size param_grid →
  search scoring scaler resampler outlier_removal pca cv =
  (if bool_decide (scoring = "custom") then Ok (RScores [])
   else if bool_decide (scoring ∈ ["recall"; "f1"]) then Raise ValueError
   else if bool_decide (scoring = "precision")
        then Raise (UnboundLocalError "max_score")
        else Ok RNone, cv).
Proof.
  intros H5. rewrite <- len_size in H5.
  rewrite customGridSearchCV_run.
  change (enumerate_grid clf param_grid X y scaler resampler outlier_removal pca)
    with (nest_ 5 0).
  destruct (nest_skips 5 0 {| gs_cv := cv; current_params := []; scores := [] |}
              ltac:(simpl; lia)) as (cp' & ->).
  by rewrite select_result_empty.
Qed.

Lemma cartesian_empty (ls : list (list HyperValue)) :
  [] ∈ ls → cartesian ls = [].
Proof.
  induction ls as [|l ls IH]; [by intros ?%elem_of_nil|].
  intros [<-|Hin]%elem_of_cons; [done|].
  simpl. rewrite IH by done. clear. induction l; simpl; auto.
Qed.

(** The enumeration as a run of the interpreter state. *)
Lemma enumerate_grid_run (cv : CVState) :
  1 ≤ size param_grid → size param_grid ≤ 5 →
  agrees (current_ok param_grid [])
    (enumerate_grid clf param_grid X y scaler resampler outlier_removal pca
       {| gs_cv := cv; current_params := []; scores := [] |})
    (evaluate_all clf X y scaler resampler outlier_removal pca
       (combinations param_grid) [] cv).
Proof.
  intros H1 H5. rewrite <- len_size in H1, H5.
  change (enumerate_grid clf param_grid X y scaler resampler outlier_removal pca)
    with (nest_ 5 0).
  rewrite <- combos_from_start.
  apply (nest_agrees clf param_grid X y scaler resampler outlier_removal pca
           5 0 [] {| gs_cv := cv; current_params := []; scores := [] |});
    try done; try lia.
  exists []. split; [by destruct keys | simpl; lia].
Qed.

(** X12. With at most five names, one of which has no candidate value, there
    is no combination: nothing is evaluated and the call ends as on an empty
    dictionary of scores. *)
Theorem empty_candidate_list_evaluates_nothing (scoring k : string) (cv : CVState) :
  size param_grid ≤ 5 → param_grid !! k = Some [] →
  search scoring scaler resampler outlier_removal pca cv =
  (if bool_decide (scoring = "custom") then Ok (RScores [])
   else if bool_decide (scoring ∈ ["recall"; "f1"]) then Raise ValueError
   else if bool_decide (scoring = "precision")
        then Raise (UnboundLocalError "max_score")
        else Ok RNone, cv).
Proof.
  intros H5 Hk.
  assert (H1 : 1 ≤ size param_grid).
  { rewrite <- len_size. unfold len_.
    assert (Hin : k ∈ keys) by (apply param_keys_elem; eauto).
    destruct keys; [by apply elem_of_nil in Hin | simpl; lia]. }
  pose proof (enumerate_grid_run cv H1 H5) as Hag.
  assert (Hnone : combinations param_grid = []).
  { unfold combinations. rewrite cartesian_empty; [done|].
    unfold candidate_lists. apply list_elem_of_fmap. exists k.
    split; [by rewrite Hk | apply param_keys_elem; eauto]. }
  rewrite Hnone in Hag. simpl in Hag. destruct Hag as (cp' & Hrun & _).
  rewrite customGridSearchCV_run, Hrun.
  by rewrite select_result_empty.
Qed.

End GridEdges.

(** ** The scoring branches on every grid *)

Lemma add_keys_NoDup_acc (acc ks : list string) :
  NoDup acc → NoDup (foldl add_key acc ks).
Proof.
  revert acc. induction ks as [|k ks IH]; intros acc Hnd; simpl; [done|].
  apply IH. unfold add_key. case_bool_decide; [done|].
  apply NoDup_app. split; [done|]. split.
  - intros x Hx [->|[]%elem_of_nil]%elem_of_cons. done.
  - apply NoDup_singleton.
Qed.

Lemma dict_get_NoDup {V} (d : list (string * V)) k v :
  NoDup (dict_keys d) → (k, v) ∈ d → dict_get k d = Some v.
Proof.
  induction d as [|[k' v'] d IH]; simpl; [by intros _ ?%elem_of_nil|].
  intros [Hk' Hnd]%NoDup_cons [Heq|Hin]%elem_of_cons.
  - injection Heq as -> ->. by rewrite bool_decide_eq_true_2.
  - rewrite bool_decide_eq_false_2; [by apply IH|].
    intros ->. apply Hk'. unfold dict_keys.
    change k with (fst (k, v)). by apply list_elem_of_fmap_2.
Qed.

Lemma dict_values_set {V} (P : V → Prop) k v (d : list (string * V)) :
  Forall P (dict_values d) → P v → Forall P (dict_values (dict_set k v d)).
Proof.
  intros Hd Hv. induction d as [|[k' v'] d IH]; simpl.
  - by constructor.
  - apply Forall_cons in Hd as [Hv' Hd].
    case_bool_decide; simpl; constructor; auto.
Qed.

Lemma py_max_elem {F} `{FloatOps F} (l : list F) m : py_max l = Ok m → m ∈ l.
Proof.
  destruct l as [|x rest]; [done|]. simpl. intros Heq. injection Heq as <-.
  assert (Hgen : ∀ best, foldl (fun best item => if fgt item best then item else best)
                           best rest ∈ best :: rest).
  { induction rest as [|item rest IH]; intros best; simpl; [by left|].
    destruct (fgt item best).
    - right. apply IH.
    - specialize (IH best). apply elem_of_cons in IH as [Heq|Hin].
      + rewrite Heq. by left.
      + by do 2 right. }
  apply Hgen.
Qed.

Lemma py_sorted_elem (l : list string) k : k ∈ py_sorted l ↔ k ∈ l.
Proof. unfold py_sorted. by rewrite merge_sort_Permutation. Qed.

Lemma py_sorted_length (l : list string) : length (py_sorted l) = length l.
Proof. unfold py_sorted. by rewrite merge_sort_Permutation. Qed.

Lemma StronglySorted_filter {A} (R : relation A) (P : A → Prop)
    `{∀ x, Decision (P x)} (l : list A) :
  StronglySorted R l → StronglySorted R (filter P l).
Proof.
  induction 1 as [|x l Hl IH Hx]; [constructor|].
  rewrite filter_cons. destruct (decide (P x)); [|done].
  constructor; [done|].
  apply Forall_forall. intros z [_ Hz]%list_elem_of_filter.
  by eapply Forall_forall in Hx.
Qed.

Section GridRuns.
Context {F : Type} `{FloatOps F} `{Collaborators F}.
Variables (clf : ClfClass) (param_grid : gmap string (list HyperValue))
          (X : DataFrame F) (y : Series)
          (scaler : ScalerObj) (resampler : ResamplerObj)
          (outlier_removal : bool) (pca : option PcaObj).

Local Abbreviation evaluate_ := (evaluate clf X y scaler resampler outlier_removal pca).
Local Abbreviation evaluate_all_ := (evaluate_all clf X y scaler resampler outlier_removal pca).
Local Abbreviation search := (customGridSearchCV clf param_grid X y).
Local Abbreviation returns := (cv_returns X y scaler resampler outlier_removal pca).
Local Abbreviation rendered := (map (py_str_dict py_repr) (combinations param_grid)).

Lemma combinations_length :
  length (combinations param_grid) = candidate_product param_grid.
Proof. unfold combinations, candidate_product. by rewrite length_map, cartesian_length. Qed.

Lemma rendered_nonempty :
  0 < candidate_product param_grid → ∃ key, key ∈ rendered.
Proof.
  rewrite <- combinations_length.
  destruct (combinations param_grid) as [|c cs]; simpl; [lia|].
  intros _. eexists. by left.
Qed.

(** The enumeration when the fold evaluator returns. *)
Lemma enumerate_grid_returns (cv : CVState) :
  1 ≤ size param_grid → size param_grid ≤ 5 → returns →
  ∃ sc cv' cp',
    enumerate_grid clf param_grid X y scaler resampler outlier_removal pca
      {| gs_cv := cv; current_params := []; scores := [] |}
    = (Ok tt, {| gs_cv := cv'; current_params := cp'; scores := sc |}) ∧
    evaluate_all_ (combinations param_grid) [] cv = (Ok sc, cv') ∧
    grid_scores clf param_grid X y scaler resampler outlier_removal pca cv = (Ok sc, cv') ∧
    clf_calls cv' = clf_calls cv ++ combinations param_grid ∧
    dict_keys sc = foldl add_key [] rendered.
Proof.
  intros H1 H5 Hret.
  pose proof (enumerate_grid_run clf param_grid X y scaler resampler outlier_removal
                pca cv H1 H5) as Hag.
  destruct (evaluate_all_returns clf X y scaler resampler outlier_removal pca
              (combinations param_grid) [] cv Hret)
    as (sc & cv' & Hrun & Hcalls & _ & Hkeys).
  rewrite Hrun in Hag. destruct Hag as (cp' & Hnest & _).
  exists sc, cv', cp'. repeat split; try done.
  unfold grid_scores. by rewrite Hnest.
Qed.

Lemma evaluate_inv kwargs cv s cv' :
  evaluate_ kwargs cv = (Ok s, cv') →
  ∃ clf_obj cv0,
    customCV clf_obj X y scaler resampler outlier_removal pca false cv0 = (Ok s, cv').
Proof.
  unfold evaluate. intros Hrun.
  apply bind_inv in Hrun as ([] & cv1 & _ & Hrun).
  apply bind_inv in Hrun as (clf_obj & cv2 & _ & Hrun).
  eauto.
Qed.

Lemma evaluate_all_values (P : Score F → Prop) combos sc cv sc' cv' :
  (∀ clf_obj cv0 s cv1,
     customCV clf_obj X y scaler resampler outlier_removal pca false cv0 = (Ok s, cv1) →
     P s) →
  Forall P (dict_values sc) →
  evaluate_all_ combos sc cv = (Ok sc', cv') →
  Forall P (dict_values sc').
Proof.
  intros HP. revert sc cv. induction combos as [|kw combos IH]; intros sc cv Hsc Hrun.
  - by injection Hrun as <- <-.
  - simpl in Hrun. apply bind_inv in Hrun as (s & cv1 & Hs & Hrun).
    apply (IH _ _ (dict_values_set P _ s sc Hsc
                     ltac:(destruct (evaluate_inv _ _ _ _ Hs) as (? & ? & ?); eauto)) Hrun).
Qed.

(** X13. A scoring that is none of "all", "custom", "recall", "precision" and
    "f1" is not rejected: every combination is evaluated, then the call
    returns None and the scores are lost. *)
Theorem unknown_scoring_returns_None (scoring : string) (cv : CVState) :
  scoring ∉ ["all"; "custom"; "recall"; "precision"; "f1"] →
  1 ≤ size param_grid → size param_grid ≤ 5 → returns →
  ∃ cv',
    search scoring scaler resampler outlier_removal pca cv = (Ok RNone, cv') ∧
    snd (grid_scores clf param_grid X y scaler resampler outlier_removal pca cv) = cv' ∧
    clf_calls cv' = clf_calls cv ++ combinations param_grid.
Proof.
  intros Hs H1 H5 Hret.
  destruct (enumerate_grid_returns cv H1 H5 Hret)
    as (sc & cv' & cp' & Hrun & _ & Hgrid & Hcalls & _).
  exists cv'. rewrite customGridSearchCV_run, Hrun, Hgrid.
  by rewrite (select_other_run resampler outlier_removal pca scoring _ Hs).
Qed.

(** X14. Scoring "recall" and scoring "f1" end alike on every grid of one to
    five names with at least one combination, when [customCV] returns and
    returns numbers: every combination is evaluated, and then the first key
    whose score equals the maximum reaches the [print] that reads
    [scaler_str], a NameError. *)
Theorem best_score_scoring_raises_NameError (scoring : string) (cv : CVState) :
  scoring = "recall" ∨ scoring = "f1" →
  1 ≤ size param_grid → size param_grid ≤ 5 → returns →
  scores_are_numbers X y scaler resampler outlier_removal pca →
  0 < candidate_product param_grid →
  ∃ cv',
    search scoring scaler resampler outlier_removal pca cv
      = (Raise (NameError "scaler_str"), cv') ∧
    snd (grid_scores clf param_grid X y scaler resampler outlier_removal pca cv) = cv' ∧
    clf_calls cv' = clf_calls cv ++ combinations param_grid.
Proof.
  intros Hs H1 H5 Hret Hnum Hpos.
  destruct (enumerate_grid_returns cv H1 H5 Hret)
    as (sc & cv' & cp' & Hrun & Hflat & Hgrid & Hcalls & Hkeys).
  exists cv'. rewrite customGridSearchCV_run, Hrun, Hgrid.
  split; [|done].
  assert (Hnd : NoDup (dict_keys sc)).
  { rewrite Hkeys. apply add_keys_NoDup_acc, NoDup_nil_2. }
  assert (Hvals : Forall (fun s => feq (recall_of s) (recall_of s) = true ∧
                                   feq (f1_of s) (f1_of s) = true) (dict_values sc)).
  { eapply (evaluate_all_values _ _ [] cv sc cv'); [exact Hnum | constructor | exact Hflat]. }
  assert (Hne : sc ≠ []).
  { intros ->. destruct (rendered_nonempty Hpos) as (key & Hin).
    assert (Hin' : key ∈ foldl add_key [] rendered) by (apply add_keys_elem; by right).
    rewrite <- Hkeys in Hin'. by apply elem_of_nil in Hin'. }
  assert (Hfind : ∀ (component : Score F → F) m,
    (∀ s, s ∈ dict_values sc → feq (component s) (component s) = true) →
    m ∈ map component (dict_values sc) →
    existsb (fun k => match dict_get k sc with
                      | Some s => feq (component s) m
                      | None => false
                      end) (dict_keys sc) = true).
  { intros component m Hrefl (s & -> & Hin)%list_elem_of_fmap.
    apply list_elem_of_fmap in Hin as ([k s'] & -> & Hks).
    apply existsb_exists. exists k. split.
    - apply list_elem_of_In. unfold dict_keys.
      change k with (fst (k, s')). by apply list_elem_of_fmap_2.
    - rewrite (dict_get_NoDup sc k s' Hnd Hks). apply Hrefl.
      unfold dict_values. change s' with (snd (k, s')) at 1.
      by apply list_elem_of_fmap_2. }
  destruct Hs as [-> | ->].
  - rewrite select_recall_run. simpl.
    destruct (py_max (map recall_of (dict_values sc))) as [m|e] eqn:Hmax.
    + rewrite (Hfind recall_of m); [done| |by apply py_max_elem].
      intros s Hin. eapply Forall_forall in Hvals; [|done]. tauto.
    + destruct sc as [|? ?]; [done | discriminate Hmax].
  - rewrite select_f1_run. simpl.
    destruct (py_max (map f1_of (dict_values sc))) as [m|e] eqn:Hmax.
    + rewrite (Hfind f1_of m); [done| |by apply py_max_elem].
      intros s Hin. eapply Forall_forall in Hvals; [|done]. tauto.
    + destruct sc as [|? ?]; [done | discriminate Hmax].
Qed.

(** X15. Scoring "all" on a grid of one to five names with at least one
    combination, when [customCV] returns: the call returns the whole
    dictionary of scores after printing one line, that of the first key in
    sorted order. *)
Theorem all_scoring_returns_after_first_line (cv : CVState) :
  1 ≤ size param_grid → size param_grid ≤ 5 → returns →
  0 < candidate_product param_grid →
  ∃ sc cv' key s rest,
    grid_scores clf param_grid X y scaler resampler outlier_removal pca cv = (Ok sc, cv') ∧
    py_sorted (dict_keys sc) = key :: rest ∧
    dict_get key sc = Some s ∧
    search "all" scaler resampler outlier_removal pca cv
      = (Ok (RScores sc),
         cv_printed [scores_line [AStr newline; AStr key] " recall" s] cv').
Proof.
  intros H1 H5 Hret Hpos.
  destruct (enumerate_grid_returns cv H1 H5 Hret)
    as (sc & cv' & cp' & Hrun & Hflat & Hgrid & Hcalls & Hkeys).
  destruct (py_sorted (dict_keys sc)) as [|key rest] eqn:Hsorted.
  { exfalso. destruct (rendered_nonempty Hpos) as (key & Hin).
    assert (Hin' : key ∈ py_sorted (dict_keys sc)).
    { apply py_sorted_elem. rewrite Hkeys. apply add_keys_elem. by right. }
    rewrite Hsorted in Hin'. by apply elem_of_nil in Hin'. }
  assert (Hkey : is_Some (dict_get key sc)).
  { apply dict_get_is_Some, py_sorted_elem. rewrite Hsorted. by left. }
  destruct Hkey as [s Hs].
  exists sc, cv', key, s, rest. repeat split; try done.
  rewrite customGridSearchCV_run, Hrun, select_all_run. simpl.
  rewrite Hsorted. unfold Score in *. by rewrite Hs.
Qed.

(** X16. Whatever the candidates, the dictionary of scores has one entry for
    each string that some combination is written as, and no other entry: never
    more entries than the product of the candidate counts, and fewer as soon
    as two combinations are written alike. *)
Theorem score_mapping_has_one_entry_per_string (cv : CVState) :
  1 ≤ size param_grid → size param_grid ≤ 5 → returns →
  ∃ sc cv',
    grid_scores clf param_grid X y scaler resampler outlier_removal pca cv = (Ok sc, cv') ∧
    NoDup (dict_keys sc) ∧
    (∀ key, key ∈ dict_keys sc ↔ key ∈ rendered) ∧
    length sc ≤ candidate_product param_grid.
Proof.
  intros H1 H5 Hret.
  destruct (enumerate_grid_returns cv H1 H5 Hret)
    as (sc & cv' & cp' & Hrun & Hflat & Hgrid & Hcalls & Hkeys).
  assert (Hnd : NoDup (dict_keys sc)).
  { rewrite Hkeys. apply add_keys_NoDup_acc, NoDup_nil_2. }
  assert (Hel : ∀ key, key ∈ dict_keys sc ↔ key ∈ rendered).
  { intros key. rewrite Hkeys, add_keys_elem. split; [intros [[]%elem_of_nil|?]|]; auto. }
  exists sc, cv'. repeat split; try done; try apply Hel.
  rewrite <- combinations_length.
  replace (length sc) with (length (dict_keys sc)) by apply length_map.
  replace (length (combinations param_grid)) with (length rendered)
    by apply length_map.
  apply submseteq_length, NoDup_submseteq; [done|]. intros k. apply Hel.
Qed.

Lemma custom_line_key (sc : list (string * Score F)) key line :
  custom_line sc key = Some line → line_key line = Some key.
Proof.
  unfold custom_line. destruct (dict_get key sc) as [s|]; [|done]. simpl.
  destruct (passes_thresholds s); [|done]. intros Heq. by injection Heq as <-.
Qed.

Lemma custom_lines_keys (sc : list (string * Score F)) (ks : list string) :
  omap line_key (omap (custom_line sc) ks)
  = filter (fun key => is_Some (custom_line sc key)) ks.
Proof.
  induction ks as [|k ks IH]; [done|].
  rewrite filter_cons. simpl.
  destruct (custom_line sc k) as [line|] eqn:Hline.
  - rewrite decide_True by eauto. simpl.
    rewrite (custom_line_key sc k line Hline). f_equal. exact IH.
  - rewrite decide_False by (by intros [? ?]). done.
Qed.

(** X17. Scoring "custom" on a grid of one to five names, with [customCV]
    returning: after the enumeration the call prints exactly the lines of the
    keys whose stored recall is greater than 0.5 and whose stored precision is
    greater than 0.2; every line is for one key, and the keys of the lines
    are in ascending order of their strings, none twice. *)
Theorem custom_scoring_prints_keys_in_ascending_order (cv : CVState) :
  1 ≤ size param_grid → size param_grid ≤ 5 → returns →
  ∃ sc cv' outs,
    grid_scores clf param_grid X y scaler resampler outlier_removal pca cv = (Ok sc, cv') ∧
    search "custom" scaler resampler outlier_removal pca cv
      = (Ok (RScores sc), cv_printed outs cv') ∧
    (∀ line, line ∈ outs ↔
       ∃ key s, dict_get key sc = Some s ∧
                fgt (recall_of s) lit_0_5 = true ∧ fgt (precision_of s) lit_0_2 = true ∧
                line = scores_line [AStr newline; AStr key] " recall" s) ∧
    length (omap line_key outs) = length outs ∧
    StronglySorted String.le (omap line_key outs) ∧
    NoDup (omap line_key outs).
Proof.
  intros H1 H5 Hret.
  destruct (enumerate_grid_returns cv H1 H5 Hret)
    as (sc & cv' & cp' & Hrun & Hflat & Hgrid & Hcalls & Hkeys).
  exists sc, cv', (custom_lines sc).
  split; [done|].
  split; [by rewrite customGridSearchCV_run, Hrun, select_custom_run|].
  split.
  { intros line. rewrite custom_lines_elem. unfold passes_thresholds.
    split; intros (key & s & Hs & Hrest).
    - destruct Hrest as [[? ?]%andb_true_iff ->]. by exists key, s.
    - destruct Hrest as (? & ? & ->). exists key, s. by rewrite andb_true_iff. }
  unfold custom_lines. rewrite custom_lines_keys.
  split; [|split].
  - generalize (py_sorted (dict_keys sc)). intros ks.
    induction ks as [|k ks IH]; [done|].
    rewrite filter_cons. simpl.
    destruct (custom_line sc k) as [line|] eqn:Hline.
    + rewrite decide_True by eauto. simpl. by rewrite IH.
    + rewrite decide_False by (by intros [? ?]). done.
  - apply StronglySorted_filter. unfold py_sorted.
    apply StronglySorted_merge_sort; apply _.
  - apply NoDup_filter. unfold py_sorted. rewrite merge_sort_Permutation.
    rewrite Hkeys. apply add_keys_NoDup_acc, NoDup_nil_2.
Qed.

(** X18. Nothing is caught: when [customCV] raises, the call raises the same
    exception at the first combination, after instantiating the model class
    once, whatever the scoring. *)
Theorem fold_evaluator_error_stops_the_search (scoring : string) (e : PyExc)
    (cv : CVState) :
  1 ≤ size param_grid → size param_grid ≤ 5 →
  0 < candidate_product param_grid →
  (∀ clf_obj cv0, ∃ cv1,
     customCV clf_obj X y scaler resampler outlier_removal pca false cv0
       = (Raise e, cv1)) →
  ∃ cv',
    search scoring scaler resampler outlier_removal pca cv = (Raise e, cv') ∧
    clf_calls cv' = clf_calls cv ++ take 1 (combinations param_grid).
Proof.
  intros H1 H5 Hpos Hraise.
  pose proof (enumerate_grid_run clf param_grid X y scaler resampler outlier_removal
                pca cv H1 H5) as Hag.
  rewrite <- combinations_length in Hpos.
  destruct (combinations param_grid) as [|c cs] eqn:Hc; [simpl in Hpos; lia|].
  simpl in Hag. unfold evaluate at 1 in Hag.
  unfold mbind at 1 2 3, M_bind, bind, observe_clf_call, modify, with_world at 1 in Hag.
  simpl in Hag.
  destruct (clf_new clf c (world cv)) as [clf_obj w1].
  set (cv1 := {| world := w1; cv_stdout := cv_stdout cv; fold_obs := fold_obs cv;
                 clf_calls := clf_calls cv ++ [c] |}) in *.
  destruct (Hraise clf_obj cv1) as (cv2 & Hcv).
  pose proof (counts_customCV X y scaler resampler outlier_removal pca clf_obj cv1)
    as Hcount.
  rewrite Hcv in Hag, Hcount. destruct Hag as (st' & Hrun & Hst').
  exists cv2. rewrite customGridSearchCV_run, Hrun. by rewrite Hst', Hcount.
Qed.

End GridRuns.

(** ** The scores the enumeration stores *)

Lemma dict_set_fresh {V} (k : string) (v : V) (d : list (string * V)) :
  k ∉ dict_keys d → dict_set k v d = d ++ [(k, v)].
Proof.
  induction d as [|[k' v'] d IH]; simpl; [done|].
  intros Hk. apply not_elem_of_cons in Hk as [Hne Hk].
  rewrite bool_decide_eq_false_2 by done. by rewrite IH.
Qed.

Lemma dict_sets_fresh {V E} (key : E → string) (val : E → V)
    (d : list (string * V)) (l : list E) :
  NoDup (dict_keys d ++ map key l) →
  foldl (fun d e => dict_set (key e) (val e) d) d l
  = d ++ map (fun e => (key e, val e)) l.
Proof.
  revert d. induction l as [|e l IH]; intros d Hnd; simpl.
  - by rewrite app_nil_r.
  - rewrite dict_set_fresh.
    + rewrite IH; [by rewrite <- app_assoc|].
      unfold dict_keys in *. rewrite map_app, <- app_assoc. done.
    + apply NoDup_app in Hnd as (_ & Hdis & _). intros Hin.
      apply (Hdis _ Hin). by left.
Qed.

Section GridLog.
Context {F : Type} `{FloatOps F} `{Collaborators F}.
Variables (clf : ClfClass) (param_grid : gmap string (list HyperValue))
          (X : DataFrame F) (y : Series)
          (scaler : ScalerObj) (resampler : ResamplerObj)
          (outlier_removal : bool) (pca : option PcaObj).

Local Abbreviation evaluate_all_ := (evaluate_all clf X y scaler resampler outlier_removal pca).
Local Abbreviation search := (customGridSearchCV clf param_grid X y).
Local Abbreviation returns := (cv_returns X y scaler resampler outlier_removal pca).
Local Abbreviation log_of :=
  (fold_evaluator_scores clf X y scaler resampler outlier_removal pca).
Local Abbreviation key_of :=
  (fun e : list (string * HyperValue) * Score F => py_str_dict py_repr e.1).
Local Abbreviation line_of :=
  (fun e : list (string * HyperValue) * Score F =>
     scores_line [AStr newline; AStr (py_str_dict py_repr e.1)] " recall" e.2).

(** The flat evaluation stores what the fold evaluator returns, one
    combination after the other. *)
Lemma evaluate_all_log combos sc cv :
  returns →
  map fst (log_of combos cv) = combos ∧
  ∃ cv',
    evaluate_all_ combos sc cv
    = (Ok (foldl (fun d e => dict_set (key_of e) e.2 d) sc (log_of combos cv)), cv').
Proof.
  intros Hret. revert sc cv.
  induction combos as [|kw combos IH]; intros sc cv; simpl.
  - split; [done|]. by exists cv.
  - unfold evaluate at 1.
    unfold mbind at 1 2 3, M_bind, bind, observe_clf_call, modify, with_world at 1. simpl.
    destruct (clf_new clf kw (world cv)) as [clf_obj w1].
    destruct (Hret clf_obj {| world := w1; cv_stdout := cv_stdout cv;
                              fold_obs := fold_obs cv;
                              clf_calls := clf_calls cv ++ [kw] |})
      as (s & cv1 & Hcv).
    rewrite Hcv. simpl.
    destruct (IH (dict_set (py_str_dict py_repr kw) s sc) cv1) as (Hfst & cv' & Hrun).
    split; [by rewrite Hfst|]. by exists cv'.
Qed.

Lemma log_lines (sc : list (string * Score F))
    (l : list (list (string * HyperValue) * Score F)) :
  (∀ e, e ∈ l → dict_get (key_of e) sc = Some e.2) →
  omap (custom_line sc) (map key_of l)
  = map line_of
        (filter (fun e => fgt (recall_of e.2) lit_0_5 = true ∧
                          fgt (precision_of e.2) lit_0_2 = true) l).
Proof.
  induction l as [|e l IH]; intros Hget; [done|].
  assert (Hrest : omap (custom_line sc) (map key_of l)
                  = map line_of
                      (filter (fun e => fgt (recall_of e.2) lit_0_5 = true ∧
                                        fgt (precision_of e.2) lit_0_2 = true) l)).
  { apply IH. intros e' He'. apply Hget. by right. }
  rewrite filter_cons. change (map key_of (e :: l)) with (key_of e :: map key_of l).
  rewrite omap_cons, Hrest.
  unfold custom_line at 1. rewrite (Hget e) by (by left). simpl.
  unfold passes_thresholds.
  destruct (decide (fgt (recall_of e.2) lit_0_5 = true ∧
                    fgt (precision_of e.2) lit_0_2 = true)) as [[Hr Hp]|Hno].
  - by rewrite Hr, Hp.
  - destruct (fgt (recall_of e.2) lit_0_5) eqn:Hr;
      destruct (fgt (precision_of e.2) lit_0_2) eqn:Hp; simpl; try done.
    exfalso. by apply Hno.
Qed.


(** What the evaluation of a list of combinations has printed. *)
Lemma evaluate_all_output combos sc cv sc' cv' :
  evaluate_all_ combos sc cv = (Ok sc', cv') →
  ∃ k, k ≤ length combos * length (skf_split X y) ∧
       (outlier_removal = false → k = 0) ∧
       cv_stdout cv' = cv_stdout cv ++ concat (replicate k banner).
Proof.
  revert sc cv. induction combos as [|kw combos IH]; intros sc cv Hrun.
  - injection Hrun as <- <-. exists 0. simpl. rewrite app_nil_r.
    split; [lia|]. by split.
  - simpl in Hrun. apply bind_inv in Hrun as (s & cv1 & Hs & Hrun).
    apply IH in Hrun as (k2 & Hk2 & Hnone2 & Hout2).
    unfold evaluate in Hs.
    apply bind_inv in Hs as ([] & cv2 & Hobs & Hs).
    apply bind_inv in Hs as (clf_obj & cv3 & (_ & _ & Ho3)%with_world_inv & Hs).
    injection Hobs as <-. simpl in Ho3.
    apply customCV_output in Hs as (k1 & report & Hout1 & Hk1 & Hnone1 & Hreport).
    destruct report; [|done]. rewrite app_nil_r in Hout1.
    exists (k1 + k2). split; [simpl; lia|]. split.
    + intros Hno. by rewrite (Hnone1 Hno), (Hnone2 Hno).
    + rewrite Hout2, Hout1, Ho3, <- app_assoc. by rewrite replicate_banner_app.
Qed.

(** X19. On a grid of one to five names, with [customCV] returning, the
    enumeration prints nothing but outlier diagnostics, at most one for each
    fold of each combination, and nothing at all without [outlier_removal]:
    [customCV] is called without [print_splits]. *)
Theorem enumeration_prints_only_diagnostics (cv : CVState) :
  1 ≤ size param_grid → size param_grid ≤ 5 → returns →
  ∃ sc cv' k,
    grid_scores clf param_grid X y scaler resampler outlier_removal pca cv = (Ok sc, cv') ∧
    cv_stdout cv' = cv_stdout cv ++ concat (replicate k banner) ∧
    k ≤ candidate_product param_grid * length (skf_split X y) ∧
    (outlier_removal = false → k = 0).
Proof.
  intros H1 H5 Hret.
  destruct (enumerate_grid_returns clf param_grid X y scaler resampler outlier_removal
              pca cv H1 H5 Hret)
    as (sc & cv' & cp' & _ & Hflat & Hgrid & _ & _).
  apply evaluate_all_output in Hflat as (k & Hk & Hnone & Hout).
  rewrite combinations_length in Hk.
  by exists sc, cv', k.
Qed.

End GridLog.

(** ** The instance on the edges *)

Section ConcreteEdges.
Import Exact.
#[local] Existing Instance int_collaborators.

Lemma flagged_labels_of_X25 (y : Series) :
  (0 ∈ s_index y ∧ 3 ∈ s_index y)%Z →
  ∀ l, label_flagged X25 l = true → l ∈ s_index y.
Proof.
  intros [H0 H3] l Hl.
  assert (Hin : l ∈ filter (fun l => label_flagged X25 l = true) (df_index X25)).
  { apply list_elem_of_filter. split; [done|].
    apply label_flagged_true in Hl as (i & Hi & _).
    by eapply list_elem_of_lookup_2. }
  vm_compute in Hin.
  apply elem_of_cons in Hin as [->|Hin]; [done|].
  apply elem_of_cons in Hin as [->|Hin]; [done|].
  by apply elem_of_nil in Hin.
Qed.

Lemma X25_flags_in_y25 : ∀ l, label_flagged X25 l = true → l ∈ s_index y25.
Proof. apply flagged_labels_of_X25. split; vm_compute; repeat constructor. Qed.

Lemma removeOutliers_keeps_unflagged_labels_witness :
  heap heap25 !! 0 = Some (ODataFrame X25) ∧
  heap heap25 !! 1 = Some (OSeries y25) ∧
  NoDup (df_names X25) ∧
  (∀ l, label_flagged X25 l = true → l ∈ s_index y25) ∧
  ∃ rx ry st' X' y',
    removeOutliers 0 1 heap25 = (Ok (rx, ry), st') ∧
    heap st' !! rx = Some (ODataFrame X') ∧
    heap st' !! ry = Some (OSeries y') ∧
    df_index X' = filter (fun l => label_flagged X25 l = false) (df_index X25) ∧
    s_index y' = filter (fun l => label_flagged X25 l = false) (s_index y25) ∧
    (s_index y25 ≡ₚ df_index X25 →
       s_index y' ≡ₚ df_index X' ∧ s_len y' = df_len X' ∧ stdout st' = stdout heap25).
Proof.
  split; [reflexivity|]. split; [reflexivity|]. split; [exact X25_names_distinct|].
  split; [exact X25_flags_in_y25|].
  apply (removeOutliers_keeps_unflagged_labels heap25 0 1 X25 y25);
    [reflexivity | reflexivity | exact X25_names_distinct | exact X25_flags_in_y25].
Defined.

Lemma y24_lacks_label_0 : 0%Z ∉ s_index y24.
Proof.
  intros Hin. vm_compute in Hin.
  repeat (apply elem_of_cons in Hin as [Hin|Hin]; [discriminate Hin|]).
  by apply elem_of_nil in Hin.
Qed.

Lemma removeOutliers_missing_label_KeyError_witness :
  heap heap24 !! 0 = Some (ODataFrame X25) ∧
  heap heap24 !! 1 = Some (OSeries y24) ∧
  label_flagged X25 0 = true ∧ (0%Z ∉ s_index y24) ∧
  fst (removeOutliers 0 1 heap24) = Raise KeyError ∧
  stdout (snd (removeOutliers 0 1 heap24)) = stdout heap24 ∧
  length (heap (snd (removeOutliers 0 1 heap24))) = length (heap heap24) + 3.
Proof.
  split; [reflexivity|]. split; [reflexivity|]. split; [reflexivity|].
  split; [exact y24_lacks_label_0|].
  apply (removeOutliers_missing_label_KeyError heap24 0 1 X25 y24 0%Z);
    [reflexivity | reflexivity | reflexivity | exact y24_lacks_label_0].
Defined.

Lemma X3_has_no_outlier : ∀ i, row_outlier X3 i = false.
Proof. intros [|[|[|i]]]; reflexivity. Qed.

Lemma X3_shaped : frame_shaped X3.
Proof. repeat constructor. Qed.

Lemma X3_names_distinct : NoDup (df_names X3).
Proof. apply (bool_decide_unpack _). reflexivity. Qed.

Lemma removeOutliers_without_outliers_copies_witness :
  heap heap3 !! 0 = Some (ODataFrame X3) ∧
  heap heap3 !! 1 = Some (OSeries y3) ∧
  NoDup (df_names X3) ∧
  frame_shaped X3 ∧ series_shaped y3 ∧
  (∀ i, row_outlier X3 i = false) ∧
  ∃ rx ry st',
    removeOutliers 0 1 heap3 = (Ok (rx, ry), st') ∧
    heap st' !! rx = Some (ODataFrame X3) ∧
    heap st' !! ry = Some (OSeries y3) ∧
    rx ≠ 0 ∧ ry ≠ 1.
Proof.
  split; [reflexivity|]. split; [reflexivity|]. split; [exact X3_names_distinct|].
  split; [exact X3_shaped|].
  split; [reflexivity|]. split; [exact X3_has_no_outlier|].
  apply (removeOutliers_without_outliers_copies heap3 0 1 X3 y3);
    [reflexivity | reflexivity | exact X3_names_distinct | exact X3_shaped
    | reflexivity | exact X3_has_no_outlier].
Defined.

Lemma removeOutliers_keeps_order_and_values_witness :
  heap heap25 !! 0 = Some (ODataFrame X25) ∧
  heap heap25 !! 1 = Some (OSeries y25) ∧
  NoDup (df_names X25) ∧
  (∀ l, label_flagged X25 l = true → l ∈ s_index y25) ∧
  ∃ rx ry st' X' y',
    removeOutliers 0 1 heap25 = (Ok (rx, ry), st') ∧
    heap st' !! rx = Some (ODataFrame X') ∧
    heap st' !! ry = Some (OSeries y') ∧
    df_index X' `sublist_of` df_index X25 ∧
    Forall2 (fun c c' => fst c' = fst c ∧ snd c' `sublist_of` snd c)
            (df_columns X25) (df_columns X') ∧
    s_index y' `sublist_of` s_index y25 ∧
    s_values y' `sublist_of` s_values y25 ∧
    s_name y' = s_name y25.
Proof.
  split; [reflexivity|]. split; [reflexivity|]. split; [exact X25_names_distinct|].
  split; [exact X25_flags_in_y25|].
  apply (removeOutliers_keeps_order_and_values heap25 0 1 X25 y25);
    [reflexivity | reflexivity | exact X25_names_distinct | exact X25_flags_in_y25].
Defined.

Lemma X25_flags_in_y26 : ∀ l, label_flagged X25 l = true → l ∈ s_index y26.
Proof. apply flagged_labels_of_X25. split; vm_compute; repeat constructor. Qed.

Lemma removeOutliers_mismatch_is_only_printed_witness :
  heap heap26 !! 0 = Some (ODataFrame X25) ∧
  heap heap26 !! 1 = Some (OSeries y26) ∧
  NoDup (df_names X25) ∧
  (∀ l, label_flagged X25 l = true → l ∈ s_index y26) ∧
  ∃ rx ry st',
    removeOutliers 0 1 heap26 = (Ok (rx, ry), st') ∧
    stdout st' =
      stdout heap26 ++
      if bool_decide (length (filter (fun l => label_flagged X25 l = false) (df_index X25))
                      = length (filter (fun l => label_flagged X25 l = false) (s_index y26)))
      then [] else banner.
Proof.
  split; [reflexivity|]. split; [reflexivity|]. split; [exact X25_names_distinct|].
  split; [exact X25_flags_in_y26|].
  apply (removeOutliers_mismatch_is_only_printed heap26 0 1 X25 y26);
    [reflexivity | reflexivity | exact X25_names_distinct | exact X25_flags_in_y26].
Defined.

(** What the call on [X25] and the 26 labels prints. *)
Example removeOutliers_prints_the_banner :
  removeOutliers_val X25 y26
  = (Ok (df_select (map (fun l => negb (label_flagged X25 l)) (df_index X25)) X25,
         s_select (map (fun l => negb (label_flagged X25 l)) (s_index y26)) y26),
     banner).
Proof. vm_compute. reflexivity. Qed.

Lemma int_customCV_reports (cv : @CVState Q int_collaborators) :
  ∃ score cv',
    @customCV Q _ int_collaborators (0 # 1)%Q X10 y10 tt tt true None true cv
    = (Ok score, cv').
Proof.
  assert (Hok : is_ok (fst (@customCV Q _ int_collaborators (0 # 1)%Q X10 y10 tt tt
                               true None true cv)) = true) by reflexivity.
  destruct (customCV _ _ _ _ _ _ _ _ _) as [[s|e] cv']; [eauto | done].
Qed.

Lemma customCV_prints_diagnostics_then_report_witness :
  ∃ score st',
    customCV (0 # 1)%Q X10 y10 tt tt true None true (start int_collaborators [])
      = (Ok score, st') ∧
    ∃ k report,
      cv_stdout st' = cv_stdout (start int_collaborators [])
                      ++ concat (replicate k banner) ++ report ∧
      k ≤ length (skf_split X10 y10) ∧
      (true = false → k = 0) ∧
      length report = if true then 4 * (length (skf_split X10 y10) `min` 5) + 4 else 0.
Proof.
  destruct (int_customCV_reports (start int_collaborators [])) as (score & st' & Hrun).
  exists score, st'. split; [exact Hrun|].
  apply (@customCV_prints_diagnostics_then_report Q _ int_collaborators
           (0 # 1)%Q X10 y10 tt tt true None true (start int_collaborators [])
           score st' Hrun).
Defined.

Lemma enumeration_prints_only_diagnostics_witness :
  1 ≤ size grid_tu ∧ size grid_tu ≤ 5 ∧
  @cv_returns Q _ int_collaborators X10 y10 tt tt true None ∧
  ∃ sc cv' k,
    @grid_scores Q _ int_collaborators tt grid_tu X10 y10 tt tt true None
      (start int_collaborators []) = (Ok sc, cv') ∧
    cv_stdout cv' = cv_stdout (start int_collaborators [])
                    ++ concat (replicate k banner) ∧
    k ≤ @candidate_product Q int_collaborators grid_tu * length (skf_split X10 y10) ∧
    (true = false → k = 0).
Proof.
  split; [vm_compute; lia|]. split; [vm_compute; lia|].
  split; [apply int_cv_returns|].
  apply (@enumeration_prints_only_diagnostics Q _ int_collaborators
           tt grid_tu X10 y10 tt tt true None (start int_collaborators []));
    [vm_compute; lia | vm_compute; lia | apply int_cv_returns].
Defined.

Lemma empty_grid_raises_IndexError_witness :
  size (∅ : gmap string (list Z)) = 0 ∧
  @customGridSearchCV Q _ int_collaborators tt ∅ X10 y10 "custom" tt tt false None
    (start int_collaborators [])
  = (Raise IndexError, start int_collaborators []).
Proof.
  split; [reflexivity|].
  apply (@empty_grid_raises_IndexError Q _ int_collaborators
           tt ∅ X10 y10 tt tt false None "custom" (start int_collaborators [])).
  reflexivity.
Defined.

Lemma more_than_five_names_evaluates_nothing_witness :
  5 < size grid6 ∧
  @customGridSearchCV Q _ int_collaborators tt grid6 X10 y10 "custom" tt tt false None
    (start int_collaborators [])
  = (if bool_decide ("custom" = "custom") then Ok (RScores [])
     else if bool_decide ("custom" ∈ ["recall"; "f1"]) then Raise ValueError
     else if bool_decide ("custom" = "precision")
          then Raise (UnboundLocalError "max_score")
          else Ok RNone, start int_collaborators []).
Proof.
  split; [vm_compute; lia|].
  apply (@more_than_five_names_evaluates_nothing Q _ int_collaborators
           tt grid6 X10 y10 tt tt false None "custom" (start int_collaborators [])).
  vm_compute; lia.
Defined.

Lemma empty_candidate_list_evaluates_nothing_witness :
  size grid_none ≤ 5 ∧ grid_none !! "u" = Some [] ∧
  @customGridSearchCV Q _ int_collaborators tt grid_none X10 y10 "recall" tt tt false None
    (start int_collaborators [])
  = (if bool_decide ("recall" = "custom") then Ok (RScores [])
     else if bool_decide ("recall" ∈ ["recall"; "f1"]) then Raise ValueError
     else if bool_decide ("recall" = "precision")
          then Raise (UnboundLocalError "max_score")
          else Ok RNone, start int_collaborators []).
Proof.
  split; [vm_compute; lia|]. split; [reflexivity|].
  apply (@empty_candidate_list_evaluates_nothing Q _ int_collaborators
           tt grid_none X10 y10 tt tt false None "recall" "u"
           (start int_collaborators []));
    [vm_compute; lia | reflexivity].
Defined.

Lemma accuracy_is_no_scoring :
  "accuracy" ∉ ["all"; "custom"; "recall"; "precision"; "f1"].
Proof.
  intros Hin.
  repeat (apply elem_of_cons in Hin as [Hin|Hin]; [discriminate Hin|]).
  by apply elem_of_nil in Hin.
Qed.

Lemma unknown_scoring_returns_None_witness :
  ("accuracy" ∉ ["all"; "custom"; "recall"; "precision"; "f1"]) ∧
  1 ≤ size grid_t ∧ size grid_t ≤ 5 ∧
  @cv_returns Q _ int_collaborators X10 y10 tt tt false None ∧
  ∃ cv',
    @customGridSearchCV Q _ int_collaborators tt grid_t X10 y10 "accuracy" tt tt false None
      (start int_collaborators []) = (Ok RNone, cv') ∧
    snd (@grid_scores Q _ int_collaborators tt grid_t X10 y10 tt tt false None
           (start int_collaborators [])) = cv' ∧
    clf_calls cv' = clf_calls (start int_collaborators [])
                    ++ @combinations Q int_collaborators grid_t.
Proof.
  split; [exact accuracy_is_no_scoring|].
  split; [vm_compute; lia|]. split; [vm_compute; lia|].
  split; [apply int_cv_returns|].
  apply (@unknown_scoring_returns_None Q _ int_collaborators
           tt grid_t X10 y10 tt tt false None "accuracy" (start int_collaborators []));
    [exact accuracy_is_no_scoring | vm_compute; lia | vm_compute; lia
    | apply int_cv_returns].
Defined.

Lemma int_scores_are_numbers (X : DataFrame Q) (y : Series)
    (outlier_removal : bool) (pca : option unit) :
  @scores_are_numbers Q _ int_collaborators X y tt tt outlier_removal pca.
Proof. intros clf_obj cv score cv' _. split; apply Qeq_bool_refl. Qed.

Lemma best_score_scoring_raises_NameError_witness :
  ("f1" = "recall" ∨ "f1" = "f1") ∧
  1 ≤ size grid_t ∧ size grid_t ≤ 5 ∧
  @cv_returns Q _ int_collaborators X10 y10 tt tt false None ∧
  @scores_are_numbers Q _ int_collaborators X10 y10 tt tt false None ∧
  0 < @candidate_product Q int_collaborators grid_t ∧
  ∃ cv',
    @customGridSearchCV Q _ int_collaborators tt grid_t X10 y10 "f1" tt tt false None
      (start int_collaborators []) = (Raise (NameError "scaler_str"), cv') ∧
    snd (@grid_scores Q _ int_collaborators tt grid_t X10 y10 tt tt false None
           (start int_collaborators [])) = cv' ∧
    clf_calls cv' = clf_calls (start int_collaborators [])
                    ++ @combinations Q int_collaborators grid_t.
Proof.
  split; [by right|].
  split; [vm_compute; lia|]. split; [vm_compute; lia|].
  split; [apply int_cv_returns|]. split; [apply int_scores_are_numbers|].
  split; [vm_compute; lia|].
  apply (@best_score_scoring_raises_NameError Q _ int_collaborators
           tt grid_t X10 y10 tt tt false None "f1" (start int_collaborators []));
    [by right | vm_compute; lia | vm_compute; lia | apply int_cv_returns
    | apply int_scores_are_numbers | vm_compute; lia].
Defined.

Lemma all_scoring_returns_after_first_line_witness :
  1 ≤ size grid_tu ∧ size grid_tu ≤ 5 ∧
  @cv_returns Q _ int_collaborators X10 y10 tt tt false None ∧
  0 < @candidate_product Q int_collaborators grid_tu ∧
  ∃ sc cv' key s rest,
    @grid_scores Q _ int_collaborators tt grid_tu X10 y10 tt tt false None
      (start int_collaborators []) = (Ok sc, cv') ∧
    py_sorted (dict_keys sc) = key :: rest ∧
    dict_get key sc = Some s ∧
    @customGridSearchCV Q _ int_collaborators tt grid_tu X10 y10 "all" tt tt false None
      (start int_collaborators [])
      = (Ok (RScores sc),
         cv_printed [scores_line [AStr newline; AStr key] " recall" s] cv').
Proof.
  split; [vm_compute; lia|]. split; [vm_compute; lia|].
  split; [apply int_cv_returns|]. split; [vm_compute; lia|].
  apply (@all_scoring_returns_after_first_line Q _ int_collaborators
           tt grid_tu X10 y10 tt tt false None (start int_collaborators []));
    [vm_compute; lia | vm_compute; lia | apply int_cv_returns | vm_compute; lia].
Defined.

Lemma text_cv_returns : @cv_returns Q _ text_collaborators X10 y10 tt tt false None.
Proof.
  intros clf_obj cv.
  assert (Hok : is_ok (fst (@customCV Q _ text_collaborators clf_obj X10 y10 tt tt
                               false None false cv)) = true) by reflexivity.
  destruct (customCV _ _ _ _ _ _ _ _ _) as [[s|e] cv']; [eauto | done].
Qed.

Lemma score_mapping_has_one_entry_per_string_witness :
  1 ≤ size grid_text ∧ size grid_text ≤ 5 ∧
  @cv_returns Q _ text_collaborators X10 y10 tt tt false None ∧
  ∃ sc cv',
    @grid_scores Q _ text_collaborators tt grid_text X10 y10 tt tt false None
      (start text_collaborators []) = (Ok sc, cv') ∧
    NoDup (dict_keys sc) ∧
    (∀ key, key ∈ dict_keys sc ↔
            key ∈ map (py_str_dict py_repr) (@combinations Q text_collaborators grid_text)) ∧
    length sc ≤ @candidate_product Q text_collaborators grid_text.
Proof.
  split; [vm_compute; lia|]. split; [vm_compute; lia|].
  split; [exact text_cv_returns|].
  apply (@score_mapping_has_one_entry_per_string Q _ text_collaborators
           tt grid_text X10 y10 tt tt false None (start text_collaborators []));
    [vm_compute; lia | vm_compute; lia | exact text_cv_returns].
Defined.

Lemma custom_scoring_prints_keys_in_ascending_order_witness :
  1 ≤ size grid_tu ∧ size grid_tu ≤ 5 ∧
  @cv_returns Q _ int_collaborators X10 y10 tt tt false None ∧
  ∃ sc cv' outs,
    @grid_scores Q _ int_collaborators tt grid_tu X10 y10 tt tt false None
      (start int_collaborators []) = (Ok sc, cv') ∧
    @customGridSearchCV Q _ int_collaborators tt grid_tu X10 y10 "custom" tt tt false None
      (start int_collaborators [])
      = (Ok (RScores sc), cv_printed outs cv') ∧
    (∀ line, line ∈ outs ↔
       ∃ key s, dict_get key sc = Some s ∧
                fgt (recall_of s) lit_0_5 = true ∧ fgt (precision_of s) lit_0_2 = true ∧
                line = scores_line [AStr newline; AStr key] " recall" s) ∧
    length (omap line_key outs) = length outs ∧
    StronglySorted String.le (omap line_key outs) ∧
    NoDup (omap line_key outs).
Proof.
  split; [vm_compute; lia|]. split; [vm_compute; lia|].
  split; [apply int_cv_returns|].
  apply (@custom_scoring_prints_keys_in_ascending_order Q _ int_collaborators
           tt grid_tu X10 y10 tt tt false None (start int_collaborators []));
    [vm_compute; lia | vm_compute; lia | apply int_cv_returns].
Defined.

Lemma int_customCV_without_labels_raises (clf_obj : Q)
    (cv : @CVState Q int_collaborators) :
  ∃ cv', @customCV Q _ int_collaborators clf_obj X10 y3 tt tt false None false cv
         = (Raise IndexError, cv').
Proof. exists cv. reflexivity. Qed.

Lemma fold_evaluator_error_stops_the_search_witness :
  1 ≤ size grid_tu ∧ size grid_tu ≤ 5 ∧
  0 < @candidate_product Q int_collaborators grid_tu ∧
  (∀ clf_obj cv0, ∃ cv1,
     @customCV Q _ int_collaborators clf_obj X10 y3 tt tt false None false cv0
       = (Raise IndexError, cv1)) ∧
  ∃ cv',
    @customGridSearchCV Q _ int_collaborators tt grid_tu X10 y3 "custom" tt tt false None
      (start int_collaborators []) = (Raise IndexError, cv') ∧
    clf_calls cv' = clf_calls (start int_collaborators [])
                    ++ take 1 (@combinations Q int_collaborators grid_tu).
Proof.
  split; [vm_compute; lia|]. split; [vm_compute; lia|]. split; [vm_compute; lia|].
  split; [exact int_customCV_without_labels_raises|].
  apply (@fold_evaluator_error_stops_the_search Q _ int_collaborators
           tt grid_tu X10 y3 tt tt false None "custom" IndexError
           (start int_collaborators []));
    [vm_compute; lia | vm_compute; lia | vm_compute; lia
    | exact int_customCV_without_labels_raises].
Defined.


Lemma customCV_scores_each_fold_on_its_test_rows_witness :
  ∃ score st',
    customCV (0 # 1)%Q X10 y10 tt tt true (Some tt) false (start int_collaborators [])
      = (Ok score, st') ∧
    ∃ fold_scores,
      Forall2 (scored_on_test_rows X10 y10 tt (Some tt)) (skf_split X10 y10) fold_scores ∧
      score = (np_mean (map recall_of fold_scores),
               np_mean (map precision_of fold_scores),
               np_mean (map f1_of fold_scores)).
Proof.
  destruct (int_customCV_returns X10 true (Some tt) (0 # 1)%Q (start int_collaborators [])
              ltac:(by left)) as (score & st' & Hrun).
  exists score, st'. split; [exact Hrun|].
  apply (@customCV_scores_each_fold_on_its_test_rows Q _ int_collaborators
           (0 # 1)%Q X10 y10 tt tt true (Some tt) false (start int_collaborators [])
           score st' Hrun).
Defined.



End ConcreteEdges.
